(** * The per-neighbor session core of gobgp ([server/peer.go])

    A shallow embedding of [server/peer.go] and the properties of its
    specification.  The peer owns plain Go maps, slices and channels; they are
    modelled as finite maps ([gmap]), lists and queues (lists, oldest first).
    The packages [packet] (imported as [bgp]), [table], [policy], [config] and
    the FSM driver are collaborators of the file: their opaque operations are
    variables of the section below, and the few data structures the properties
    speak about are modelled from the specification. *)

From Stdlib Require Import ZArith SpecFloat.
From stdpp Require Import gmap strings list fin_maps pretty.

Local Open Scope Z_scope.

(** ** Results of code that may terminate the process

    [log.Fatal], [Panic] and a failed Go type assertion stop the program; the
    handlers below return [Fatal] there. *)

Inductive result (A : Type) : Type :=
  | Ok (a : A)
  | Fatal (why : string).
Arguments Ok {A} a.
Arguments Fatal {A} why.

#[global] Instance result_ret : MRet result := fun A a => Ok a.
#[global] Instance result_bind : MBind result := fun A B k r =>
  match r with
  | Ok a => k a
  | Fatal why => Fatal why
  end.

(** ** Fixed-width integers and clock readings *)

Definition wrap32 (z : Z) : Z := z mod 2 ^ 32.
(** The [int64] an integer overflows to. *)
Definition wrap64s (z : Z) : Z := (z + 2 ^ 63) mod 2 ^ 64 - 2 ^ 63.

(** [time.Time] as nanoseconds since the Unix epoch; [time.Duration] as a
    signed 64-bit count of nanoseconds.  A [time.Time] keeps its seconds in
    an [int64] that counts from January 1 of year 1, [unixToInternal] seconds
    before the epoch; the conversions from and to Unix seconds add and
    subtract that constant in [int64]. *)
Abbreviation Time := Z.
Abbreviation Duration := Z.

Definition Second : Duration := 1000000000.
Definition minDuration : Duration := - 2 ^ 63.
Definition maxDuration : Duration := 2 ^ 63 - 1.
Definition unixToInternal : Z := 62135596800.

(** [t.Unix()]: whole seconds since the epoch. *)
Definition Unix (t : Time) : Z := wrap64s (t / Second).
(** [time.Unix(sec, 0)]: for the last [unixToInternal] values of an [int64]
    the sum overflows, and the instant lies 2^64 seconds before [sec]. *)
Definition time_Unix (sec : Z) : Time :=
  (wrap64s (sec + unixToInternal) - unixToInternal) * Second.
(** [t.Sub(u)]: the difference, saturated to the range of a Duration. *)
Definition Sub (t u : Time) : Duration :=
  Z.max minDuration (Z.min maxDuration (t - u)).

(** Constants of peer.go, lines 32-36. *)
Definition FSM_CHANNEL_LENGTH : Z := 1024.
Definition FLOP_THRESHOLD : Duration := Second * 30.
Definition MIN_CONNECT_RETRY : Z := 10.

(** ** net.IP

    A Go [net.IP] is a byte slice of length 4 or 16.  [IP_Equal] is
    [net.IP.Equal]: an IPv4 address and its IPv4-in-IPv6 form are equal. *)

Abbreviation IP := (list Z).

Definition v4InV6Prefix : list Z := [0; 0; 0; 0; 0; 0; 0; 0; 0; 0; 255; 255].

Definition IP_Equal (ip x : IP) : bool :=
  if decide (length ip = length x) then bool_decide (ip = x)
  else if decide (length ip = 4%nat /\ length x = 16%nat)
       then bool_decide (take 12 x = v4InV6Prefix) && bool_decide (ip = drop 12 x)
  else if decide (length ip = 16%nat /\ length x = 4%nat)
       then bool_decide (take 12 ip = v4InV6Prefix) && bool_decide (drop 12 ip = x)
  else false.

(** ** The packet package: families, capabilities, messages *)

(** [bgp.RouteFamily] is a Go [int]; [bgp.BGPCapabilityCode] a [uint8]. *)
Abbreviation RouteFamily := Z.
Abbreviation BGPCapabilityCode := Z.

(** Modelled from the spec: the capability codes of the packet package, which
    peer.go imports.  The spec names the multiprotocol, route-refresh and
    4-octet AS-number capabilities; their codes are the ones registered for
    BGP (1, 2 and 65). *)
Definition BGP_CAP_MULTIPROTOCOL : BGPCapabilityCode := 1.
Definition BGP_CAP_ROUTE_REFRESH : BGPCapabilityCode := 2.
Definition BGP_CAP_FOUR_OCTET_AS_NUMBER : BGPCapabilityCode := 65.

(** Modelled from the spec: [bgp.ParameterCapabilityInterface], the decoded
    capability of an OPEN.  Only the multiprotocol capability is opened by
    peer.go (for its AFI and SAFI); every capability answers [Code]. *)
Inductive ParameterCapabilityInterface : Type :=
  | CapMultiProtocol (AFI SAFI : Z)
  | CapRouteRefresh
  | CapFourOctetASNumber (asn : Z)
  | CapUnknown (code : BGPCapabilityCode) (value : list Z).

Definition Code (c : ParameterCapabilityInterface) : BGPCapabilityCode :=
  match c with
  | CapMultiProtocol _ _ => BGP_CAP_MULTIPROTOCOL
  | CapRouteRefresh => BGP_CAP_ROUTE_REFRESH
  | CapFourOctetASNumber _ => BGP_CAP_FOUR_OCTET_AS_NUMBER
  | CapUnknown code _ => code
  end.

(** An optional parameter of an OPEN: a capability parameter or another one. *)
Inductive OptionParameterInterface : Type :=
  | OptionParameterCapability (Capability : list ParameterCapabilityInterface)
  | OptionParameterUnknown (typ : Z) (value : list Z).

Record BGPOpen : Type := mkBGPOpen {
  Version : Z;
  MyAS : Z;
  open_HoldTime : Z;          (* uint16 *)
  open_ID : IP;
  OptParams : list OptionParameterInterface
}.

(** Modelled from the spec: the message types of the packet package (OPEN,
    UPDATE, NOTIFICATION, KEEPALIVE, ROUTE-REFRESH), with their wire numbers. *)
Definition BGP_MSG_OPEN : Z := 1.
Definition BGP_MSG_UPDATE : Z := 2.
Definition BGP_MSG_NOTIFICATION : Z := 3.
Definition BGP_MSG_KEEPALIVE : Z := 4.
Definition BGP_MSG_ROUTE_REFRESH : Z := 5.

(** Modelled from the spec: the six FSM states of the glossary, numbered in
    that order from 1; 0 is the Go zero value of a state that was never set. *)
Abbreviation FSMState := Z.
Definition BGP_FSM_IDLE : FSMState := 1.
Definition BGP_FSM_CONNECT : FSMState := 2.
Definition BGP_FSM_ACTIVE : FSMState := 3.
Definition BGP_FSM_OPENSENT : FSMState := 4.
Definition BGP_FSM_OPENCONFIRM : FSMState := 5.
Definition BGP_FSM_ESTABLISHED : FSMState := 6.

(** Modelled from the spec: the NOTIFICATION codes peer.go emits itself
    (CEASE with its administrative subcodes). *)
Definition BGP_ERROR_CEASE : Z := 6.
Definition BGP_ERROR_SUB_ADMINISTRATIVE_SHUTDOWN : Z := 2.
Definition BGP_ERROR_SUB_PEER_DECONFIGURED : Z := 3.
Definition BGP_ERROR_SUB_ADMINISTRATIVE_RESET : Z := 4.

(** [bgp.MessageError]: the error of the decoder and of the UPDATE validator. *)
Record MessageError : Type := mkMessageError {
  TypeCode : Z;
  SubTypeCode : Z;
  err_Data : list Z
}.

(** ** The table package: paths and the Adj-RIB *)

Record PeerInfo : Type := mkPeerInfo {
  AS : Z;
  ID : IP;
  LocalID : IP;
  Address : IP
}.

(** Modelled from the spec: [table.Path], which the spec gives as the tuple
    (route-family, NLRI, attributes, nexthop, isWithdraw, origin PeerInfo).
    The attributes are opaque to the peer. *)
Record Path : Type := mkPath {
  GetRouteFamily : RouteFamily;
  getPrefix : string;
  getPathAttrs : list Z;
  GetNexthop : IP;
  IsWithdraw : bool;
  getSource : PeerInfo
}.

#[global] Instance PeerInfo_eq_dec : EqDecision PeerInfo.
Proof. solve_decision. Defined.
#[global] Instance Path_eq_dec : EqDecision Path.
Proof. solve_decision. Defined.
#[global] Instance MessageError_eq_dec : EqDecision MessageError.
Proof. solve_decision. Defined.

(** ** The policy package *)

(** Modelled from the spec: the action of a matching policy; REJECT is the one
    the peer tells apart. *)
Inductive RouteType : Type :=
  | ROUTE_TYPE_NONE
  | ROUTE_TYPE_ACCEPT
  | ROUTE_TYPE_REJECT.

#[global] Instance RouteType_eq_dec : EqDecision RouteType.
Proof. solve_decision. Defined.

(** A policy is opaque but for its method [Apply], which answers whether it
    matched, with which action, and the path it produces. *)
Record Policy : Type := mkPolicy {
  Name : string;
  Apply : Path -> bool * RouteType * Path
}.

(** peer.go, lines 442-462.  The Go function returns [(bool, *table.Path)];
    the nil pointer of a rejected path is [None]. *)
Fixpoint applyPolicies (policies : list Policy) (original : Path)
  : bool * option Path :=
  match policies with
  | [] => (false, Some original)
  | pol :: policies' =>
      match Apply pol original with
      | (true, action, newpath) =>
          if decide (action = ROUTE_TYPE_REJECT) then (true, None)
          else (true, Some newpath)
      | (false, _, _) => applyPolicies policies' original
      end
  end.

(** Modelled from the spec: [table.AdjRib], "two ordered sets of paths per
    route-family (IN from this peer, OUT to this peer)".  An update adds the
    non-withdrawals and removes the withdrawals; a path is identified inside
    its family by its NLRI. *)
Record AdjRib : Type := mkAdjRib {
  adjRibIn : gmap Z (list Path);
  adjRibOut : gmap Z (list Path)
}.

Definition NewAdjRib (rfList : list RouteFamily) : AdjRib :=
  let tables := foldl (fun acc rf => <[rf := []]> acc) ∅ rfList in
  mkAdjRib tables tables.

Definition rib_remove (key : string) (l : list Path) : list Path :=
  filter (fun q => getPrefix q <> key) l.

Definition rib_update_one (rib : gmap Z (list Path)) (path : Path)
  : gmap Z (list Path) :=
  let rf := GetRouteFamily path in
  let old := default [] (rib !! rf) in
  if IsWithdraw path
  then <[rf := rib_remove (getPrefix path) old]> rib
  else <[rf := rib_remove (getPrefix path) old ++ [path]]> rib.

Definition rib_update (rib : gmap Z (list Path)) (pathList : list Path)
  : gmap Z (list Path) :=
  foldl rib_update_one rib pathList.

Definition UpdateIn (pathList : list Path) (adj : AdjRib) : AdjRib :=
  mkAdjRib (rib_update (adjRibIn adj) pathList) (adjRibOut adj).

Definition UpdateOut (pathList : list Path) (adj : AdjRib) : AdjRib :=
  mkAdjRib (adjRibIn adj) (rib_update (adjRibOut adj) pathList).

Definition GetInPathList (rf : RouteFamily) (adj : AdjRib) : list Path :=
  default [] (adjRibIn adj !! rf).

Definition GetOutPathList (rf : RouteFamily) (adj : AdjRib) : list Path :=
  default [] (adjRibOut adj !! rf).

Definition GetInCount (rf : RouteFamily) (adj : AdjRib) : Z :=
  Z.of_nat (length (GetInPathList rf adj)).

Definition GetOutCount (rf : RouteFamily) (adj : AdjRib) : Z :=
  Z.of_nat (length (GetOutPathList rf adj)).

Definition DropAllIn (rf : RouteFamily) (adj : AdjRib) : AdjRib :=
  mkAdjRib (<[rf := []]> (adjRibIn adj)) (adjRibOut adj).

(** ** The config package *)

(** Go's [float64], as the IEEE 754 binary64 values of [SpecFloat]. *)
Abbreviation float64 := spec_float.

(** [float64(n)] for an unsigned 16-bit [n]: exact. *)
Definition float64_of_uint16 (n : Z) : float64 :=
  binary_normalize 53 1024 n 0 false.

(** [a > b] on float64: false as soon as one side is a NaN. *)
Definition float64_gt (a b : float64) : bool := SFltb b a.

Record Global : Type := mkGlobal {
  As : Z;
  RouterId : IP
}.

Record AfiSafi : Type := mkAfiSafi {
  AfiSafiName : string
}.

Record Timers : Type := mkTimers {
  ConnectRetry : float64;
  HoldTime : float64;
  IdleHoldTimeAfterReset : float64
}.

Record ApplyPolicy : Type := mkApplyPolicy {
  ImportPolicies : list string;
  ExportPolicies : list string
}.

(** The counters and timestamps of a neighbor.  [State], [Flops] and
    [EstablishedCount] are [uint32]; [Uptime], [Downtime] and
    [UpdateRecvTime] are Unix seconds ([int64]).  The per-message counters are
    kept by the FSM driver and only read by the peer. *)
Record BgpNeighborCommonState : Type := mkCommonState {
  State : Z;
  Uptime : Z;
  Downtime : Z;
  EstablishedCount : Z;
  Flops : Z;
  UpdateRecvTime : Z;
  TotalIn : Z;
  TotalOut : Z
}.

(** [config.BgpNeighborCommonState{}], the Go zero value. *)
Definition zeroCommonState : BgpNeighborCommonState :=
  mkCommonState 0 0 0 0 0 0 0 0.

(** Modelled from the spec: the default verdict of a direction, "accept or
    reject"; accept is the Go zero value. *)
Inductive DefaultPolicyType : Type :=
  | DEFAULT_POLICY_TYPE_ACCEPT_ROUTE
  | DEFAULT_POLICY_TYPE_REJECT_ROUTE.

#[global] Instance DefaultPolicyType_eq_dec : EqDecision DefaultPolicyType.
Proof. solve_decision. Defined.

Record Neighbor : Type := mkNeighbor {
  NeighborAddress : IP;
  PeerAs : Z;
  LocalAddress : IP;
  AfiSafiList : list AfiSafi;
  NeighborTimers : Timers;
  PassiveMode : bool;               (* TransportOptions.PassiveMode *)
  RouteServerClient : bool;         (* RouteServer.RouteServerClient *)
  NeighborApplyPolicy : ApplyPolicy;
  CommonState : BgpNeighborCommonState
}.

Definition set_CommonState (s : BgpNeighborCommonState) (c : Neighbor) : Neighbor :=
  mkNeighbor (NeighborAddress c) (PeerAs c) (LocalAddress c) (AfiSafiList c)
    (NeighborTimers c) (PassiveMode c) (RouteServerClient c)
    (NeighborApplyPolicy c) s.

Definition set_LocalAddress (a : IP) (c : Neighbor) : Neighbor :=
  mkNeighbor (NeighborAddress c) (PeerAs c) a (AfiSafiList c)
    (NeighborTimers c) (PassiveMode c) (RouteServerClient c)
    (NeighborApplyPolicy c) (CommonState c).

Definition set_State (v : Z) (s : BgpNeighborCommonState) :=
  mkCommonState v (Uptime s) (Downtime s) (EstablishedCount s) (Flops s)
    (UpdateRecvTime s) (TotalIn s) (TotalOut s).
Definition set_Uptime (v : Z) (s : BgpNeighborCommonState) :=
  mkCommonState (State s) v (Downtime s) (EstablishedCount s) (Flops s)
    (UpdateRecvTime s) (TotalIn s) (TotalOut s).
Definition set_Downtime (v : Z) (s : BgpNeighborCommonState) :=
  mkCommonState (State s) (Uptime s) v (EstablishedCount s) (Flops s)
    (UpdateRecvTime s) (TotalIn s) (TotalOut s).
Definition set_EstablishedCount (v : Z) (s : BgpNeighborCommonState) :=
  mkCommonState (State s) (Uptime s) (Downtime s) v (Flops s)
    (UpdateRecvTime s) (TotalIn s) (TotalOut s).
Definition set_Flops (v : Z) (s : BgpNeighborCommonState) :=
  mkCommonState (State s) (Uptime s) (Downtime s) (EstablishedCount s) v
    (UpdateRecvTime s) (TotalIn s) (TotalOut s).
Definition set_UpdateRecvTime (v : Z) (s : BgpNeighborCommonState) :=
  mkCommonState (State s) (Uptime s) (Downtime s) (EstablishedCount s) (Flops s)
    v (TotalIn s) (TotalOut s).

(** ** The FSM driver, as far as the peer reads and writes it *)

Inductive AdminState : Type :=
  | ADMIN_STATE_UP
  | ADMIN_STATE_DOWN.

#[global] Instance AdminState_eq_dec : EqDecision AdminState.
Proof. solve_decision. Defined.

(** The FSM holds a pointer to its own copy of the neighbor configuration
    ([NewFSM(&g, &peer, ...)] takes the address of NewPeer's parameter, while
    the peer keeps the copy made by [peerConfig: peer]): [fsm_peerConfig] and
    the peer's [peerConfig] are two stores. *)
Record FSM : Type := mkFSM {
  fsm_peerConfig : Neighbor;
  fsm_state : FSMState;
  adminState : AdminState;
  adminStateCh : list AdminState;   (* a channel of capacity 1 *)
  negotiatedHoldTime : float64;
  idleHoldTime : float64;
  fsm_localAddr : IP                (* what [LocalAddr()] answers *)
}.

Definition set_fsm_peerConfig (c : Neighbor) (f : FSM) : FSM :=
  mkFSM c (fsm_state f) (adminState f) (adminStateCh f)
    (negotiatedHoldTime f) (idleHoldTime f) (fsm_localAddr f).
Definition set_fsm_state (v : FSMState) (f : FSM) : FSM :=
  mkFSM (fsm_peerConfig f) v (adminState f) (adminStateCh f)
    (negotiatedHoldTime f) (idleHoldTime f) (fsm_localAddr f).
Definition set_adminStateCh (v : list AdminState) (f : FSM) : FSM :=
  mkFSM (fsm_peerConfig f) (fsm_state f) (adminState f) v
    (negotiatedHoldTime f) (idleHoldTime f) (fsm_localAddr f).
Definition set_negotiatedHoldTime (v : float64) (f : FSM) : FSM :=
  mkFSM (fsm_peerConfig f) (fsm_state f) (adminState f) (adminStateCh f)
    v (idleHoldTime f) (fsm_localAddr f).
Definition set_idleHoldTime (v : float64) (f : FSM) : FSM :=
  mkFSM (fsm_peerConfig f) (fsm_state f) (adminState f) (adminStateCh f)
    (negotiatedHoldTime f) v (fsm_localAddr f).

Definition set_fsm_CommonState (s : BgpNeighborCommonState) (f : FSM) : FSM :=
  set_fsm_peerConfig (set_CommonState s (fsm_peerConfig f)) f.

(** Modelled from the spec: [NewFSM]; "PeerSession is created with initial FSM
    state IDLE", administratively up, nothing negotiated yet. *)
Definition NewFSM (pConfig : Neighbor) : FSM :=
  mkFSM pConfig BGP_FSM_IDLE ADMIN_STATE_UP [] (S754_zero false)
    (S754_zero false) [].

(** Modelled from the spec: [fsm.StateChange], "record new state". *)
Definition StateChange (nextState : FSMState) (f : FSM) : FSM :=
  set_fsm_state nextState f.

(** ** Messages

    The decoded body of an UPDATE is opaque to the peer. *)

Inductive BGPBody (BGPUpdate : Type) : Type :=
  | Body_Open (body : BGPOpen)
  | Body_Update (body : BGPUpdate)
  | Body_Notification (code subcode : Z) (data : list Z)
  | Body_KeepAlive
  | Body_RouteRefresh (AFI SAFI : Z).
Arguments Body_Open {BGPUpdate} body.
Arguments Body_Update {BGPUpdate} body.
Arguments Body_Notification {BGPUpdate} code subcode data.
Arguments Body_KeepAlive {BGPUpdate}.
Arguments Body_RouteRefresh {BGPUpdate} AFI SAFI.

(** [bgp.BGPMessage]: a header, of which the peer reads the type, and a body
    behind an interface. *)
Record BGPMessage (BGPUpdate : Type) : Type := mkBGPMessage {
  Header_Type : Z;
  Body : BGPBody BGPUpdate
}.
Arguments mkBGPMessage {BGPUpdate} Header_Type Body.
Arguments Header_Type {BGPUpdate} b.
Arguments Body {BGPUpdate} b.

(** Modelled from the spec: [bgp.NewBGPNotificationMessage]. *)
Definition NewBGPNotificationMessage {BGPUpdate : Type} (code subcode : Z)
  (data : list Z) : BGPMessage BGPUpdate :=
  mkBGPMessage BGP_MSG_NOTIFICATION (Body_Notification code subcode data).

(** ** Collaborators

    The operations of the other packages that peer.go calls and that stay
    opaque here.  [TableManager] is the shared decision-process table. *)
Class Collaborators (BGPUpdate TableManager : Type) : Type := {
  (** [bgp.GetRouteFamily]: the family of a configured name (its error is
      dropped by every caller in peer.go). *)
  bgp_GetRouteFamily : string -> RouteFamily;
  (** [bgp.AfiSafiToRouteFamily]. *)
  AfiSafiToRouteFamily : Z -> Z -> RouteFamily;
  (** [bgp.ValidateUpdateMsg]: [None] is the nil error. *)
  ValidateUpdateMsg : BGPUpdate -> gmap Z bool -> option MessageError;
  (** [table.UpdatePathAttrs4ByteAs] and [table.UpdatePathAttrs2ByteAs]
      rewrite the body they are given in place. *)
  UpdatePathAttrs4ByteAs : BGPUpdate -> BGPUpdate;
  UpdatePathAttrs2ByteAs : BGPUpdate -> BGPUpdate;
  (** [table.NewProcessMessage(m, peerInfo).ToPathList()]. *)
  ToPathList : BGPMessage BGPUpdate -> PeerInfo -> list Path;
  (** [table.CreateUpdateMsgFromPaths]. *)
  CreateUpdateMsgFromPaths : list Path -> list (BGPMessage BGPUpdate);
  (** [table.CloneAndUpdatePathAttrs]. *)
  CloneAndUpdatePathAttrs : list Path -> Global -> Neighbor -> list Path;
  (** The shared table: [NewTableManager], [ProcessPaths],
      [DeletePathsforPeer], [GetPathList] and the presence of a family in
      [Tables]. *)
  NewTableManager : string -> list RouteFamily -> TableManager;
  ProcessPaths : TableManager -> list Path -> TableManager * list Path;
  DeletePathsforPeer :
    TableManager -> PeerInfo -> RouteFamily -> TableManager * list Path;
  rib_GetPathList : TableManager -> RouteFamily -> list Path;
  rib_hasTable : TableManager -> RouteFamily -> bool;
  (** [net.IP.String]. *)
  IP_String : IP -> string
}.

(** ** The peer *)

Section PeerCore.

Context {BGPUpdate TableManager : Type} `{!Collaborators BGPUpdate TableManager}.

Local Abbreviation BGPMessage := (BGPMessage BGPUpdate).

(** peer.go, lines 38-49.  [msgData] is an [interface{}]; the peer asserts it
    to a path list or to a PeerInfo. *)
Abbreviation peerMsgType := Z.
Definition PEER_MSG_PATH : peerMsgType := 1.
Definition PEER_MSG_PEER_DOWN : peerMsgType := 2.

Inductive peerMsgData : Type :=
  | Data_PathList (pathList : list Path)
  | Data_PeerInfo (info : PeerInfo).

Record peerMsg : Type := mkPeerMsg {
  msgType : peerMsgType;
  msgData : peerMsgData
}.

(** A sibling as the server hands it over: its mailbox and its address.
    Channels the peer does not own are named by a number. *)
Record serverMsgDataPeer : Type := mkServerMsgDataPeer {
  peerMsgCh : N;
  address : IP
}.

(** What a management request is answered with; the JSON encoding is not
    modelled. *)
Inductive RestData : Type :=
  | Rest_NoData
  | Rest_EmptyTable
  | Rest_Table (rf : RouteFamily)
  | Rest_AdjRib (rf : RouteFamily) (paths : list Path)
  | Rest_Result (text : string).

(** The sends of the peer on channels it does not own, oldest first. *)
Inductive effect : Type :=
  | SendPeerMsg (ch : N) (m : peerMsg)
  | SendGetActive
  | SendRestResponse (ch : N) (data : RestData)
  | CloseConnCh.

(** peer.go, lines 51-74.  [outgoing] is the content of the channel of that
    name, oldest message first; a send appends (the FSM driver drains the
    channel, a send that would have to wait for it is not modelled).  [trace]
    records the sends on the channels of the siblings, of the connect loop and
    of the management callers. *)
Record Peer : Type := mkPeer {
  globalConfig : Global;
  peerConfig : Neighbor;
  fsm : FSM;
  adjRib : AdjRib;
  rib : TableManager;
  isGlobalRib : bool;
  rfMap : gmap Z bool;
  capMap : gmap Z ParameterCapabilityInterface;
  peerInfo : PeerInfo;
  siblings : gmap string serverMsgDataPeer;
  outgoing : list BGPMessage;
  importPolicies : list Policy;
  defaultImportPolicy : DefaultPolicyType;
  exportPolicies : list Policy;
  defaultExportPolicy : DefaultPolicyType;
  trace : list effect
}.

Definition set_peerConfig (v : Neighbor) (p : Peer) : Peer :=
  mkPeer (globalConfig p) v (fsm p) (adjRib p) (rib p) (isGlobalRib p)
    (rfMap p) (capMap p) (peerInfo p) (siblings p) (outgoing p)
    (importPolicies p) (defaultImportPolicy p) (exportPolicies p)
    (defaultExportPolicy p) (trace p).
Definition set_fsm (v : FSM) (p : Peer) : Peer :=
  mkPeer (globalConfig p) (peerConfig p) v (adjRib p) (rib p) (isGlobalRib p)
    (rfMap p) (capMap p) (peerInfo p) (siblings p) (outgoing p)
    (importPolicies p) (defaultImportPolicy p) (exportPolicies p)
    (defaultExportPolicy p) (trace p).
Definition set_adjRib (v : AdjRib) (p : Peer) : Peer :=
  mkPeer (globalConfig p) (peerConfig p) (fsm p) v (rib p) (isGlobalRib p)
    (rfMap p) (capMap p) (peerInfo p) (siblings p) (outgoing p)
    (importPolicies p) (defaultImportPolicy p) (exportPolicies p)
    (defaultExportPolicy p) (trace p).
Definition set_rib (v : TableManager) (p : Peer) : Peer :=
  mkPeer (globalConfig p) (peerConfig p) (fsm p) (adjRib p) v (isGlobalRib p)
    (rfMap p) (capMap p) (peerInfo p) (siblings p) (outgoing p)
    (importPolicies p) (defaultImportPolicy p) (exportPolicies p)
    (defaultExportPolicy p) (trace p).
Definition set_rfMap (v : gmap Z bool) (p : Peer) : Peer :=
  mkPeer (globalConfig p) (peerConfig p) (fsm p) (adjRib p) (rib p)
    (isGlobalRib p) v (capMap p) (peerInfo p) (siblings p) (outgoing p)
    (importPolicies p) (defaultImportPolicy p) (exportPolicies p)
    (defaultExportPolicy p) (trace p).
Definition set_capMap (v : gmap Z ParameterCapabilityInterface) (p : Peer) : Peer :=
  mkPeer (globalConfig p) (peerConfig p) (fsm p) (adjRib p) (rib p)
    (isGlobalRib p) (rfMap p) v (peerInfo p) (siblings p) (outgoing p)
    (importPolicies p) (defaultImportPolicy p) (exportPolicies p)
    (defaultExportPolicy p) (trace p).
Definition set_peerInfo (v : PeerInfo) (p : Peer) : Peer :=
  mkPeer (globalConfig p) (peerConfig p) (fsm p) (adjRib p) (rib p)
    (isGlobalRib p) (rfMap p) (capMap p) v (siblings p) (outgoing p)
    (importPolicies p) (defaultImportPolicy p) (exportPolicies p)
    (defaultExportPolicy p) (trace p).
Definition set_siblings (v : gmap string serverMsgDataPeer) (p : Peer) : Peer :=
  mkPeer (globalConfig p) (peerConfig p) (fsm p) (adjRib p) (rib p)
    (isGlobalRib p) (rfMap p) (capMap p) (peerInfo p) v (outgoing p)
    (importPolicies p) (defaultImportPolicy p) (exportPolicies p)
    (defaultExportPolicy p) (trace p).
Definition set_outgoing (v : list BGPMessage) (p : Peer) : Peer :=
  mkPeer (globalConfig p) (peerConfig p) (fsm p) (adjRib p) (rib p)
    (isGlobalRib p) (rfMap p) (capMap p) (peerInfo p) (siblings p) v
    (importPolicies p) (defaultImportPolicy p) (exportPolicies p)
    (defaultExportPolicy p) (trace p).
Definition set_importPolicies (v : list Policy) (p : Peer) : Peer :=
  mkPeer (globalConfig p) (peerConfig p) (fsm p) (adjRib p) (rib p)
    (isGlobalRib p) (rfMap p) (capMap p) (peerInfo p) (siblings p)
    (outgoing p) v (defaultImportPolicy p) (exportPolicies p)
    (defaultExportPolicy p) (trace p).
Definition set_exportPolicies (v : list Policy) (p : Peer) : Peer :=
  mkPeer (globalConfig p) (peerConfig p) (fsm p) (adjRib p) (rib p)
    (isGlobalRib p) (rfMap p) (capMap p) (peerInfo p) (siblings p)
    (outgoing p) (importPolicies p) (defaultImportPolicy p) v
    (defaultExportPolicy p) (trace p).
Definition set_trace (v : list effect) (p : Peer) : Peer :=
  mkPeer (globalConfig p) (peerConfig p) (fsm p) (adjRib p) (rib p)
    (isGlobalRib p) (rfMap p) (capMap p) (peerInfo p) (siblings p)
    (outgoing p) (importPolicies p) (defaultImportPolicy p) (exportPolicies p)
    (defaultExportPolicy p) v.
Definition set_defaultImportPolicy (v : DefaultPolicyType) (p : Peer) : Peer :=
  mkPeer (globalConfig p) (peerConfig p) (fsm p) (adjRib p) (rib p)
    (isGlobalRib p) (rfMap p) (capMap p) (peerInfo p) (siblings p)
    (outgoing p) (importPolicies p) v (exportPolicies p)
    (defaultExportPolicy p) (trace p).
Definition set_defaultExportPolicy (v : DefaultPolicyType) (p : Peer) : Peer :=
  mkPeer (globalConfig p) (peerConfig p) (fsm p) (adjRib p) (rib p)
    (isGlobalRib p) (rfMap p) (capMap p) (peerInfo p) (siblings p)
    (outgoing p) (importPolicies p) (defaultImportPolicy p) (exportPolicies p)
    v (trace p).

(** *** Small steps shared by the handlers *)

(** [peer.outgoing <- m]. *)
Definition push_outgoing (m : BGPMessage) (peer : Peer) : Peer :=
  set_outgoing (outgoing peer ++ [m]) peer.

Definition emit (e : list effect) (peer : Peer) : Peer :=
  set_trace (trace peer ++ e) peer.

(** A [for _, x := range l] whose body may stop the program. *)
Fixpoint forM {A S : Type} (body : A -> S -> result S) (l : list A) (s : S)
  : result S :=
  match l with
  | [] => Ok s
  | x :: l' => s' ← body x s; forM body l' s'
  end.

(** The state the supervisor recorded last, [peerConfig.BgpNeighborCommonState.State]. *)
Definition peerState (peer : Peer) : Z := State (CommonState (peerConfig peer)).

(** peer.go, lines 148-155. *)
Definition configuredRFlist (peer : Peer) : list RouteFamily :=
  map (fun rf => bgp_GetRouteFamily (AfiSafiName rf)) (AfiSafiList (peerConfig peer)).

(** peer.go, lines 115-146: the names that resolve, in configured order. *)
Definition setPolicy (policyMap : gmap string Policy) (peer : Peer) : Peer :=
  let policyConfig := NeighborApplyPolicy (peerConfig peer) in
  let inPolicies := omap (fun policyName => policyMap !! policyName)
                         (ImportPolicies policyConfig) in
  let outPolicies := omap (fun policyName => policyMap !! policyName)
                          (ExportPolicies policyConfig) in
  set_exportPolicies outPolicies (set_importPolicies inPolicies peer).

(** peer.go, lines 157-168.  One message value is sent to every sibling of the
    directory (Go ranges over the map in an unspecified order; the order of
    [map_to_list] stands for it). *)
Definition sendToSiblings (pm : peerMsg) (peer : Peer) : Peer :=
  emit (map (fun s => SendPeerMsg (peerMsgCh s.2) pm) (map_to_list (siblings peer)))
       peer.

Definition sendPathsToSiblings (pathList : list Path) (peer : Peer) : Peer :=
  if decide (length pathList = 0%nat) then peer
  else sendToSiblings (mkPeerMsg PEER_MSG_PATH (Data_PathList pathList)) peer.

(** peer.go, lines 263-285: the body of the loop, for one message. *)
Definition sendMessage (m : BGPMessage) (peer : Peer) : result Peer :=
  if decide (peerState peer <> BGP_FSM_ESTABLISHED) then Ok peer
  else if decide (Header_Type m <> BGP_MSG_UPDATE)
  then Fatal "not update message"
  else match capMap peer !! BGP_CAP_FOUR_OCTET_AS_NUMBER with
       | Some _ => Ok (push_outgoing m peer)
       | None =>
           match Body m with
           | Body_Update body =>
               Ok (push_outgoing
                     (mkBGPMessage (Header_Type m)
                        (Body_Update (UpdatePathAttrs2ByteAs body))) peer)
           | _ => Fatal "interface conversion: not *bgp.BGPUpdate"
           end
       end.

Definition sendMessages (msgs : list BGPMessage) (peer : Peer) : result Peer :=
  forM sendMessage msgs peer.

(** *** Received BGP messages (peer.go, lines 170-261) *)

(** Lines 184-190: one capability of a capability parameter.  The pair is
    [peer.capMap] and the local map [r] of the families the remote advertises. *)
Definition openCapability (c : ParameterCapabilityInterface)
  (acc : gmap Z ParameterCapabilityInterface * gmap Z bool)
  : result (gmap Z ParameterCapabilityInterface * gmap Z bool) :=
  let capMap' := <[Code c := c]> acc.1 in
  if decide (Code c = BGP_CAP_MULTIPROTOCOL) then
    match c with
    | CapMultiProtocol afi safi =>
        Ok (capMap', <[AfiSafiToRouteFamily afi safi := true]> acc.2)
    | _ => Fatal "interface conversion: not *bgp.CapMultiProtocol"
    end
  else Ok (capMap', acc.2).

(** Lines 182-192: one optional parameter. *)
Definition openParameter (p : OptionParameterInterface)
  (acc : gmap Z ParameterCapabilityInterface * gmap Z bool)
  : result (gmap Z ParameterCapabilityInterface * gmap Z bool) :=
  match p with
  | OptionParameterCapability caps => forM openCapability caps acc
  | OptionParameterUnknown _ _ => Ok acc
  end.

(** Lines 194-198: the families of [rfMap] that [r] lacks are deleted. *)
Definition pruneFamilies (r rfMap0 : gmap Z bool) : gmap Z bool :=
  filter (fun kv => is_Some (r !! kv.1)) rfMap0.

(** Lines 200-204: the configured families that [r] has are set. *)
Definition addFamilies (r : gmap Z bool) (rfList : list RouteFamily)
  (rfMap0 : gmap Z bool) : gmap Z bool :=
  foldl (fun acc rf => if r !! rf is Some _ then <[rf := true]> acc else acc)
        rfMap0 rfList.

(** Lines 206-217. *)
Definition negotiateHoldTime (holdTime myHoldTime : float64) : float64 :=
  if float64_gt holdTime myHoldTime then myHoldTime else holdTime.

Definition handleOpen (body : BGPOpen) (peer : Peer) : result Peer :=
  let info := peerInfo peer in
  let peer := set_peerInfo
                (mkPeerInfo (AS info) (open_ID body) (LocalID info) (Address info))
                peer in
  acc ← forM openParameter (OptParams body) (capMap peer, ∅);
  let peer := set_capMap acc.1 peer in
  let r := acc.2 in
  let peer := set_rfMap (pruneFamilies r (rfMap peer)) peer in
  let peer := set_rfMap (addFamilies r (configuredRFlist peer) (rfMap peer)) peer in
  let holdTime := float64_of_uint16 (open_HoldTime body) in
  let myHoldTime := HoldTime (NeighborTimers (fsm_peerConfig (fsm peer))) in
  Ok (set_fsm (set_negotiatedHoldTime (negotiateHoldTime holdTime myHoldTime)
                 (fsm peer)) peer).

Definition handleRouteRefresh (AFI SAFI : Z) (peer : Peer) : result Peer :=
  let rf := AfiSafiToRouteFamily AFI SAFI in
  match rfMap peer !! rf with
  | None => Ok peer
  | Some _ =>
      match capMap peer !! BGP_CAP_ROUTE_REFRESH with
      | Some _ =>
          let pathList := GetOutPathList rf (adjRib peer) in
          sendMessages (CreateUpdateMsgFromPaths pathList) peer
      | None => Ok peer
      end
  end.

Definition handleUpdate (now : Time) (m : BGPMessage) (body : BGPUpdate)
  (peer : Peer) : result Peer :=
  let peer := set_peerConfig
                (set_CommonState
                   (set_UpdateRecvTime (Unix now) (CommonState (peerConfig peer)))
                   (peerConfig peer)) peer in
  match ValidateUpdateMsg body (rfMap peer) with
  | Some err =>
      if decide (TypeCode err <> 0)
      then Ok (push_outgoing
                 (NewBGPNotificationMessage (TypeCode err) (SubTypeCode err)
                    (err_Data err)) peer)
      else Ok peer
  | None =>
      let m := mkBGPMessage (Header_Type m)
                 (Body_Update (UpdatePathAttrs4ByteAs body)) in
      let pathList := ToPathList m (peerInfo peer) in
      let peer := set_adjRib (UpdateIn pathList (adjRib peer)) peer in
      Ok (sendPathsToSiblings pathList peer)
  end.

Definition handleBGPmessage (now : Time) (m : BGPMessage) (peer : Peer)
  : result Peer :=
  if decide (Header_Type m = BGP_MSG_OPEN) then
    match Body m with
    | Body_Open body => handleOpen body peer
    | _ => Fatal "interface conversion: not *bgp.BGPOpen"
    end
  else if decide (Header_Type m = BGP_MSG_ROUTE_REFRESH) then
    match Body m with
    | Body_RouteRefresh AFI SAFI => handleRouteRefresh AFI SAFI peer
    | _ => Fatal "interface conversion: not *bgp.BGPRouteRefresh"
    end
  else if decide (Header_Type m = BGP_MSG_UPDATE) then
    match Body m with
    | Body_Update body => handleUpdate now m body peer
    | _ => Fatal "interface conversion: not *bgp.BGPUpdate"
    end
  else Ok peer.

(** *** The export path (peer.go, lines 362-418) *)

(** Lines 371-398, for one path: what the loop appends to [paths]. *)
Definition exportPath (policies : list Policy)
  (defaultExportPolicy0 : DefaultPolicyType) (p : Path) : list Path :=
  if IsWithdraw p then [p]
  else if decide (length policies <> 0%nat) then
    match applyPolicies policies p with
    | (true, Some newPath) => [newPath]
    | (true, None) => []
    | (false, _) =>
        if decide (defaultExportPolicy0 = DEFAULT_POLICY_TYPE_ACCEPT_ROUTE)
        then [p] else []
    end
  else [p].

Definition exportPaths (policies : list Policy)
  (defaultExportPolicy0 : DefaultPolicyType) (pList : list Path) : list Path :=
  foldl (fun paths p => paths ++ exportPath policies defaultExportPolicy0 p)
        [] pList.

(** Lines 402-416, for one path: what the loop appends to [sendpathList]. *)
Definition egressPath (peer : Peer) (p : Path) : list Path :=
  let ok := bool_decide (is_Some (rfMap peer !! GetRouteFamily p)) in
  let ok := if IP_Equal (NeighborAddress (peerConfig peer)) (GetNexthop p)
            then false else ok in
  if ok then [p] else [].

Definition egressPaths (peer : Peer) (paths : list Path) : list Path :=
  foldl (fun sendpathList p => sendpathList ++ egressPath peer p) [] paths.

Definition sendUpdateMsgFromPaths (pList : list Path) (peer : Peer)
  : result Peer :=
  let pList := CloneAndUpdatePathAttrs pList (globalConfig peer) (peerConfig peer) in
  let paths := exportPaths (exportPolicies peer) (defaultExportPolicy peer) pList in
  let peer := set_adjRib (UpdateOut paths (adjRib peer)) peer in
  let sendpathList := egressPaths peer paths in
  sendMessages (CreateUpdateMsgFromPaths sendpathList) peer.

(** *** Messages of the siblings (peer.go, lines 464-525) *)

(** Lines 476-502, for one path: what the loop appends to [paths]. *)
Definition importPath (policies : list Policy)
  (defaultImportPolicy0 : DefaultPolicyType) (p : Path) : list Path :=
  if negb (IsWithdraw p) then
    if decide (length policies <> 0%nat) then
      match applyPolicies policies p with
      | (true, Some newPath) => [newPath]
      | (true, None) => []
      | (false, _) =>
          if decide (defaultImportPolicy0 = DEFAULT_POLICY_TYPE_ACCEPT_ROUTE)
          then [p] else []
      end
    else [p]
  else [p].

Definition importPaths (policies : list Policy)
  (defaultImportPolicy0 : DefaultPolicyType) (pList : list Path) : list Path :=
  foldl (fun paths p => paths ++ importPath policies defaultImportPolicy0 p)
        [] pList.

(** Lines 516-523, for one configured family. *)
Definition peerDownFamily (data : peerMsgData) (rf : RouteFamily) (peer : Peer)
  : result Peer :=
  match data with
  | Data_PeerInfo info =>
      let '(rib', pList) := DeletePathsforPeer (rib peer) info rf in
      let peer := set_rib rib' peer in
      if RouteServerClient (peerConfig peer) then sendUpdateMsgFromPaths pList peer
      else if isGlobalRib peer then Ok (sendPathsToSiblings pList peer)
      else Ok peer
  | _ => Fatal "interface conversion: not *table.PeerInfo"
  end.

Definition handlePeerMsg (m : peerMsg) (peer : Peer) : result Peer :=
  if decide (msgType m = PEER_MSG_PATH) then
    match msgData m with
    | Data_PathList pList =>
        let paths := importPaths (importPolicies peer) (defaultImportPolicy peer)
                       pList in
        let '(peer, paths) :=
          if RouteServerClient (peerConfig peer) || isGlobalRib peer
          then let '(rib', paths') := ProcessPaths (rib peer) paths in
               (set_rib rib' peer, paths')
          else (peer, paths) in
        if isGlobalRib peer then Ok (sendPathsToSiblings paths peer)
        else sendUpdateMsgFromPaths paths peer
    | _ => Fatal "interface conversion: not []table.Path"
    end
  else if decide (msgType m = PEER_MSG_PEER_DOWN) then
    forM (peerDownFamily (msgData m)) (configuredRFlist peer) peer
  else Ok peer.

(** *** Management requests (peer.go, lines 287-360) *)

(** Modelled from the spec: the request kinds of the api package that reach a
    peer (section 4.8); any other kind is answered with an empty response. *)
Inductive RequestType_t : Type :=
  | REQ_LOCAL_RIB
  | REQ_GLOBAL_RIB
  | REQ_NEIGHBOR_SHUTDOWN
  | REQ_NEIGHBOR_RESET
  | REQ_NEIGHBOR_SOFT_RESET
  | REQ_NEIGHBOR_SOFT_RESET_IN
  | REQ_NEIGHBOR_SOFT_RESET_OUT
  | REQ_ADJ_RIB_IN
  | REQ_ADJ_RIB_OUT
  | REQ_NEIGHBOR_ENABLE
  | REQ_NEIGHBOR_DISABLE
  | REQ_OTHER.

Record RestRequest : Type := mkRestRequest {
  RequestType : RequestType_t;
  req_RouteFamily : RouteFamily;
  ResponseCh : N
}.

(** Lines 331-353: a non-blocking offer on the channel of capacity 1. *)
Definition offerAdminState (a : AdminState) (text : string) (peer : Peer)
  : Peer * RestData :=
  if decide (length (adminStateCh (fsm peer)) < 1)%nat
  then (set_fsm (set_adminStateCh (adminStateCh (fsm peer) ++ [a]) (fsm peer)) peer,
        Rest_Result text)
  else (peer, Rest_Result "previous request is still remaining").

(** The soft reset towards the peer, lines 312-313. *)
Definition softResetOut (rf : RouteFamily) (peer : Peer) : result Peer :=
  sendMessages (CreateUpdateMsgFromPaths (GetOutPathList rf (adjRib peer))) peer.

Definition handleREST (restReq : RestRequest) (peer : Peer) : result Peer :=
  let rf := req_RouteFamily restReq in
  '(peer, data) ←
    match RequestType restReq with
    | REQ_LOCAL_RIB | REQ_GLOBAL_RIB =>
        if decide (adminState (fsm peer) <> ADMIN_STATE_DOWN)
        then if rib_hasTable (rib peer) rf
             then Ok (peer, Rest_Table rf)
             else Ok (peer, Rest_EmptyTable)
        else Ok (peer, Rest_EmptyTable)
    | REQ_NEIGHBOR_SHUTDOWN =>
        Ok (push_outgoing
              (NewBGPNotificationMessage BGP_ERROR_CEASE
                 BGP_ERROR_SUB_ADMINISTRATIVE_SHUTDOWN []) peer, Rest_NoData)
    | REQ_NEIGHBOR_RESET =>
        let peer := set_fsm
                      (set_idleHoldTime
                         (IdleHoldTimeAfterReset (NeighborTimers (peerConfig peer)))
                         (fsm peer)) peer in
        Ok (push_outgoing
              (NewBGPNotificationMessage BGP_ERROR_CEASE
                 BGP_ERROR_SUB_ADMINISTRATIVE_RESET []) peer, Rest_NoData)
    | REQ_NEIGHBOR_SOFT_RESET_IN =>
        Ok (sendPathsToSiblings (GetInPathList rf (adjRib peer)) peer, Rest_NoData)
    | REQ_NEIGHBOR_SOFT_RESET =>
        let peer := sendPathsToSiblings (GetInPathList rf (adjRib peer)) peer in
        peer ← softResetOut rf peer; Ok (peer, Rest_NoData)
    | REQ_NEIGHBOR_SOFT_RESET_OUT =>
        peer ← softResetOut rf peer; Ok (peer, Rest_NoData)
    | REQ_ADJ_RIB_IN =>
        Ok (peer, Rest_AdjRib rf (GetInPathList rf (adjRib peer)))
    | REQ_ADJ_RIB_OUT =>
        Ok (peer, Rest_AdjRib rf (GetOutPathList rf (adjRib peer)))
    | REQ_NEIGHBOR_ENABLE =>
        Ok (offerAdminState ADMIN_STATE_UP "ADMIN_STATE_UP" peer)
    | REQ_NEIGHBOR_DISABLE =>
        Ok (offerAdminState ADMIN_STATE_DOWN "ADMIN_STATE_DOWN" peer)
    | REQ_OTHER => Ok (peer, Rest_NoData)
    end;
  Ok (emit [SendRestResponse (ResponseCh restReq) data] peer).

(** *** Messages of the server (peer.go, lines 527-563) *)

Inductive serverMsgType : Type :=
  | SRV_MSG_PEER_ADDED
  | SRV_MSG_PEER_DELETED
  | SRV_MSG_API
  | SRV_MSG_POLICY_UPDATED
  | SRV_MSG_UNKNOWN (n : Z).

Inductive serverMsgData : Type :=
  | Srv_Peer (d : serverMsgDataPeer)
  | Srv_PeerInfo (d : PeerInfo)
  | Srv_Rest (req : RestRequest)
  | Srv_PolicyMap (d : gmap string Policy).

Record serverMsg : Type := mkServerMsg {
  srv_msgType : serverMsgType;
  srv_msgData : serverMsgData
}.

(** Lines 532-538, for one configured family. *)
Definition peerAddedFamily (rf : RouteFamily) (peer : Peer) : result Peer :=
  if RouteServerClient (peerConfig peer)
  then Ok (sendPathsToSiblings (GetInPathList rf (adjRib peer)) peer)
  else if isGlobalRib peer
  then Ok (sendPathsToSiblings (rib_GetPathList (rib peer) rf) peer)
  else Ok peer.

(** Lines 543-550, for one configured family. *)
Definition peerDeletedFamily (d : PeerInfo) (rf : RouteFamily) (peer : Peer)
  : result Peer :=
  let '(rib', pList) := DeletePathsforPeer (rib peer) d rf in
  let peer := set_rib rib' peer in
  if RouteServerClient (peerConfig peer) then sendUpdateMsgFromPaths pList peer
  else Ok (sendPathsToSiblings pList peer).

Definition handleServerMsg (m : serverMsg) (peer : Peer) : result Peer :=
  match srv_msgType m with
  | SRV_MSG_PEER_ADDED =>
      match srv_msgData m with
      | Srv_Peer d =>
          let peer := set_siblings (<[IP_String (address d) := d]> (siblings peer))
                        peer in
          forM peerAddedFamily (configuredRFlist peer) peer
      | _ => Fatal "interface conversion: not *serverMsgDataPeer"
      end
  | SRV_MSG_PEER_DELETED =>
      match srv_msgData m with
      | Srv_PeerInfo d =>
          match siblings peer !! IP_String (Address d) with
          | Some _ =>
              let peer := set_siblings (delete (IP_String (Address d)) (siblings peer))
                            peer in
              forM (peerDeletedFamily d) (configuredRFlist peer) peer
          | None => Ok peer
          end
      | _ => Fatal "interface conversion: not *table.PeerInfo"
      end
  | SRV_MSG_API =>
      match srv_msgData m with
      | Srv_Rest req => handleREST req peer
      | _ => Fatal "interface conversion: not *api.RestRequest"
      end
  | SRV_MSG_POLICY_UPDATED =>
      match srv_msgData m with
      | Srv_PolicyMap d => Ok (setPolicy d peer)
      | _ => Fatal "interface conversion: not map[string]*policy.Policy"
      end
  | SRV_MSG_UNKNOWN _ => Fatal "unknown server msg type"
  end.

(** *** The supervisor loop (peer.go, lines 616-709) *)

(** Modelled from the spec: the events of the FSM driver on [incoming], a
    state change or a decoded BGP message (or the error of its decoder). *)
Inductive fsmMsgType : Type :=
  | FSM_MSG_STATE_CHANGE
  | FSM_MSG_BGP_MESSAGE
  | FSM_MSG_UNKNOWN (n : Z).

Inductive fsmMsgData : Type :=
  | Fsm_State (nextState : FSMState)
  | Fsm_Error (m : MessageError)
  | Fsm_Message (m : BGPMessage)
  | Fsm_Other.

Record fsmMsg : Type := mkFsmMsg {
  MsgType : fsmMsgType;
  MsgData : fsmMsgData
}.

(** Lines 618-642: a turn of the outer loop up to the inner loop.  [incoming]
    and [outgoing] are made anew, then the entry action of the recorded state
    runs.  The global-RIB peer has no FSM handler. *)
Definition loopEntry (now : Time) (peer : Peer) : result Peer :=
  let peer := set_outgoing [] peer in
  if isGlobalRib peer then Ok peer
  else if decide (peerState peer = BGP_FSM_ESTABLISHED) then
    let peer := set_peerConfig
                  (set_LocalAddress (fsm_localAddr (fsm peer)) (peerConfig peer))
                  peer in
    peer ← forM (fun (kv : Z * bool) peer =>
                   let pathList := GetOutPathList kv.1 (adjRib peer) in
                   sendMessages (CreateUpdateMsgFromPaths pathList) peer)
                (map_to_list (rfMap peer)) peer;
    let cs := CommonState (fsm_peerConfig (fsm peer)) in
    let cs := set_Uptime (Unix now) cs in
    let cs := set_EstablishedCount (wrap32 (EstablishedCount cs + 1)) cs in
    Ok (set_fsm (set_fsm_CommonState cs (fsm peer)) peer)
  else
    let peer := if decide (peerState peer = BGP_FSM_ACTIVE)
                then if negb (PassiveMode (peerConfig peer))
                     then emit [SendGetActive] peer else peer
                else peer in
    let cs := CommonState (fsm_peerConfig (fsm peer)) in
    Ok (set_fsm (set_fsm_CommonState (set_Downtime (Unix now) cs) (fsm peer)) peer).

(** Lines 647-654: the kill signal ends the loop. *)
Definition handleDying (peer : Peer) : Peer :=
  push_outgoing
    (NewBGPNotificationMessage BGP_ERROR_CEASE BGP_ERROR_SUB_PEER_DECONFIGURED [])
    (emit [CloseConnCh] peer).

(** Lines 665-669: the flap counter, kept in the FSM's copy of the
    configuration. *)
Definition countFlop (now : Time) (peer : Peer) : Peer :=
  let cs := CommonState (fsm_peerConfig (fsm peer)) in
  if decide (Sub now (time_Unix (Uptime cs)) < FLOP_THRESHOLD)
  then set_fsm (set_fsm_CommonState (set_Flops (wrap32 (Flops cs + 1)) cs)
                  (fsm peer)) peer
  else peer.

(** Lines 671-673. *)
Definition dropAllIn (peer : Peer) : Peer :=
  set_adjRib (foldl (fun adj rf => DropAllIn rf adj) (adjRib peer)
                (configuredRFlist peer)) peer.

(** Lines 657-686: an FSM state change.  The handler [h] is nil in the
    global-RIB peer, whose loop dereferences it here ([h.fsm], line 684). *)
Definition handleStateChange (now : Time) (nextState : FSMState) (peer : Peer)
  : result Peer :=
  if isGlobalRib peer then Fatal "nil pointer dereference: *FSMHandler"
  else
    let oldState := peerState peer in
    let peer := set_peerConfig
                  (set_CommonState
                     (set_State (wrap32 nextState) (CommonState (peerConfig peer)))
                     (peerConfig peer)) peer in
    let peer := set_fsm (StateChange nextState (fsm peer)) peer in
    let peer :=
      if decide (oldState = BGP_FSM_ESTABLISHED) then
        let peer := countFlop now peer in
        let peer := dropAllIn peer in
        sendToSiblings
          (mkPeerMsg PEER_MSG_PEER_DOWN (Data_PeerInfo (peerInfo peer))) peer
      else peer in
    let peer :=
      if decide (adminState (fsm peer) = ADMIN_STATE_DOWN)
      then set_fsm (set_fsm_CommonState zeroCommonState (fsm peer)) peer
      else peer in
    Ok peer.

(** Lines 655-701: an event of [incoming].  After a state change the inner
    loop ends and the next turn of the outer loop begins, at time [now']. *)
Definition handleFsmMsg (now now' : Time) (e : fsmMsg) (peer : Peer)
  : result Peer :=
  match MsgType e with
  | FSM_MSG_STATE_CHANGE =>
      match MsgData e with
      | Fsm_State nextState =>
          peer ← handleStateChange now nextState peer; loopEntry now' peer
      | _ => Fatal "interface conversion: not bgp.FSMState"
      end
  | FSM_MSG_BGP_MESSAGE =>
      match MsgData e with
      | Fsm_Error m =>
          Ok (push_outgoing
                (NewBGPNotificationMessage (TypeCode m) (SubTypeCode m) (err_Data m))
                peer)
      | Fsm_Message m => handleBGPmessage now m peer
      | _ => Fatal "unknonw msg type"
      end
  | FSM_MSG_UNKNOWN _ => Ok peer
  end.

(** *** Introspection (peer.go, lines 720-824) *)

(** Lines 758-767: the path counts, in [uint32] arithmetic, in the order
    (advertized, received, accepted); lines 816-818 report them. *)
Definition MarshalJSON_counts (peer : Peer) : Z * Z * Z :=
  if decide (fsm_state (fsm peer) = BGP_FSM_ESTABLISHED) then
    foldl (fun (acc : Z * Z * Z) rf =>
             let '(advertized, received, accepted) := acc in
             (wrap32 (advertized + wrap32 (GetOutCount rf (adjRib peer))),
              wrap32 (received + wrap32 (GetInCount rf (adjRib peer))),
              wrap32 (accepted + wrap32 (GetInCount rf (adjRib peer)))))
          (0, 0, 0) (configuredRFlist peer)
  else (0, 0, 0).

Definition Advertized (peer : Peer) : Z := (MarshalJSON_counts peer).1.1.
Definition Received (peer : Peer) : Z := (MarshalJSON_counts peer).1.2.
Definition Accepted (peer : Peer) : Z := (MarshalJSON_counts peer).2.
(** Line 819. *)
Definition OutQ (peer : Peer) : Z := Z.of_nat (length (outgoing peer)).

(** *** Creation (peer.go, lines 76-113) *)

(** Up to the start of the loop.  [now] is the clock at line 94.  The two
    default verdicts are never assigned in peer.go: they keep the Go zero
    value. *)
Definition NewPeer (now : Time) (g : Global) (peer : Neighbor)
  (peerList : list serverMsgDataPeer) (isGlobalRib0 : bool)
  (policyMap : gmap string Policy) : Peer :=
  let siblings0 := foldl (fun acc s => <[IP_String (address s) := s]> acc)
                         ∅ peerList in
  let fsmConfig :=
    set_CommonState
      (set_Downtime (Unix now) (set_State BGP_FSM_IDLE (CommonState peer))) peer in
  let rfMap0 := foldl (fun acc rf => <[bgp_GetRouteFamily (AfiSafiName rf) := true]> acc)
                      ∅ (AfiSafiList peer) in
  let info := mkPeerInfo (PeerAs peer) [] (RouterId g) (NeighborAddress peer) in
  let rfList := map (fun rf => bgp_GetRouteFamily (AfiSafiName rf)) (AfiSafiList peer) in
  let p := mkPeer g peer (NewFSM fsmConfig) (NewAdjRib rfList)
             (NewTableManager (IP_String (NeighborAddress peer)) rfList)
             isGlobalRib0 rfMap0 ∅ info siblings0 [] [] 
             DEFAULT_POLICY_TYPE_ACCEPT_ROUTE []
             DEFAULT_POLICY_TYPE_ACCEPT_ROUTE [] in
  setPolicy policyMap p.

(** *** The session as a transition system *)

(** What the inner loop selects among, and what the FSM driver does beside
    the loop: it rewrites the fields of the FSM it owns and takes messages
    from the front of [outgoing]. *)
Inductive event : Type :=
  | Ev_fsm (now now' : Time) (e : fsmMsg)
  | Ev_server (m : serverMsg)
  | Ev_peer (m : peerMsg)
  | Ev_driver (f : FSM -> FSM) (drained : nat).

Definition step (ev : event) (peer : Peer) : result Peer :=
  match ev with
  | Ev_fsm now now' e => handleFsmMsg now now' e peer
  | Ev_server m => handleServerMsg m peer
  | Ev_peer m => handlePeerMsg m peer
  | Ev_driver f drained =>
      Ok (set_outgoing (drop drained (outgoing peer)) (set_fsm (f (fsm peer)) peer))
  end.

(** The states of a session: the loop is entered on the new peer, then events
    are handled one at a time. *)
Inductive reachable : Peer -> Prop :=
  | reachable_new now now' g c peerList isGlobalRib0 policyMap peer :
      loopEntry now' (NewPeer now g c peerList isGlobalRib0 policyMap) = Ok peer ->
      reachable peer
  | reachable_step ev peer peer' :
      reachable peer -> step ev peer = Ok peer' -> reachable peer'.

(** *** The connect loop (peer.go, lines 565-613) *)

(** Lines 566-569: the period of the ticker, in seconds.  [connectRetry] is
    [int(peer.fsm.peerConfig.Timers.ConnectRetry)]. *)
Definition connectTick (connectRetry : Z) : Z :=
  if decide (connectRetry < MIN_CONNECT_RETRY) then MIN_CONNECT_RETRY
  else connectRetry.

(** [time.Duration(n) * time.Second]: a product of signed 64-bit integers. *)
Definition seconds (n : Z) : Duration := wrap64s (n * Second).

(** Lines 571 and 610: [time.NewTicker] stops the program on a period that is
    not positive. *)
Definition newTicker (connectRetry : Z) : result Duration :=
  let d := seconds (connectTick connectRetry) in
  if decide (d <= 0) then Fatal "non-positive interval for NewTicker" else Ok d.

(** Line 585: the timeout of a dial. *)
Definition dialTimeout : Duration := seconds (MIN_CONNECT_RETRY - 1).

(** *** Notions the properties are stated with *)

(** A policy that does not match the path. *)
Definition noMatch (path : Path) (pol : Policy) : Prop :=
  (Apply pol path).1.1 = false.

Definition sumZ (l : list Z) : Z := foldr Z.add 0 l.

(** The sum of the counts of the configured families, as the list has them. *)
Definition totalIn (peer : Peer) : Z :=
  sumZ (map (fun rf => GetInCount rf (adjRib peer)) (configuredRFlist peer)).
Definition totalOut (peer : Peer) : Z :=
  sumZ (map (fun rf => GetOutCount rf (adjRib peer)) (configuredRFlist peer)).

(** The families an OPEN advertises: those of the multiprotocol capabilities
    of its capability parameters. *)
Definition capabilityFamilies (c : ParameterCapabilityInterface)
  : list RouteFamily :=
  match c with
  | CapMultiProtocol afi safi => [AfiSafiToRouteFamily afi safi]
  | _ => []
  end.

Definition parameterFamilies (p : OptionParameterInterface) : list RouteFamily :=
  match p with
  | OptionParameterCapability caps => flat_map capabilityFamilies caps
  | OptionParameterUnknown _ _ => []
  end.

Definition advertisedFamilies (body : BGPOpen) : list RouteFamily :=
  flat_map parameterFamilies (OptParams body).

(** An OPEN as the decoder builds it: a capability whose code is the
    multiprotocol one is a [CapMultiProtocol], and the hold time is a
    [uint16]. *)
Definition decodedCapability (c : ParameterCapabilityInterface) : bool :=
  match c with
  | CapUnknown code _ => bool_decide (code <> BGP_CAP_MULTIPROTOCOL)
  | _ => true
  end.

Definition decodedParameter (p : OptionParameterInterface) : bool :=
  match p with
  | OptionParameterCapability caps => forallb decodedCapability caps
  | OptionParameterUnknown _ _ => true
  end.

Definition decodedOpen (body : BGPOpen) : bool :=
  forallb decodedParameter (OptParams body) &&
  bool_decide (0 <= open_HoldTime body < 2 ^ 16).

(** A received OPEN: the header says OPEN and the body is one. *)
Definition isOpen (m : BGPMessage) (body : BGPOpen) : Prop :=
  Header_Type m = BGP_MSG_OPEN /\ Body m = Body_Open body.

(** [h] is the minimum of [a] and [b] in the order of float64: it is one of
    them and it is below both. *)
Definition float64_is_min (h a b : float64) : Prop :=
  (h = a \/ h = b) /\ SFleb h a = true /\ SFleb h b = true.

(** [P] holds of the [k] integers from [n] on. *)
Fixpoint forallFrom (P : Z -> bool) (k : nat) (n : Z) : bool :=
  match k with
  | O => true
  | S k' => P n && forallFrom P k' (n + 1)
  end.

Definition is_nan (x : float64) : bool :=
  match x with
  | S754_nan => true
  | _ => false
  end.

(** The messages a trace puts on the mailbox [ch], oldest first. *)
Definition sentOn (ch : N) (tr : list effect) : list peerMsg :=
  omap (fun e => match e with
                 | SendPeerMsg ch' pm => if decide (ch' = ch) then Some pm else None
                 | _ => None
                 end) tr.

(** The families of a peer: the negotiated ones and the configured names. *)
Definition families (peer : Peer) : gmap Z bool * list AfiSafi :=
  (rfMap peer, AfiSafiList (peerConfig peer)).

(** The negotiated families are configured ones. *)
Definition negotiatedAreConfigured (peer : Peer) : Prop :=
  forall f, is_Some (rfMap peer !! f) -> f ∈ configuredRFlist peer.

(** An UPDATE as [sendMessages] takes it: the header says UPDATE and the body
    is one. *)
Definition isUpdateMsg (m : BGPMessage) : bool :=
  bool_decide (Header_Type m = BGP_MSG_UPDATE) &&
  match Body m with
  | Body_Update _ => true
  | _ => false
  end.

(** The form in which an UPDATE is queued: its AS paths are rewritten to two
    octets unless the remote advertised the 4-octet AS-number capability. *)
Definition queuedForm (peer : Peer) (m : BGPMessage) : BGPMessage :=
  match capMap peer !! BGP_CAP_FOUR_OCTET_AS_NUMBER, Body m with
  | None, Body_Update body =>
      mkBGPMessage (Header_Type m) (Body_Update (UpdatePathAttrs2ByteAs body))
  | _, _ => m
  end.

(** A path that passes the egress check: its family is negotiated and its
    nexthop is not the neighbor. *)
Definition egressOk (peer : Peer) (p : Path) : bool :=
  bool_decide (is_Some (rfMap peer !! GetRouteFamily p)) &&
  negb (IP_Equal (NeighborAddress (peerConfig peer)) (GetNexthop p)).

(** The PATH message of a path list, and one send of a message per entry of
    the sibling directory. *)
Definition pathMsg (pathList : list Path) : peerMsg :=
  mkPeerMsg PEER_MSG_PATH (Data_PathList pathList).

Definition toSiblings (pm : peerMsg) (peer : Peer) : list effect :=
  map (fun s => SendPeerMsg (peerMsgCh s.2) pm) (map_to_list (siblings peer)).

(** [peer'] is [peer] but for the route data: the Adj-RIB, the shared table,
    the queue [outgoing] and the sends. *)
Definition routeDataOnly (peer peer' : Peer) : Prop :=
  exists a r o t,
    peer' = set_trace t (set_outgoing o (set_rib r (set_adjRib a peer))).

(** What [outgoing] may hold while the recorded state is [st]: NOTIFICATIONs,
    and UPDATEs in ESTABLISHED. *)
Definition queuedOk (st : Z) (m : BGPMessage) : Prop :=
  Header_Type m = BGP_MSG_NOTIFICATION \/
  (st = BGP_FSM_ESTABLISHED /\ Header_Type m = BGP_MSG_UPDATE).

Definition outgoingOk (peer : Peer) : Prop :=
  Forall (queuedOk (peerState peer)) (outgoing peer).

(** From [peer] to [peer'] the recorded state is kept and [outgoing] got
    messages at its end, all of them allowed in that state. *)
Definition queueGrows (peer peer' : Peer) : Prop :=
  peerState peer' = peerState peer /\
  exists new, outgoing peer' = outgoing peer ++ new /\
              Forall (queuedOk (peerState peer)) new.

(** What a peer is created with and no handler writes. *)
Definition identity (peer : Peer)
  : Global * bool * IP * Z * list AfiSafi * Timers * bool * bool * ApplyPolicy :=
  let c := peerConfig peer in
  (globalConfig peer, isGlobalRib peer, NeighborAddress c, PeerAs c,
   AfiSafiList c, NeighborTimers c, PassiveMode c, RouteServerClient c,
   NeighborApplyPolicy c).

(** A send to the mailbox of a sibling. *)
Definition isPeerSend (e : effect) : Prop :=
  exists ch pm, e = SendPeerMsg ch pm.

(** Messages put at the end of [outgoing] by [sendMessages]: UPDATEs, and
    none outside ESTABLISHED. *)
Definition updatesFor (st : Z) (sent : list BGPMessage) : Prop :=
  Forall (fun m => Header_Type m = BGP_MSG_UPDATE) sent /\
  (st <> BGP_FSM_ESTABLISHED -> sent = []).

(** From [peer] to [peer'] the recorded state is kept and [sendMessages]
    put messages at the end of [outgoing]. *)
Definition updatesAppended (peer peer' : Peer) : Prop :=
  peerState peer' = peerState peer /\
  exists sent, outgoing peer' = outgoing peer ++ sent /\
               updatesFor (peerState peer) sent.

(** The PEER-DOWN message of a peer. *)
Definition peerDown (peer : Peer) : peerMsg :=
  mkPeerMsg PEER_MSG_PEER_DOWN (Data_PeerInfo (peerInfo peer)).

(** Unix seconds that [time.Unix] converts without overflow, and a clock
    reading that a [time.Time] can hold. *)
Definition unixInRange (sec : Z) : Prop :=
  - 2 ^ 63 <= sec + unixToInternal < 2 ^ 63.

Definition representable (t : Time) : Prop := unixInRange (t / Second).

(** A path the policy stage decides on without the default verdict: no policy
    is configured, or the path is a withdrawal, or a policy of the chain
    applied. *)
Definition noDefaultNeeded (policies : list Policy) (p : Path) : Prop :=
  policies = [] \/ IsWithdraw p = true \/ (applyPolicies policies p).1 = true.

End PeerCore.

(** ** A small speaker to run the handlers on

    A route server with one neighbor, 192.0.2.1, configured for IPv4 and IPv6
    unicast.  The collaborators are the simplest ones that fit their
    interface: an UPDATE body is the list of paths it carries, one UPDATE is
    built per path, the validator refuses a body that carries a path of a
    family outside [rfMap] (UPDATE message error, subcode 11), and the shared
    table hands back the paths it is given. *)

Module Scenario.

Definition ipv4_unicast : RouteFamily := 65537.
Definition ipv6_unicast : RouteFamily := 131073.

Definition validate (body : list Path) (rfMap0 : gmap Z bool)
  : option MessageError :=
  if forallb (fun p => bool_decide (is_Some (rfMap0 !! GetRouteFamily p))) body
  then None
  else Some (mkMessageError 3 11 []).

#[global] Instance collaborators : Collaborators (list Path) unit := {|
  bgp_GetRouteFamily name :=
    if decide (name = "ipv4-unicast"%string) then ipv4_unicast
    else if decide (name = "ipv6-unicast"%string) then ipv6_unicast
    else 0;
  AfiSafiToRouteFamily afi safi := Z.lor (Z.shiftl afi 16) safi;
  ValidateUpdateMsg := validate;
  UpdatePathAttrs4ByteAs body := body;
  UpdatePathAttrs2ByteAs body := body;
  ToPathList m info :=
    match Body m with
    | Body_Update body => body
    | _ => []
    end;
  CreateUpdateMsgFromPaths pathList :=
    map (fun p => mkBGPMessage BGP_MSG_UPDATE (Body_Update [p])) pathList;
  CloneAndUpdatePathAttrs pathList g c := pathList;
  NewTableManager owner rfList := tt;
  ProcessPaths t pathList := (t, pathList);
  DeletePathsforPeer t info rf := (t, []);
  rib_GetPathList t rf := [];
  rib_hasTable t rf := false;
  IP_String ip := String.concat "." (map (fun b => pretty b) ip)
|}.

Definition neighborAddress : IP := [192; 0; 2; 1].
Definition siblingAddress : IP := [192; 0; 2; 2].

Definition hold90 : float64 := float64_of_uint16 90.

Definition global : Global := mkGlobal 65100 [192; 168; 0; 7].

Definition neighbor : Neighbor :=
  mkNeighbor neighborAddress 65000 []
    [mkAfiSafi "ipv4-unicast"; mkAfiSafi "ipv6-unicast"]
    (mkTimers (S754_zero false) hold90 (S754_zero false))
    false true (mkApplyPolicy [] []) zeroCommonState.

Definition sibling : serverMsgDataPeer := mkServerMsgDataPeer 7 siblingAddress.

(** The clock, in nanoseconds: the peer is created at second 100. *)
Definition t0 : Time := 100 * Second.

(** The peer once its loop has started. *)
Definition created : Peer (BGPUpdate := list Path) (TableManager := unit) :=
  NewPeer t0 global neighbor [sibling] false ∅.

(** The remote OPEN: hold time 30, IPv4 unicast and route refresh. *)
Definition openBody : BGPOpen :=
  mkBGPOpen 4 65000 30 [192; 0; 2; 1]
    [OptionParameterCapability
       [CapMultiProtocol 1 1; CapRouteRefresh; CapFourOctetASNumber 65000]].

Definition openMsg : BGPMessage (list Path) :=
  mkBGPMessage BGP_MSG_OPEN (Body_Open openBody).

Definition stateChange (s : FSMState) : fsmMsg (BGPUpdate := list Path) :=
  mkFsmMsg FSM_MSG_STATE_CHANGE (Fsm_State s).

(** A path of a third party whose nexthop is the neighbor itself. *)
Definition thirdParty : PeerInfo := mkPeerInfo 65002 [192; 0; 2; 2] [192; 168; 0; 7] siblingAddress.

Definition pathVia (nexthop : IP) (prefix : string) (withdraw : bool) : Path :=
  mkPath ipv4_unicast prefix [] nexthop withdraw thirdParty.

Definition pathToNeighbor : Path := pathVia neighborAddress "10.7.0.0/24" false.
Definition pathElsewhere : Path := pathVia [192; 0; 2; 9] "10.8.0.0/24" false.

(** Policies of the three kinds. *)
Definition rejectAll : Policy :=
  mkPolicy "reject-all" (fun p => (true, ROUTE_TYPE_REJECT, p)).
Definition acceptAll : Policy :=
  mkPolicy "accept-all" (fun p => (true, ROUTE_TYPE_ACCEPT, p)).
Definition matchNone : Policy :=
  mkPolicy "match-none" (fun p => (false, ROUTE_TYPE_NONE, p)).

(** The session up to ESTABLISHED: the loop starts, the FSM driver reports
    ACTIVE and OPENSENT, hands over the remote OPEN, then reports OPENCONFIRM
    and, at second 110, ESTABLISHED. *)
Definition sec (n : Z) : Time := n * Second.

Definition must (r : result (Peer (BGPUpdate := list Path) (TableManager := unit)))
  : Peer :=
  match r with
  | Ok p => p
  | Fatal _ => created
  end.

Definition bringUp : list (event (BGPUpdate := list Path)) :=
  [Ev_fsm (sec 101) (sec 101) (stateChange BGP_FSM_ACTIVE);
   Ev_fsm (sec 102) (sec 102) (stateChange BGP_FSM_OPENSENT);
   Ev_fsm (sec 103) (sec 103) (mkFsmMsg FSM_MSG_BGP_MESSAGE (Fsm_Message openMsg));
   Ev_fsm (sec 103) (sec 103) (stateChange BGP_FSM_OPENCONFIRM);
   Ev_fsm (sec 110) (sec 110) (stateChange BGP_FSM_ESTABLISHED)].

Definition started : Peer := must (loopEntry t0 created).
Definition active : Peer := must (forM step (take 1 bringUp) started).
Definition established : Peer := must (forM step bringUp started).

(** The same session after the operator disabled the neighbor: the FSM
    driver has set the administrative state to DOWN and is about to report the
    fall to IDLE. *)
Definition disabled : Peer :=
  must (step (Ev_driver (fun f => mkFSM (fsm_peerConfig f) (fsm_state f)
                                    ADMIN_STATE_DOWN (adminStateCh f)
                                    (negotiatedHoldTime f) (idleHoldTime f)
                                    (fsm_localAddr f)) 0) established).

Definition shutdownRequest : RestRequest :=
  mkRestRequest REQ_NEIGHBOR_SHUTDOWN ipv4_unicast 1.

Definition routeRefresh : BGPMessage (list Path) :=
  mkBGPMessage BGP_MSG_ROUTE_REFRESH (Body_RouteRefresh 1 1).

(** An UPDATE that carries an IPv6 path, which the session did not negotiate. *)
Definition badBody : list Path :=
  [mkPath ipv6_unicast "2001:db8::/32" [] [192; 0; 2; 9] false thirdParty].

Definition badUpdate : BGPMessage (list Path) :=
  mkBGPMessage BGP_MSG_UPDATE (Body_Update badBody).

Definition malformed : MessageError := mkMessageError 3 11 [].

(** More inputs: the session just before ESTABLISHED and right after the
    OPEN, a path list of a sibling, UPDATEs built from it, a ROUTE-REFRESH for
    IPv6 unicast, an UPDATE that passes validation, a second sibling and the
    requests of the operator. *)
Definition opened : Peer := must (forM step (take 4 bringUp) started).

Definition afterOpen : Peer :=
  must (handleBGPmessage (sec 103) openMsg started).

Definition updates : list (BGPMessage (list Path)) :=
  CreateUpdateMsgFromPaths [pathElsewhere].

Definition routeRefresh6 : BGPMessage (list Path) :=
  mkBGPMessage BGP_MSG_ROUTE_REFRESH (Body_RouteRefresh 2 1).

Definition goodBody : list Path := [pathElsewhere].

Definition goodUpdate : BGPMessage (list Path) :=
  mkBGPMessage BGP_MSG_UPDATE (Body_Update goodBody).

Definition pathMessage : peerMsg :=
  mkPeerMsg PEER_MSG_PATH (Data_PathList [pathElsewhere]).

Definition afterPath : Peer := must (handlePeerMsg pathMessage established).

Definition afterShutdown : Peer := must (handleREST shutdownRequest active).

Definition disableRequest : RestRequest :=
  mkRestRequest REQ_NEIGHBOR_DISABLE ipv4_unicast 2.

Definition sibling2 : serverMsgDataPeer :=
  mkServerMsgDataPeer 8 [192; 0; 2; 3].

Definition peerAdded : serverMsg :=
  mkServerMsg SRV_MSG_PEER_ADDED (Srv_Peer sibling2).

Definition afterAdded : Peer := must (handleServerMsg peerAdded established).

Definition goDown : fsmMsg (BGPUpdate := list Path) := stateChange BGP_FSM_IDLE.

Definition afterDown : Peer :=
  must (handleFsmMsg (sec 115) (sec 115) goDown established).

(** The established session with a recorded uptime among the last
    [unixToInternal] seconds of an [int64]. *)
Definition farUptime : Peer :=
  must (step (Ev_driver
                (fun f => set_fsm_CommonState
                            (set_Uptime (2 ^ 63 - 1) (CommonState (fsm_peerConfig f)))
                            f) 0) established).

(** A sibling announces a path, then the operator asks for a shutdown. *)
Definition shutdownMessage : serverMsg :=
  mkServerMsg SRV_MSG_API (Srv_Rest shutdownRequest).

Definition announceThenShutdown : list (event (BGPUpdate := list Path)) :=
  [Ev_peer pathMessage; Ev_server shutdownMessage].

(** Before ESTABLISHED: the path is recorded for the neighbor and the
    NOTIFICATION waits; then the FSM driver reports ESTABLISHED. *)
Definition pending : Peer := must (forM step announceThenShutdown opened).

Definition reentered : Peer :=
  must (handleFsmMsg (sec 110) (sec 110) (stateChange BGP_FSM_ESTABLISHED) pending).

(** In ESTABLISHED: the UPDATE of the path and the NOTIFICATION wait; then
    the FSM driver reports IDLE. *)
Definition busy : Peer :=
  must (forM step (bringUp ++ announceThenShutdown) started).

Definition afterBusy : Peer :=
  must (handleFsmMsg (sec 115) (sec 115) goDown busy).

(** The established session with an import chain whose second policy
    applies. *)
Definition filtered : Peer :=
  set_importPolicies [matchNone; acceptAll] established.

End Scenario.

(** * Properties *)

(** ** Policy application *)

Lemma applyPolicies_skip (pre rest : list Policy) (path : Path) :
  Forall (noMatch path) pre ->
  applyPolicies (pre ++ rest) path = applyPolicies rest path.
Proof.
  induction 1 as [|pol pre Hpol _ IH]; [reflexivity|].
  simpl. unfold noMatch in Hpol.
  destruct (Apply pol path) as [[matched action] newpath].
  simpl in Hpol. subst matched. exact IH.
Qed.

(** C2.  When the policies [pre] at the head of a chain do not match the
    path: if they are the whole chain, the answer is "not applied" with the
    original path; if the next policy [pol] matches, the answer is its outcome
    (applied, and no path for REJECT or its new path otherwise), whatever the
    policies [post] that follow it. *)
Theorem applyPolicies_first_match (pre : list Policy) (path : Path) :
  Forall (noMatch path) pre ->
  applyPolicies pre path = (false, Some path) /\
  forall pol post action newPath,
    Apply pol path = (true, action, newPath) ->
    applyPolicies (pre ++ pol :: post) path =
      (true, if decide (action = ROUTE_TYPE_REJECT) then None else Some newPath).
Proof.
  intros Hpre. split.
  - rewrite <- (app_nil_r pre) at 1. rewrite applyPolicies_skip by assumption.
    reflexivity.
  - intros pol post action newPath Hpol.
    rewrite applyPolicies_skip by assumption.
    simpl. rewrite Hpol. destruct (decide (action = ROUTE_TYPE_REJECT)); reflexivity.
Qed.

Lemma applyPolicies_first_match_witness :
  Forall (noMatch Scenario.pathElsewhere) [Scenario.matchNone] /\
  (applyPolicies [Scenario.matchNone] Scenario.pathElsewhere
     = (false, Some Scenario.pathElsewhere) /\
   forall pol post action newPath,
     Apply pol Scenario.pathElsewhere = (true, action, newPath) ->
     applyPolicies ([Scenario.matchNone] ++ pol :: post) Scenario.pathElsewhere =
       (true, if decide (action = ROUTE_TYPE_REJECT) then None else Some newPath)).
Proof.
  assert (H : Forall (noMatch Scenario.pathElsewhere) [Scenario.matchNone]).
  { repeat constructor. }
  split; [exact H | exact (applyPolicies_first_match _ _ H)].
Defined.

(** Runs of the chain on the three kinds of policy. *)
Example applyPolicies_reject_is_terminal :
  applyPolicies [Scenario.matchNone; Scenario.rejectAll; Scenario.acceptAll]
    Scenario.pathElsewhere = (true, None).
Proof. reflexivity. Qed.

Example applyPolicies_accept :
  applyPolicies [Scenario.matchNone; Scenario.acceptAll; Scenario.rejectAll]
    Scenario.pathElsewhere = (true, Some Scenario.pathElsewhere).
Proof. reflexivity. Qed.

(** ** The policy stage of import and export *)

Lemma foldl_app_singletons {A : Type} (acc l : list A) :
  foldl (fun paths p => paths ++ [p]) acc l = acc ++ l.
Proof.
  revert acc. induction l as [|x l IH]; intros acc; simpl.
  - by rewrite app_nil_r.
  - rewrite IH, <- app_assoc. reflexivity.
Qed.

Lemma foldl_pointwise {A B : Type} (f g : A -> B -> A) (acc : A) (l : list B) :
  (forall a b, f a b = g a b) -> foldl f acc l = foldl g acc l.
Proof.
  intros Hfg. revert acc. induction l as [|x l IH]; intros acc; simpl.
  - reflexivity.
  - rewrite Hfg. apply IH.
Qed.

Lemma importPath_no_policy (d : DefaultPolicyType) (p : Path) :
  importPath [] d p = [p].
Proof. unfold importPath. destruct (IsWithdraw p); reflexivity. Qed.

Lemma exportPath_no_policy (d : DefaultPolicyType) (p : Path) :
  exportPath [] d p = [p].
Proof. unfold exportPath. destruct (IsWithdraw p); reflexivity. Qed.

(** With an empty chain the loop hands on the list it is given. *)
Lemma importPaths_no_policy (d : DefaultPolicyType) (pList : list Path) :
  importPaths [] d pList = pList.
Proof.
  unfold importPaths.
  rewrite (foldl_pointwise _ (fun paths p => paths ++ [p]))
    by (intros; by rewrite importPath_no_policy).
  apply foldl_app_singletons.
Qed.

Lemma exportPaths_no_policy (d : DefaultPolicyType) (pList : list Path) :
  exportPaths [] d pList = pList.
Proof.
  unfold exportPaths.
  rewrite (foldl_pointwise _ (fun paths p => paths ++ [p]))
    by (intros; by rewrite exportPath_no_policy).
  apply foldl_app_singletons.
Qed.

(** The default verdict has no say on a path that is decided without it. *)
Lemma importPath_noDefaultNeeded (policies : list Policy)
  (d1 d2 : DefaultPolicyType) (p : Path) :
  noDefaultNeeded policies p ->
  importPath policies d1 p = importPath policies d2 p.
Proof.
  intros [->|[Hw|Happlied]].
  - by rewrite !importPath_no_policy.
  - unfold importPath. by rewrite Hw.
  - unfold importPath. destruct (IsWithdraw p); cbn [negb]; [done|].
    destruct (decide _); [|done].
    by destruct (applyPolicies policies p) as [[] [?|]].
Qed.

Lemma exportPath_noDefaultNeeded (policies : list Policy)
  (d1 d2 : DefaultPolicyType) (p : Path) :
  noDefaultNeeded policies p ->
  exportPath policies d1 p = exportPath policies d2 p.
Proof.
  intros [->|[Hw|Happlied]].
  - by rewrite !exportPath_no_policy.
  - unfold exportPath. by rewrite Hw.
  - unfold exportPath. destruct (IsWithdraw p); [done|].
    destruct (decide _); [|done].
    by destruct (applyPolicies policies p) as [[] [?|]].
Qed.

Lemma foldl_app_pointwise {A : Type} (f g : A -> list A) (acc l : list A) :
  Forall (fun x => f x = g x) l ->
  foldl (fun paths p => paths ++ f p) acc l
    = foldl (fun paths p => paths ++ g p) acc l.
Proof.
  intros Hl. revert acc. induction Hl as [|x l Hx _ IH]; intros acc; simpl.
  - reflexivity.
  - rewrite Hx. apply IH.
Qed.

Lemma importPaths_noDefaultNeeded (policies : list Policy)
  (d1 d2 : DefaultPolicyType) (pList : list Path) :
  Forall (noDefaultNeeded policies) pList ->
  importPaths policies d1 pList = importPaths policies d2 pList.
Proof.
  intros Hall. unfold importPaths. apply foldl_app_pointwise.
  eapply Forall_impl; [exact Hall|].
  intros p. apply importPath_noDefaultNeeded.
Qed.

Lemma exportPaths_noDefaultNeeded (policies : list Policy)
  (d1 d2 : DefaultPolicyType) (pList : list Path) :
  Forall (noDefaultNeeded policies) pList ->
  exportPaths policies d1 pList = exportPaths policies d2 pList.
Proof.
  intros Hall. unfold exportPaths. apply foldl_app_pointwise.
  eapply Forall_impl; [exact Hall|].
  intros p. apply exportPath_noDefaultNeeded.
Qed.

(** With a chain that matches nothing the default verdict decides. *)
Example default_verdict_decides_when_nothing_matched :
  importPaths [Scenario.matchNone] DEFAULT_POLICY_TYPE_REJECT_ROUTE
    [Scenario.pathElsewhere] = [] /\
  importPaths [Scenario.matchNone] DEFAULT_POLICY_TYPE_ACCEPT_ROUTE
    [Scenario.pathElsewhere] = [Scenario.pathElsewhere] /\
  importPaths [] DEFAULT_POLICY_TYPE_REJECT_ROUTE
    [Scenario.pathElsewhere] = [Scenario.pathElsewhere].
Proof. repeat split. Qed.

(** ** The handlers *)

Section PeerProperties.

Context {BGPUpdate TableManager : Type} `{!Collaborators BGPUpdate TableManager}.

Local Abbreviation Peer' := (Peer (BGPUpdate := BGPUpdate) (TableManager := TableManager)).
Local Abbreviation BGPMessage' := (BGPMessage BGPUpdate).

Implicit Types (peer : Peer') (m : BGPMessage').

(** *** The default verdicts in import and export *)

Lemma forM_commute {A : Type} (f : Peer' -> Peer')
  (body : A -> Peer' -> result Peer') (l : list A) :
  (forall x peer, body x (f peer) = peer' ← body x peer; Ok (f peer')) ->
  forall peer, forM body l (f peer) = peer' ← forM body l peer; Ok (f peer').
Proof.
  intros Hbody. induction l as [|x l IH]; intros peer; cbn [forM]; [done|].
  rewrite Hbody. destruct (body x peer) as [peer1|why]; [apply IH|done].
Qed.

Lemma eta_defaultImportPolicy peer :
  set_defaultImportPolicy (defaultImportPolicy peer) peer = peer.
Proof. by destruct peer. Qed.

Lemma eta_defaultExportPolicy peer :
  set_defaultExportPolicy (defaultExportPolicy peer) peer = peer.
Proof. by destruct peer. Qed.

Lemma sendMessage_defaultImportPolicy (d : DefaultPolicyType) m peer :
  sendMessage m (set_defaultImportPolicy d peer) =
    peer' ← sendMessage m peer; Ok (set_defaultImportPolicy d peer').
Proof.
  unfold sendMessage, peerState.
  cbn [set_defaultImportPolicy peerConfig capMap].
  repeat case_decide; try done. by repeat case_match.
Qed.

Lemma sendMessage_defaultExportPolicy (d : DefaultPolicyType) m peer :
  sendMessage m (set_defaultExportPolicy d peer) =
    peer' ← sendMessage m peer; Ok (set_defaultExportPolicy d peer').
Proof.
  unfold sendMessage, peerState.
  cbn [set_defaultExportPolicy peerConfig capMap].
  repeat case_decide; try done. by repeat case_match.
Qed.

Lemma sendMessages_defaultImportPolicy (d : DefaultPolicyType)
  (msgs : list BGPMessage') peer :
  sendMessages msgs (set_defaultImportPolicy d peer) =
    peer' ← sendMessages msgs peer; Ok (set_defaultImportPolicy d peer').
Proof.
  apply (forM_commute (set_defaultImportPolicy d)).
  intros x q. apply sendMessage_defaultImportPolicy.
Qed.

Lemma sendMessages_defaultExportPolicy (d : DefaultPolicyType)
  (msgs : list BGPMessage') peer :
  sendMessages msgs (set_defaultExportPolicy d peer) =
    peer' ← sendMessages msgs peer; Ok (set_defaultExportPolicy d peer').
Proof.
  apply (forM_commute (set_defaultExportPolicy d)).
  intros x q. apply sendMessage_defaultExportPolicy.
Qed.

(** The export path reads the default export verdict in its policy loop and
    nowhere else. *)
Lemma sendUpdateMsgFromPaths_export_stage (d : DefaultPolicyType)
  (pList : list Path) peer :
  sendUpdateMsgFromPaths pList (set_defaultExportPolicy d peer) =
    let paths := exportPaths (exportPolicies peer) d
                   (CloneAndUpdatePathAttrs pList (globalConfig peer)
                      (peerConfig peer)) in
    let peer1 := set_adjRib (UpdateOut paths (adjRib peer)) peer in
    peer' ← sendMessages (CreateUpdateMsgFromPaths (egressPaths peer1 paths)) peer1;
    Ok (set_defaultExportPolicy d peer').
Proof.
  unfold sendUpdateMsgFromPaths. cbv zeta.
  rewrite <- sendMessages_defaultExportPolicy. reflexivity.
Qed.

Lemma sendUpdateMsgFromPaths_defaultImportPolicy (d : DefaultPolicyType)
  (pList : list Path) peer :
  sendUpdateMsgFromPaths pList (set_defaultImportPolicy d peer) =
    peer' ← sendUpdateMsgFromPaths pList peer;
    Ok (set_defaultImportPolicy d peer').
Proof.
  unfold sendUpdateMsgFromPaths. cbv zeta.
  rewrite <- sendMessages_defaultImportPolicy. reflexivity.
Qed.

(** The handler of a PATH message reads the default import verdict in its
    policy loop and nowhere else: the list that leaves the loop goes to the
    shared table of a route-server client or of the global RIB, and from
    there to the siblings (global RIB) or to the export path. *)
Lemma handlePeerMsg_import_stage (d : DefaultPolicyType) (pList : list Path)
  peer :
  handlePeerMsg (pathMsg pList) (set_defaultImportPolicy d peer) =
    let paths := importPaths (importPolicies peer) d pList in
    let processed := ProcessPaths (rib peer) paths in
    peer' ← (if isGlobalRib peer
             then Ok (sendPathsToSiblings processed.2
                        (set_rib processed.1 peer))
             else if RouteServerClient (peerConfig peer)
             then sendUpdateMsgFromPaths processed.2 (set_rib processed.1 peer)
             else sendUpdateMsgFromPaths paths peer);
    Ok (set_defaultImportPolicy d peer').
Proof.
  unfold handlePeerMsg, pathMsg. cbn [msgType msgData].
  rewrite decide_True by done.
  cbn [set_defaultImportPolicy importPolicies defaultImportPolicy peerConfig
       isGlobalRib rib]. cbv zeta.
  destruct (ProcessPaths (rib peer) _) as [rib' paths'].
  destruct (isGlobalRib peer) eqn:Hglobal;
    destruct (RouteServerClient (peerConfig peer)) eqn:Hclient;
    cbn [orb fst snd];
    match goal with
    | |- context [isGlobalRib ?q] => change (isGlobalRib q) with (isGlobalRib peer)
    end;
    rewrite Hglobal.
  - unfold sendPathsToSiblings, sendToSiblings, emit. by case_decide.
  - unfold sendPathsToSiblings, sendToSiblings, emit. by case_decide.
  - rewrite <- sendUpdateMsgFromPaths_defaultImportPolicy. reflexivity.
  - rewrite <- sendUpdateMsgFromPaths_defaultImportPolicy. reflexivity.
Qed.

(** C9.  Of the two handlers.  With an empty import chain the handler of a
    PATH message hands on the list it received, every path unchanged,
    whatever the default import verdict [d]: the list goes to the shared
    table and the siblings, or to the export path.  With an empty export
    chain the export path records and egress-filters the list it is given
    (after the rewrite of the path attributes), whatever the default export
    verdict.  And a default verdict is consulted only for a path that is not
    a withdrawal, met by a chain that is not empty and of which no policy
    applied: when no path of the list is such a path, the handler does the
    same under every default verdict. *)
Theorem empty_chain_ignores_default_verdict (d : DefaultPolicyType)
  (pList : list Path) peer :
  (importPolicies peer = [] ->
   handlePeerMsg (pathMsg pList) (set_defaultImportPolicy d peer) =
     let processed := ProcessPaths (rib peer) pList in
     peer' ← (if isGlobalRib peer
              then Ok (sendPathsToSiblings processed.2
                         (set_rib processed.1 peer))
              else if RouteServerClient (peerConfig peer)
              then sendUpdateMsgFromPaths processed.2 (set_rib processed.1 peer)
              else sendUpdateMsgFromPaths pList peer);
     Ok (set_defaultImportPolicy d peer')) /\
  (exportPolicies peer = [] ->
   sendUpdateMsgFromPaths pList (set_defaultExportPolicy d peer) =
     let paths := CloneAndUpdatePathAttrs pList (globalConfig peer)
                    (peerConfig peer) in
     let peer1 := set_adjRib (UpdateOut paths (adjRib peer)) peer in
     peer' ← sendMessages (CreateUpdateMsgFromPaths (egressPaths peer1 paths)) peer1;
     Ok (set_defaultExportPolicy d peer')) /\
  (Forall (noDefaultNeeded (importPolicies peer)) pList ->
   handlePeerMsg (pathMsg pList) (set_defaultImportPolicy d peer) =
     peer' ← handlePeerMsg (pathMsg pList) peer;
     Ok (set_defaultImportPolicy d peer')) /\
  (Forall (noDefaultNeeded (exportPolicies peer))
     (CloneAndUpdatePathAttrs pList (globalConfig peer) (peerConfig peer)) ->
   sendUpdateMsgFromPaths pList (set_defaultExportPolicy d peer) =
     peer' ← sendUpdateMsgFromPaths pList peer;
     Ok (set_defaultExportPolicy d peer')).
Proof.
  split; [|split; [|split]].
  - intros Hchain. rewrite handlePeerMsg_import_stage, Hchain.
    by rewrite importPaths_no_policy.
  - intros Hchain. rewrite sendUpdateMsgFromPaths_export_stage, Hchain.
    by rewrite exportPaths_no_policy.
  - intros Hall.
    pose proof (handlePeerMsg_import_stage (defaultImportPolicy peer) pList peer)
      as Hsame.
    rewrite eta_defaultImportPolicy in Hsame.
    rewrite Hsame, handlePeerMsg_import_stage.
    rewrite (importPaths_noDefaultNeeded _ d (defaultImportPolicy peer) _ Hall).
    cbv zeta. unfold mbind, result_bind. by repeat case_match.
  - intros Hall.
    pose proof (sendUpdateMsgFromPaths_export_stage (defaultExportPolicy peer)
                  pList peer) as Hsame.
    rewrite eta_defaultExportPolicy in Hsame.
    rewrite Hsame, sendUpdateMsgFromPaths_export_stage.
    rewrite (exportPaths_noDefaultNeeded _ d (defaultExportPolicy peer) _ Hall).
    cbv zeta. unfold mbind, result_bind. by repeat case_match.
Qed.

(** *** Outbound sending *)

Lemma sendMessage_not_established m peer :
  peerState peer <> BGP_FSM_ESTABLISHED -> sendMessage m peer = Ok peer.
Proof. intros Hst. unfold sendMessage. by rewrite decide_True. Qed.

Lemma sendMessages_not_established (msgs : list BGPMessage') peer :
  peerState peer <> BGP_FSM_ESTABLISHED -> sendMessages msgs peer = Ok peer.
Proof.
  intros Hst. unfold sendMessages.
  induction msgs as [|m msgs IH]; simpl; [reflexivity|].
  rewrite sendMessage_not_established by assumption. exact IH.
Qed.

(** C4, as amended.  The gate of [sendMessages] holds for the UPDATEs that go
    through it: in a state other than ESTABLISHED every message it is given is
    dropped, nothing is queued and the peer is unchanged.  The NOTIFICATIONs
    of the session do not go through it: an administrative shutdown or reset,
    the error of the decoder and the kill signal queue theirs on [outgoing]
    in every state. *)
Theorem updates_gated_notifications_not :
  (forall (msgs : list BGPMessage') peer,
     peerState peer <> BGP_FSM_ESTABLISHED -> sendMessages msgs peer = Ok peer) /\
  (forall req peer,
     RequestType req = REQ_NEIGHBOR_SHUTDOWN ->
     exists peer', handleREST req peer = Ok peer' /\
       outgoing peer' = outgoing peer ++
         [NewBGPNotificationMessage BGP_ERROR_CEASE
            BGP_ERROR_SUB_ADMINISTRATIVE_SHUTDOWN []]) /\
  (forall req peer,
     RequestType req = REQ_NEIGHBOR_RESET ->
     exists peer', handleREST req peer = Ok peer' /\
       outgoing peer' = outgoing peer ++
         [NewBGPNotificationMessage BGP_ERROR_CEASE
            BGP_ERROR_SUB_ADMINISTRATIVE_RESET []]) /\
  (forall now now' err peer,
     exists peer',
       handleFsmMsg now now' (mkFsmMsg FSM_MSG_BGP_MESSAGE (Fsm_Error err)) peer
         = Ok peer' /\
       outgoing peer' = outgoing peer ++
         [NewBGPNotificationMessage (TypeCode err) (SubTypeCode err) (err_Data err)]) /\
  (forall peer,
     outgoing (handleDying peer) = outgoing peer ++
       [NewBGPNotificationMessage BGP_ERROR_CEASE BGP_ERROR_SUB_PEER_DECONFIGURED []]).
Proof.
  split; [exact sendMessages_not_established|].
  split; [|split; [|split]].
  - intros req peer Hreq. unfold handleREST. rewrite Hreq. simpl.
    eexists. split; reflexivity.
  - intros req peer Hreq. unfold handleREST. rewrite Hreq. simpl.
    eexists. split; reflexivity.
  - intros now now' err peer. simpl. eexists. split; reflexivity.
  - intros peer. reflexivity.
Qed.

(** *** Introspection *)

Lemma wrap32_add_wrap32 (a b : Z) : wrap32 (wrap32 a + wrap32 b) = wrap32 (a + b).
Proof. unfold wrap32. by rewrite <- Zplus_mod. Qed.

Lemma wrap32_idemp (a : Z) : wrap32 (wrap32 a) = wrap32 a.
Proof. unfold wrap32. apply Zmod_mod. Qed.

Lemma wrap32_small (a : Z) : 0 <= a < 2 ^ 32 -> wrap32 a = a.
Proof. intros Ha. unfold wrap32. by apply Z.mod_small. Qed.

Lemma count_fold (adj : AdjRib) (rfs : list RouteFamily) (a r c : Z) :
  foldl (fun (acc : Z * Z * Z) rf =>
           let '(advertized, received, accepted) := acc in
           (wrap32 (advertized + wrap32 (GetOutCount rf adj)),
            wrap32 (received + wrap32 (GetInCount rf adj)),
            wrap32 (accepted + wrap32 (GetInCount rf adj))))
        (wrap32 a, wrap32 r, wrap32 c) rfs
  = (wrap32 (a + sumZ (map (fun rf => GetOutCount rf adj) rfs)),
     wrap32 (r + sumZ (map (fun rf => GetInCount rf adj) rfs)),
     wrap32 (c + sumZ (map (fun rf => GetInCount rf adj) rfs))).
Proof.
  revert a r c. induction rfs as [|rf rfs IH]; intros a r c; simpl.
  - by rewrite !Z.add_0_r.
  - rewrite !wrap32_add_wrap32, IH. by rewrite !Z.add_assoc.
Qed.

Lemma sumZ_nonneg (l : list Z) : Forall (fun z => 0 <= z) l -> 0 <= sumZ l.
Proof. induction 1; simpl; lia. Qed.

Lemma totalIn_nonneg peer : 0 <= totalIn peer.
Proof.
  apply sumZ_nonneg, Forall_forall. intros z Hz.
  apply list_elem_of_fmap in Hz as [rf [-> _]]. unfold GetInCount. lia.
Qed.

Lemma totalOut_nonneg peer : 0 <= totalOut peer.
Proof.
  apply sumZ_nonneg, Forall_forall. intros z Hz.
  apply list_elem_of_fmap in Hz as [rf [-> _]]. unfold GetOutCount. lia.
Qed.

(** C10.  Outside ESTABLISHED the three counts of the snapshot are zero,
    whatever the Adj-RIB holds.  In ESTABLISHED, Received and Advertized are
    the sums of the Adj-RIB-In and Adj-RIB-Out counts over the configured
    families, in the 32-bit unsigned arithmetic of the report (the sum itself
    as long as it fits), and Accepted is Received. *)
Theorem snapshot_counts peer :
  (Advertized peer, Received peer, Accepted peer) =
    (if decide (fsm_state (fsm peer) = BGP_FSM_ESTABLISHED)
     then (wrap32 (totalOut peer), wrap32 (totalIn peer), wrap32 (totalIn peer))
     else (0, 0, 0)) /\
  Accepted peer = Received peer /\
  (fsm_state (fsm peer) = BGP_FSM_ESTABLISHED -> totalIn peer < 2 ^ 32 ->
   Received peer = totalIn peer) /\
  (fsm_state (fsm peer) = BGP_FSM_ESTABLISHED -> totalOut peer < 2 ^ 32 ->
   Advertized peer = totalOut peer).
Proof.
  assert (Hm : MarshalJSON_counts peer =
    if decide (fsm_state (fsm peer) = BGP_FSM_ESTABLISHED)
    then (wrap32 (totalOut peer), wrap32 (totalIn peer), wrap32 (totalIn peer))
    else (0, 0, 0)).
  { unfold MarshalJSON_counts. destruct (decide _); [|reflexivity].
    change (0, 0, 0) with (wrap32 0, wrap32 0, wrap32 0).
    rewrite count_fold. reflexivity. }
  unfold Advertized, Received, Accepted. rewrite Hm.
  pose proof (totalIn_nonneg peer). pose proof (totalOut_nonneg peer).
  destruct (decide _) as [He|Hne]; simpl; repeat split; try done.
  - intros _ ?. by apply wrap32_small.
  - intros _ ?. by apply wrap32_small.
Qed.

(** *** A received UPDATE that fails validation *)

(** C7.  An UPDATE the validator refuses against [rfMap] is dropped: when the
    error carries a code other than zero, exactly one NOTIFICATION with its
    code, subcode and data is queued on [outgoing]; when the code is zero
    nothing is queued.  Either way the Adj-RIB is unchanged and nothing is
    sent to a sibling. *)
Theorem invalid_update_is_dropped (now : Time) m (body : BGPUpdate)
  (err : MessageError) peer :
  Header_Type m = BGP_MSG_UPDATE ->
  Body m = Body_Update body ->
  ValidateUpdateMsg body (rfMap peer) = Some err ->
  exists peer',
    handleBGPmessage now m peer = Ok peer' /\
    outgoing peer' = outgoing peer ++
      (if decide (TypeCode err <> 0)
       then [NewBGPNotificationMessage (TypeCode err) (SubTypeCode err) (err_Data err)]
       else []) /\
    adjRib peer' = adjRib peer /\
    trace peer' = trace peer.
Proof.
  intros Htype Hbody Herr.
  unfold handleBGPmessage. rewrite Htype, Hbody. simpl.
  unfold handleUpdate. simpl. rewrite Herr.
  destruct (decide (TypeCode err <> 0)); eexists; (split; [reflexivity|]); simpl.
  - done.
  - by rewrite app_nil_r.
Qed.

(** *** Leaving a state *)

Lemma Sub_lt_threshold (now u : Time) :
  Sub now u < FLOP_THRESHOLD <-> now - u < 30 * Second.
Proof.
  unfold Sub, FLOP_THRESHOLD, minDuration, maxDuration, Second. lia.
Qed.

Lemma dropAll_lookup (rfs : list RouteFamily) (adj : AdjRib) (rf : RouteFamily) :
  adjRibIn (foldl (fun adj rf => DropAllIn rf adj) adj rfs) !! rf =
    if decide (rf ∈ rfs) then Some [] else adjRibIn adj !! rf.
Proof.
  revert adj. induction rfs as [|r rfs IH]; intros adj; cbn [foldl].
  - destruct (decide (rf ∈ [])) as [Hin|_]; [|done]. by apply elem_of_nil in Hin.
  - rewrite IH. cbn [DropAllIn adjRibIn].
    destruct (decide (rf ∈ rfs)) as [Hin|Hnin];
      destruct (decide (rf ∈ r :: rfs)) as [Hin'|Hnin']; try done.
    + exfalso. apply Hnin'. by right.
    + apply elem_of_cons in Hin' as [->|?]; [|done]. by rewrite lookup_insert_eq.
    + rewrite lookup_insert_ne; [done|]. intros ->. apply Hnin'. by left.
Qed.

Lemma dropAll_out (rfs : list RouteFamily) (adj : AdjRib) :
  adjRibOut (foldl (fun adj rf => DropAllIn rf adj) adj rfs) = adjRibOut adj.
Proof.
  revert adj. induction rfs as [|r rfs IH]; intros adj; simpl; [done|].
  by rewrite IH.
Qed.

Lemma sentOn_app (ch : N) (tr1 tr2 : list effect) :
  sentOn ch (tr1 ++ tr2) = sentOn ch tr1 ++ sentOn ch tr2.
Proof. unfold sentOn. apply omap_app. Qed.

Lemma sentOn_send (ch ch' : N) (pm : peerMsg) (tr : list effect) :
  sentOn ch (SendPeerMsg ch' pm :: tr) =
    if decide (ch' = ch) then pm :: sentOn ch tr else sentOn ch tr.
Proof. unfold sentOn. simpl. by destruct (decide (ch' = ch)). Qed.

Lemma sentOn_others (ch : N) (pm : peerMsg)
  (l : list (string * serverMsgDataPeer)) :
  (forall a s, (a, s) ∈ l -> peerMsgCh s <> ch) ->
  sentOn ch (map (fun s => SendPeerMsg (peerMsgCh s.2) pm) l) = [].
Proof.
  induction l as [|[a s] l IH]; intros Hl; cbn [map snd]; [done|].
  rewrite sentOn_send, decide_False by (eapply Hl; by left).
  apply IH. intros a' s' Hin. eapply Hl. by right.
Qed.

Lemma sentOn_once (ch : N) (pm : peerMsg)
  (l : list (string * serverMsgDataPeer)) (a : string) (s : serverMsgDataPeer) :
  NoDup l.*1 ->
  (a, s) ∈ l ->
  peerMsgCh s = ch ->
  (forall a' s', (a', s') ∈ l -> peerMsgCh s' = ch -> a' = a) ->
  sentOn ch (map (fun s => SendPeerMsg (peerMsgCh s.2) pm) l) = [pm].
Proof.
  induction l as [|[a0 s0] l IH]; intros Hnd Hin Hch Huniq.
  - by apply elem_of_nil in Hin.
  - simpl in Hnd. apply NoDup_cons in Hnd as [Hfresh Hnd].
    apply elem_of_cons in Hin as [Heq|Hin].
    + inversion Heq; subst a0 s0. cbn [map snd]. rewrite sentOn_send, decide_True by done.
      f_equal. apply sentOn_others. intros a' s' Hin' Hch'.
      apply Hfresh. rewrite (Huniq a' s') in Hin'; [|by right|by rewrite Hch'].
      apply list_elem_of_fmap. by exists (a, s').
    + cbn [map snd]. rewrite sentOn_send.
      destruct (decide (peerMsgCh s0 = ch)) as [Hch0|Hch0].
      * exfalso. apply Hfresh.
        rewrite (Huniq a0 s0); [|by left|done].
        apply list_elem_of_fmap. by exists (a, s).
      * apply IH; try done. intros a' s' Hin' Hch'.
        apply (Huniq a' s'); [by right|done].
Qed.

Lemma handleStateChange_established (now : Time) (nextState : FSMState) peer :
  isGlobalRib peer = false ->
  peerState peer = BGP_FSM_ESTABLISHED ->
  exists peer',
    handleStateChange now nextState peer = Ok peer' /\
    adjRib peer' =
      foldl (fun adj rf => DropAllIn rf adj) (adjRib peer) (configuredRFlist peer) /\
    trace peer' = trace peer ++
      map (fun s => SendPeerMsg (peerMsgCh s.2) (peerDown peer))
          (map_to_list (siblings peer)).
Proof.
  intros Hglobal Hst. unfold handleStateChange. rewrite Hglobal.
  rewrite (decide_True _ _ Hst).
  eexists. split; [reflexivity|].
  unfold countFlop, dropAllIn, sendToSiblings, emit, peerDown.
  repeat (destruct (decide _)); simpl; split; reflexivity.
Qed.

(** C5.  When the recorded state is ESTABLISHED, a state change empties the
    Adj-RIB-In of every configured family and sends the PEER-DOWN message
    with the PeerInfo of the peer once per entry of the sibling directory, and
    sends nothing else: a sibling whose mailbox no other entry shares gets
    exactly one message, that one.  (This holds whatever the next state is.) *)
Theorem leaving_established (now : Time) (nextState : FSMState) peer :
  isGlobalRib peer = false ->
  peerState peer = BGP_FSM_ESTABLISHED ->
  exists peer',
    handleStateChange now nextState peer = Ok peer' /\
    (forall rf, rf ∈ configuredRFlist peer ->
       GetInPathList rf (adjRib peer') = [] /\ GetInCount rf (adjRib peer') = 0) /\
    (exists sends,
       trace peer' = trace peer ++ sends /\
       sends = map (fun s => SendPeerMsg (peerMsgCh s.2) (peerDown peer))
                   (map_to_list (siblings peer)) /\
       forall a s,
         siblings peer !! a = Some s ->
         (forall a' s', siblings peer !! a' = Some s' ->
                        peerMsgCh s' = peerMsgCh s -> a' = a) ->
         sentOn (peerMsgCh s) sends = [peerDown peer]).
Proof.
  intros Hglobal Hst.
  destruct (handleStateChange_established now nextState peer Hglobal Hst)
    as (peer' & Hrun & Hrib & Htrace).
  exists peer'. split; [exact Hrun|]. split.
  - intros rf Hrf.
    assert (Hempty : GetInPathList rf (adjRib peer') = []).
    { unfold GetInPathList. rewrite Hrib, dropAll_lookup.
      by rewrite decide_True. }
    split; [exact Hempty|]. unfold GetInCount. by rewrite Hempty.
  - eexists. split; [exact Htrace|]. split; [reflexivity|].
    intros a s Has Huniq.
    apply (sentOn_once _ _ _ a s).
    + apply NoDup_fst_map_to_list.
    + by apply elem_of_map_to_list.
    + reflexivity.
    + intros a' s' Hin. apply Huniq. by apply elem_of_map_to_list.
Qed.

Lemma wrap64s_small (z : Z) : - 2 ^ 63 <= z < 2 ^ 63 -> wrap64s z = z.
Proof. intros Hz. unfold wrap64s. rewrite Z.mod_small; lia. Qed.

Lemma wrap64s_idemp_add (z c : Z) : wrap64s (wrap64s z + c) = wrap64s (z + c).
Proof.
  unfold wrap64s.
  replace ((z + 2 ^ 63) mod 2 ^ 64 - 2 ^ 63 + c + 2 ^ 63)
    with ((z + 2 ^ 63) mod 2 ^ 64 + c) by lia.
  rewrite Zplus_mod_idemp_l. do 2 f_equal. lia.
Qed.

(** Without overflow [time.Unix] gives the instant [sec] seconds after the
    epoch. *)
Lemma time_Unix_in_range (sec : Z) :
  unixInRange sec -> time_Unix sec = sec * Second.
Proof.
  unfold unixInRange, time_Unix. intros Hsec.
  rewrite wrap64s_small by exact Hsec. f_equal. lia.
Qed.

(** With overflow it gives an instant 2^64 seconds earlier. *)
Lemma time_Unix_overflow (sec : Z) :
  2 ^ 63 - unixToInternal <= sec < 2 ^ 63 ->
  time_Unix sec = (sec - 2 ^ 64) * Second.
Proof.
  unfold time_Unix, wrap64s, unixToInternal. intros Hsec. f_equal.
  replace (sec + 62135596800 + 2 ^ 63)
    with (sec + 62135596800 - 2 ^ 63 + 1 * 2 ^ 64) by lia.
  rewrite Z.mod_add by lia. rewrite Z.mod_small; lia.
Qed.

(** On a clock reading, [time.Unix(t.Unix(), 0)] is [t] cut to the second. *)
Lemma time_Unix_Unix (t : Time) :
  representable t -> time_Unix (Unix t) = t / Second * Second.
Proof.
  unfold representable, unixInRange, time_Unix, Unix. intros Ht.
  rewrite wrap64s_idemp_add, wrap64s_small by exact Ht. f_equal. lia.
Qed.

(** The counter after the handler, with the elapsed time as the handler
    computes it. *)
Lemma handleStateChange_flops (now : Time) (nextState : FSMState) peer :
  isGlobalRib peer = false ->
  exists peer',
    handleStateChange now nextState peer = Ok peer' /\
    Flops (CommonState (fsm_peerConfig (fsm peer'))) =
      let cs := CommonState (fsm_peerConfig (fsm peer)) in
      if decide (adminState (fsm peer) = ADMIN_STATE_DOWN) then 0
      else if decide (peerState peer = BGP_FSM_ESTABLISHED /\
                      now - time_Unix (Uptime cs) < 30 * Second)
           then wrap32 (Flops cs + 1)
           else Flops cs.
Proof.
  intros Hglobal. unfold handleStateChange. rewrite Hglobal.
  eexists. split; [reflexivity|]. simpl.
  destruct (decide (peerState peer = BGP_FSM_ESTABLISHED)) as [Hst|Hst].
  - unfold countFlop. simpl.
    destruct (decide (Sub now _ < FLOP_THRESHOLD)) as [Hlt|Hge]; simpl;
      destruct (decide (adminState (fsm peer) = ADMIN_STATE_DOWN)); simpl;
      try reflexivity.
    + rewrite decide_True; [reflexivity|].
      split; [done|]. by apply Sub_lt_threshold in Hlt.
    + rewrite decide_False; [reflexivity|].
      intros [_ Hlt]. apply Hge. by apply Sub_lt_threshold.
  - simpl. destruct (decide (adminState (fsm peer) = ADMIN_STATE_DOWN)); simpl;
      [reflexivity|].
    rewrite decide_False; [reflexivity|]. by intros [? _].
Qed.

(** C8, as amended.  After a state change the flap counter is zero when the
    administrative state is DOWN, for then all counters are cleared at the end
    of the handler; otherwise it is one more (as a [uint32]) when the state
    left is ESTABLISHED and less than 30 seconds passed since the instant
    [time.Unix] makes of the recorded uptime, and unchanged in every other
    case.  That instant is the recorded uptime when the conversion does not
    overflow, and then the test is on the seconds since the uptime.  For an
    uptime among the last 62135596800 values of an [int64] the conversion
    overflows to an instant long before the epoch, and no flap is counted at
    a clock past the epoch. *)
Theorem flops_after_state_change (now : Time) (nextState : FSMState) peer :
  isGlobalRib peer = false ->
  exists peer',
    handleStateChange now nextState peer = Ok peer' /\
    let cs := CommonState (fsm_peerConfig (fsm peer)) in
    let flops' := Flops (CommonState (fsm_peerConfig (fsm peer'))) in
    flops' =
      (if decide (adminState (fsm peer) = ADMIN_STATE_DOWN) then 0
       else if decide (peerState peer = BGP_FSM_ESTABLISHED /\
                       now - time_Unix (Uptime cs) < 30 * Second)
            then wrap32 (Flops cs + 1)
            else Flops cs) /\
    (unixInRange (Uptime cs) ->
     flops' =
       if decide (adminState (fsm peer) = ADMIN_STATE_DOWN) then 0
       else if decide (peerState peer = BGP_FSM_ESTABLISHED /\
                       now - Uptime cs * Second < 30 * Second)
            then wrap32 (Flops cs + 1)
            else Flops cs) /\
    (2 ^ 63 - unixToInternal <= Uptime cs < 2 ^ 63 -> 0 <= now ->
     flops' =
       if decide (adminState (fsm peer) = ADMIN_STATE_DOWN) then 0
       else Flops cs).
Proof.
  intros Hglobal.
  destruct (handleStateChange_flops now nextState peer Hglobal)
    as (peer' & Hrun & Hflops).
  exists peer'. split; [exact Hrun|]. cbv zeta in *.
  split; [exact Hflops|]. split.
  - intros Hrange. rewrite Hflops, (time_Unix_in_range _ Hrange). reflexivity.
  - intros Hover Hnow. rewrite Hflops, (time_Unix_overflow _ Hover).
    destruct (decide (adminState (fsm peer) = ADMIN_STATE_DOWN)); [reflexivity|].
    rewrite decide_False; [reflexivity|].
    intros [_ Hlt]. unfold unixToInternal, Second in *. lia.
Qed.

(** *** A received OPEN: capabilities and hold time *)

Lemma SFcompare_antisym (a b : float64) :
  SFcompare b a = option_map CompOpp (SFcompare a b).
Proof.
  destruct a as [sa|sa| |sa ma ea], b as [sb|sb| |sb mb eb]; simpl;
    try reflexivity; try (by destruct sa); try (by destruct sb);
    try (by destruct sa, sb).
  change (Pos.compare_cont Eq mb ma) with (Pos.compare mb ma).
  change (Pos.compare_cont Eq ma mb) with (Pos.compare ma mb).
  rewrite (Z.compare_antisym ea eb), (Pos.compare_antisym ma mb).
  destruct sa, sb; simpl; try reflexivity;
    destruct (Z.compare ea eb); simpl; reflexivity.
Qed.

Lemma SFcompare_refl (a : float64) :
  is_nan a = false -> SFcompare a a = Some Eq.
Proof.
  destruct a as [sa|sa| |sa ma ea]; simpl; intros Hnan; try done.
  - by destruct sa.
  - change (Pos.compare_cont Eq ma ma) with (Pos.compare ma ma).
    rewrite Z.compare_refl, Pos.compare_refl. by destruct sa.
Qed.

Lemma SFcompare_total (a b : float64) :
  is_nan a = false -> is_nan b = false -> exists c, SFcompare a b = Some c.
Proof.
  destruct a, b; simpl; intros Ha Hb; try done; eexists; reflexivity.
Qed.

Lemma negotiateHoldTime_is_min (holdTime myHoldTime : float64) :
  is_nan holdTime = false ->
  is_nan myHoldTime = false ->
  float64_is_min (negotiateHoldTime holdTime myHoldTime) myHoldTime holdTime.
Proof.
  intros Hr Hl. unfold negotiateHoldTime, float64_gt, float64_is_min, SFltb, SFleb.
  destruct (SFcompare_total myHoldTime holdTime Hl Hr) as [c Hc].
  pose proof (SFcompare_antisym myHoldTime holdTime) as Hanti.
  rewrite Hc in Hanti. simpl in Hanti.
  rewrite Hc. destruct c;
    rewrite ?Hanti, ?(SFcompare_refl _ Hr), ?(SFcompare_refl _ Hl), ?Hc;
    simpl; auto.
Qed.

Lemma forallFrom_spec (P : Z -> bool) (k : nat) (n : Z) :
  forallFrom P k n = true -> forall i, n <= i < n + Z.of_nat k -> P i = true.
Proof.
  revert n. induction k as [|k IH]; intros n Hall i Hi; [lia|].
  cbn [forallFrom] in Hall. apply andb_true_iff in Hall as [Hn Hall].
  destruct (decide (i = n)) as [->|Hne]; [exact Hn|].
  apply (IH (n + 1)); [exact Hall|lia].
Qed.

(** The conversion of every [uint16] is a number. *)
Lemma float64_of_uint16_not_nan (n : Z) :
  0 <= n < 2 ^ 16 -> is_nan (float64_of_uint16 n) = false.
Proof.
  intros Hn.
  assert (Hall : forallFrom (fun k => negb (is_nan (float64_of_uint16 k)))
                            (Z.to_nat 65536) 0 = true)
    by (vm_compute; reflexivity).
  apply negb_true_iff, (forallFrom_spec _ _ _ Hall). lia.
Qed.

Lemma forM_openCapability (caps : list ParameterCapabilityInterface)
  (cm : gmap Z ParameterCapabilityInterface) (r : gmap Z bool) :
  forallb decodedCapability caps = true ->
  exists cm' r',
    forM openCapability caps (cm, r) = Ok (cm', r') /\
    forall f, is_Some (r' !! f) <->
              is_Some (r !! f) \/ f ∈ flat_map capabilityFamilies caps.
Proof.
  revert cm r. induction caps as [|c caps IH]; intros cm r Hdec.
  - exists cm, r. split; [reflexivity|]. intros f. simpl.
    rewrite elem_of_nil. tauto.
  - simpl in Hdec. apply andb_true_iff in Hdec as [Hc Hcaps].
    assert (Hone : exists cm1,
      openCapability c (cm, r) = Ok (cm1, foldr (fun f r => <[f := true]> r) r
                                            (capabilityFamilies c))).
    { unfold openCapability. destruct c; simpl in *; try (eexists; reflexivity).
      apply bool_decide_eq_true in Hc.
      rewrite decide_False by done. eexists; reflexivity. }
    destruct Hone as [cm1 Hone].
    destruct (IH cm1 (foldr (fun f r => <[f := true]> r) r (capabilityFamilies c))
                Hcaps) as (cm' & r' & Hrun & Hdom).
    exists cm', r'. split.
    + cbn [forM]. rewrite Hone. exact Hrun.
    + intros f. rewrite Hdom. cbn [flat_map]. rewrite elem_of_app.
      destruct c; simpl; rewrite ?elem_of_nil; try tauto.
      rewrite list_elem_of_singleton.
      destruct (decide (AfiSafiToRouteFamily AFI SAFI = f)) as [->|Hne].
      * rewrite lookup_insert_eq. intuition eauto.
      * rewrite lookup_insert_ne by done. intuition congruence.
Qed.

Lemma forM_openParameter (params : list OptionParameterInterface)
  (cm : gmap Z ParameterCapabilityInterface) (r : gmap Z bool) :
  forallb decodedParameter params = true ->
  exists cm' r',
    forM openParameter params (cm, r) = Ok (cm', r') /\
    forall f, is_Some (r' !! f) <->
              is_Some (r !! f) \/ f ∈ flat_map parameterFamilies params.
Proof.
  revert cm r. induction params as [|p params IH]; intros cm r Hdec.
  - exists cm, r. split; [reflexivity|]. intros f. simpl.
    rewrite elem_of_nil. tauto.
  - simpl in Hdec. apply andb_true_iff in Hdec as [Hp Hparams].
    assert (Hone : exists cm1 r1,
      openParameter p (cm, r) = Ok (cm1, r1) /\
      forall f, is_Some (r1 !! f) <-> is_Some (r !! f) \/ f ∈ parameterFamilies p).
    { destruct p as [caps|typ value]; simpl in *.
      - by apply forM_openCapability.
      - exists cm, r. split; [reflexivity|]. intros f. rewrite elem_of_nil. tauto. }
    destruct Hone as (cm1 & r1 & Hone & Hdom1).
    destruct (IH cm1 r1 Hparams) as (cm' & r' & Hrun & Hdom).
    exists cm', r'. split.
    + cbn [forM]. rewrite Hone. exact Hrun.
    + intros f. rewrite Hdom, Hdom1. cbn [flat_map]. rewrite elem_of_app. tauto.
Qed.

(** What [handleOpen] leaves, for an OPEN as the decoder builds it. *)
Lemma handleOpen_decoded (body : BGPOpen) peer :
  decodedOpen body = true ->
  exists cm' r peer',
    handleOpen body peer = Ok peer' /\
    (forall f, is_Some (r !! f) <-> f ∈ advertisedFamilies body) /\
    rfMap peer' =
      addFamilies r (configuredRFlist peer) (pruneFamilies r (rfMap peer)) /\
    capMap peer' = cm' /\
    peerConfig peer' = peerConfig peer /\
    negotiatedHoldTime (fsm peer') =
      negotiateHoldTime (float64_of_uint16 (open_HoldTime body))
        (HoldTime (NeighborTimers (fsm_peerConfig (fsm peer)))).
Proof.
  intros Hdec. apply andb_true_iff in Hdec as [Hparams _].
  destruct (forM_openParameter (OptParams body) (capMap peer) ∅ Hparams)
    as (cm' & r & Hrun & Hdom).
  exists cm', r. unfold handleOpen. cbn [capMap set_peerInfo].
  rewrite Hrun. eexists. split; [reflexivity|]. split; [|done].
  intros f. rewrite Hdom, lookup_empty. unfold advertisedFamilies.
  split; [intros [[? ?]|?]; done | by right].
Qed.

(** C6.  For a received OPEN, the hold time stored in the FSM is the minimum
    of the hold time of the FSM's configuration and of the hold time of the
    OPEN, converted to float64 (the configured hold time being a number). *)
Theorem negotiated_hold_time_is_min (now : Time) m (body : BGPOpen) peer :
  isOpen m body ->
  decodedOpen body = true ->
  is_nan (HoldTime (NeighborTimers (fsm_peerConfig (fsm peer)))) = false ->
  exists peer',
    handleBGPmessage now m peer = Ok peer' /\
    float64_is_min (negotiatedHoldTime (fsm peer'))
      (HoldTime (NeighborTimers (fsm_peerConfig (fsm peer))))
      (float64_of_uint16 (open_HoldTime body)).
Proof.
  intros [Htype Hbody] Hdec Hnan.
  destruct (handleOpen_decoded body peer Hdec)
    as (cm' & r & peer' & Hrun & _ & _ & _ & _ & Hhold).
  exists peer'. split.
  - unfold handleBGPmessage. rewrite Htype, Hbody. exact Hrun.
  - rewrite Hhold. apply negotiateHoldTime_is_min; [|exact Hnan].
    apply float64_of_uint16_not_nan.
    apply andb_true_iff in Hdec as [_ Hrange].
    by apply bool_decide_eq_true in Hrange.
Qed.

(** *** The negotiated families along a session *)

(** Only a received OPEN writes [rfMap], and nothing writes the configured
    list: every other handler leaves the families of the peer as they are. *)

Lemma forM_families {A : Type} (body : A -> Peer' -> result Peer') (l : list A) :
  (forall x peer peer', body x peer = Ok peer' -> families peer' = families peer) ->
  forall peer peer', forM body l peer = Ok peer' -> families peer' = families peer.
Proof.
  intros Hbody. induction l as [|x l IH]; intros peer peer' Hrun.
  - by inversion Hrun.
  - cbn [forM] in Hrun. destruct (body x peer) as [peer1|] eqn:Hx; [|done].
    rewrite (IH _ _ Hrun). by apply (Hbody x).
Qed.

Lemma sendMessage_families m peer peer' :
  sendMessage m peer = Ok peer' -> families peer' = families peer.
Proof.
  unfold sendMessage. intros Hrun.
  repeat case_decide; repeat case_match; by simplify_eq.
Qed.

Lemma sendMessages_families (msgs : list BGPMessage') peer peer' :
  sendMessages msgs peer = Ok peer' -> families peer' = families peer.
Proof. apply forM_families. intros x. apply sendMessage_families. Qed.

Lemma sendPathsToSiblings_families (pathList : list Path) peer :
  families (sendPathsToSiblings pathList peer) = families peer.
Proof. unfold sendPathsToSiblings. by case_decide. Qed.

Lemma families_emit (e : list effect) peer :
  families (emit e peer) = families peer.
Proof. reflexivity. Qed.

Lemma sendUpdateMsgFromPaths_families (pList : list Path) peer peer' :
  sendUpdateMsgFromPaths pList peer = Ok peer' -> families peer' = families peer.
Proof.
  unfold sendUpdateMsgFromPaths. intros Hrun.
  by apply sendMessages_families in Hrun.
Qed.

Lemma handleRouteRefresh_families (AFI SAFI : Z) peer peer' :
  handleRouteRefresh AFI SAFI peer = Ok peer' -> families peer' = families peer.
Proof.
  unfold handleRouteRefresh. intros Hrun.
  repeat case_match; simplify_eq; try done.
  by apply sendMessages_families in Hrun.
Qed.

Lemma handleUpdate_families (now : Time) m (body : BGPUpdate) peer peer' :
  handleUpdate now m body peer = Ok peer' -> families peer' = families peer.
Proof.
  unfold handleUpdate. intros Hrun.
  repeat case_match; repeat case_decide; simplify_eq; try done.
  by rewrite sendPathsToSiblings_families.
Qed.

Lemma peerDownFamily_families (data : peerMsgData) (rf : RouteFamily) peer peer' :
  peerDownFamily data rf peer = Ok peer' -> families peer' = families peer.
Proof.
  unfold peerDownFamily. intros Hrun.
  repeat case_match; simplify_eq; try done.
  - by apply sendUpdateMsgFromPaths_families in Hrun.
  - by rewrite sendPathsToSiblings_families.
Qed.

Lemma handlePeerMsg_families (pm : peerMsg) peer peer' :
  handlePeerMsg pm peer = Ok peer' -> families peer' = families peer.
Proof.
  unfold handlePeerMsg. intros Hrun.
  repeat case_decide.
  - repeat case_match; simplify_eq; try done;
      try (by rewrite sendPathsToSiblings_families);
      by apply sendUpdateMsgFromPaths_families in Hrun.
  - revert Hrun. apply forM_families. intros x. apply peerDownFamily_families.
  - by simplify_eq.
Qed.

Lemma handleREST_families (req : RestRequest) peer peer' :
  handleREST req peer = Ok peer' -> families peer' = families peer.
Proof.
  unfold handleREST, softResetOut, offerAdminState, mbind, result_bind.
  intros Hrun.
  destruct (RequestType req);
    repeat case_decide; repeat case_match; simplify_eq;
    try match goal with
        | H : sendMessages _ _ = Ok _ |- _ =>
            apply sendMessages_families in H;
            rewrite ?sendPathsToSiblings_families in H; exact H
        end;
    try done; by rewrite ?families_emit, ?sendPathsToSiblings_families.
Qed.

Lemma handleServerMsg_families (sm : serverMsg) peer peer' :
  handleServerMsg sm peer = Ok peer' -> families peer' = families peer.
Proof.
  unfold handleServerMsg. intros Hrun.
  destruct (srv_msgType sm); destruct (srv_msgData sm); simplify_eq; try done.
  - apply forM_families in Hrun; [done|].
    intros rf q q'. unfold peerAddedFamily.
    intros Hq. repeat case_match; simplify_eq; try done;
      by rewrite sendPathsToSiblings_families.
  - case_match; simplify_eq; [|done].
    apply forM_families in Hrun; [done|].
    intros rf q q'. unfold peerDeletedFamily.
    intros Hq. repeat case_match; simplify_eq.
    + by apply sendUpdateMsgFromPaths_families in Hq.
    + by rewrite sendPathsToSiblings_families.
  - by apply handleREST_families in Hrun.
Qed.

Lemma loopEntry_families (now : Time) peer peer' :
  loopEntry now peer = Ok peer' -> families peer' = families peer.
Proof.
  unfold loopEntry. intros Hrun.
  cbn [isGlobalRib set_outgoing] in Hrun.
  destruct (isGlobalRib peer); [by simplify_eq|].
  case_decide.
  - destruct (forM _ _ _) as [peer1|] eqn:Hsend; simplify_eq/=.
    apply forM_families in Hsend; [done|].
    intros kv q q'. apply sendMessages_families.
  - simplify_eq. repeat case_decide; repeat case_match; done.
Qed.

Lemma handleStateChange_families (now : Time) (nextState : FSMState) peer peer' :
  handleStateChange now nextState peer = Ok peer' ->
  families peer' = families peer.
Proof.
  unfold handleStateChange, countFlop, dropAllIn, sendToSiblings. intros Hrun.
  destruct (isGlobalRib peer); [done|]. simplify_eq.
  repeat case_decide; done.
Qed.

(** The two loops of lines 194-204. *)
Lemma pruneFamilies_lookup (r rfMap0 : gmap Z bool) (f : RouteFamily) :
  pruneFamilies r rfMap0 !! f = if r !! f is Some _ then rfMap0 !! f else None.
Proof.
  unfold pruneFamilies. destruct (r !! f) as [b|] eqn:Hr.
  - destruct (rfMap0 !! f) as [v|] eqn:Hm.
    + apply map_lookup_filter_Some. split; [done|]. cbn [fst]. by rewrite Hr.
    + apply map_lookup_filter_None. left. done.
  - apply map_lookup_filter_None. right. intros v _. cbn [fst]. rewrite Hr.
    by intros [? ?].
Qed.

Lemma addFamilies_lookup (r : gmap Z bool) (rfList : list RouteFamily)
  (rfMap0 : gmap Z bool) (f : RouteFamily) :
  addFamilies r rfList rfMap0 !! f =
    if decide (f ∈ rfList /\ is_Some (r !! f)) then Some true else rfMap0 !! f.
Proof.
  unfold addFamilies. revert rfMap0.
  induction rfList as [|rf rfList IH]; intros rfMap0; cbn [foldl].
  - rewrite decide_False; [done|]. intros [Hin _]. by apply elem_of_nil in Hin.
  - rewrite IH. clear IH.
    destruct (decide (f ∈ rfList /\ is_Some (r !! f))) as [[Hin Hr]|Hnot].
    + rewrite decide_True; [done|]. split; [by right|done].
    + destruct (decide (rf = f)) as [->|Hne].
      * destruct (r !! f) as [b|] eqn:Hr.
        -- rewrite lookup_insert_eq. rewrite decide_True; [done|].
           split; [by left|done].
        -- rewrite decide_False; [done|]. by intros [_ [? ?]].
      * assert (Hsame : (if r !! rf is Some _ then <[rf:=true]> rfMap0 else rfMap0)
                          !! f = rfMap0 !! f).
        { destruct (r !! rf); [by rewrite lookup_insert_ne|done]. }
        rewrite Hsame. rewrite decide_False; [done|].
        intros [[?|?]%elem_of_cons Hr]; [congruence|]. by apply Hnot.
Qed.

Lemma handleOpen_rfMap (body : BGPOpen) peer peer' :
  handleOpen body peer = Ok peer' ->
  exists r, rfMap peer' =
              addFamilies r (configuredRFlist peer) (pruneFamilies r (rfMap peer)) /\
            AfiSafiList (peerConfig peer') = AfiSafiList (peerConfig peer).
Proof.
  unfold handleOpen. intros Hrun.
  destruct (forM openParameter _ _) as [[cm r]|] eqn:Hparams; simplify_eq/=.
  by exists r.
Qed.

Lemma configuredRFlist_families peer peer' :
  families peer' = families peer -> configuredRFlist peer' = configuredRFlist peer.
Proof. unfold families, configuredRFlist. intros [= _ ->]. done. Qed.

Lemma negotiatedAreConfigured_families peer peer' :
  families peer' = families peer ->
  negotiatedAreConfigured peer -> negotiatedAreConfigured peer'.
Proof.
  intros Hfam Hinv f. rewrite (configuredRFlist_families _ _ Hfam).
  injection Hfam as -> _. apply Hinv.
Qed.

Lemma handleOpen_configured (body : BGPOpen) peer peer' :
  negotiatedAreConfigured peer ->
  handleOpen body peer = Ok peer' -> negotiatedAreConfigured peer'.
Proof.
  intros Hinv (r & Hmap & Hcfg)%handleOpen_rfMap f.
  unfold configuredRFlist. rewrite Hcfg, Hmap, addFamilies_lookup.
  case_decide as Hin; [by destruct Hin|].
  rewrite pruneFamilies_lookup. intros Hsome.
  destruct (r !! f); [by apply Hinv|by destruct Hsome].
Qed.

Lemma handleBGPmessage_configured (now : Time) m peer peer' :
  negotiatedAreConfigured peer ->
  handleBGPmessage now m peer = Ok peer' -> negotiatedAreConfigured peer'.
Proof.
  intros Hinv. unfold handleBGPmessage. intros Hrun.
  repeat case_decide; repeat case_match; simplify_eq; try done.
  - by eapply handleOpen_configured.
  - apply handleRouteRefresh_families in Hrun.
    by eapply negotiatedAreConfigured_families.
  - apply handleUpdate_families in Hrun.
    by eapply negotiatedAreConfigured_families.
Qed.

Lemma step_configured (ev : event) peer peer' :
  negotiatedAreConfigured peer ->
  step ev peer = Ok peer' -> negotiatedAreConfigured peer'.
Proof.
  intros Hinv. destruct ev as [now now' e|sm|pm|f drained]; simpl; intros Hrun.
  - unfold handleFsmMsg in Hrun.
    destruct (MsgType e); destruct (MsgData e); simplify_eq; try done.
    + destruct (handleStateChange _ _ _) as [peer1|] eqn:Hchange; [|done].
      apply handleStateChange_families in Hchange.
      apply loopEntry_families in Hrun.
      eapply negotiatedAreConfigured_families; [|exact Hinv]. congruence.
    + by eapply handleBGPmessage_configured.
  - apply handleServerMsg_families in Hrun.
    by eapply negotiatedAreConfigured_families.
  - apply handlePeerMsg_families in Hrun.
    by eapply negotiatedAreConfigured_families.
  - by simplify_eq.
Qed.

Lemma NewPeer_rfMap (l : list AfiSafi) (acc : gmap Z bool) (f : RouteFamily) :
  is_Some (foldl (fun acc rf => <[bgp_GetRouteFamily (AfiSafiName rf) := true]> acc)
                 acc l !! f) ->
  is_Some (acc !! f) \/
  f ∈ map (fun rf => bgp_GetRouteFamily (AfiSafiName rf)) l.
Proof.
  revert acc. induction l as [|rf l IH]; intros acc; cbn [foldl map].
  - by left.
  - intros [Hacc|Hin]%IH.
    + destruct (decide (bgp_GetRouteFamily (AfiSafiName rf) = f)) as [<-|Hne].
      * right. by left.
      * left. by rewrite lookup_insert_ne in Hacc.
    + right. by right.
Qed.

Lemma NewPeer_configured (now : Time) (g : Global) (c : Neighbor)
  (peerList : list serverMsgDataPeer) (isGlobalRib0 : bool)
  (policyMap : gmap string Policy) :
  negotiatedAreConfigured (NewPeer now g c peerList isGlobalRib0 policyMap).
Proof.
  intros f Hf. simpl in Hf. apply NewPeer_rfMap in Hf as [Hf|Hf].
  - rewrite lookup_empty in Hf. by destruct Hf.
  - exact Hf.
Qed.

Lemma reachable_configured peer : reachable peer -> negotiatedAreConfigured peer.
Proof.
  induction 1 as [now now' g c peerList isGlobalRib0 policyMap peer Hentry
                 |ev peer peer' _ IH Hstep].
  - apply loopEntry_families in Hentry.
    eapply negotiatedAreConfigured_families; [exact Hentry|].
    apply NewPeer_configured.
  - by eapply step_configured.
Qed.

(** C1.  In every state of a session the negotiated families are configured
    ones.  Handling a received OPEN leaves in [rfMap] exactly the families
    that are both in the configured list and among the multiprotocol
    capabilities of the OPEN, each mapped to true; the configured list itself
    is not changed. *)
Theorem rfMap_is_intersection peer :
  reachable peer ->
  negotiatedAreConfigured peer /\
  forall (now : Time) m (body : BGPOpen),
    isOpen m body ->
    decodedOpen body = true ->
    exists peer',
      handleBGPmessage now m peer = Ok peer' /\
      configuredRFlist peer' = configuredRFlist peer /\
      (forall f, rfMap peer' !! f =
                 if decide (f ∈ configuredRFlist peer /\ f ∈ advertisedFamilies body)
                 then Some true else None) /\
      dom (rfMap peer') =
        list_to_set (configuredRFlist peer) ∩ list_to_set (advertisedFamilies body).
Proof.
  intros Hreach. pose proof (reachable_configured peer Hreach) as Hinv.
  split; [exact Hinv|].
  intros now m body [Htype Hbody] Hdec.
  destruct (handleOpen_decoded body peer Hdec)
    as (cm' & r & peer' & Hrun & Hdom & Hmap & _ & Hcfg & _).
  assert (Hlookup : forall f, rfMap peer' !! f =
            if decide (f ∈ configuredRFlist peer /\ f ∈ advertisedFamilies body)
            then Some true else None).
  { intros f. rewrite Hmap, addFamilies_lookup, pruneFamilies_lookup.
    destruct (decide (f ∈ configuredRFlist peer /\ is_Some (r !! f)))
      as [[Hc Hr]|Hnot].
    - rewrite decide_True; [done|]. split; [done|]. by apply Hdom.
    - rewrite decide_False.
      + destruct (r !! f) eqn:Hr; [|done].
        destruct (rfMap peer !! f) eqn:Hf; [|done].
        exfalso. apply Hnot. split; [|done]. apply Hinv. by rewrite Hf.
      + intros [Hc Ha]. apply Hnot. split; [done|]. by apply Hdom. }
  exists peer'. split; [|split; [|split]].
  - unfold handleBGPmessage. rewrite Htype, Hbody. exact Hrun.
  - unfold configuredRFlist. by rewrite Hcfg.
  - exact Hlookup.
  - apply set_eq. intros f.
    rewrite elem_of_dom, Hlookup, elem_of_intersection, !elem_of_list_to_set.
    case_decide as Hin; [by split|].
    split; [by intros [? ?]|done].
Qed.

(** *** The export path and the re-emission of the Adj-RIB-Out *)

Lemma egressPaths_spec peer (paths : list Path) (p : Path) :
  p ∈ egressPaths peer paths ->
  p ∈ paths /\
  IP_Equal (NeighborAddress (peerConfig peer)) (GetNexthop p) = false /\
  is_Some (rfMap peer !! GetRouteFamily p).
Proof.
  unfold egressPaths.
  assert (Hgen : forall acc,
    p ∈ foldl (fun sendpathList q => sendpathList ++ egressPath peer q) acc paths ->
    p ∈ acc \/
    (p ∈ paths /\
     IP_Equal (NeighborAddress (peerConfig peer)) (GetNexthop p) = false /\
     is_Some (rfMap peer !! GetRouteFamily p))).
  { induction paths as [|q paths IH]; intros acc; cbn [foldl]; [by left|].
    intros [Hacc|(Hin & Hnh & Hrf)]%IH.
    - apply elem_of_app in Hacc as [Hacc|Hq]; [by left|]. right.
      unfold egressPath in Hq.
      destruct (IP_Equal _ (GetNexthop q)) eqn:Hnh;
        [by apply elem_of_nil in Hq|].
      case_bool_decide as Hrf; [|by apply elem_of_nil in Hq].
      apply list_elem_of_singleton in Hq as ->.
      split; [by left|done].
    - right. split; [by right|done]. }
  intros [Hnil|Hok]%Hgen; [by apply elem_of_nil in Hnil|exact Hok].
Qed.

(** The export path hands to the construction of UPDATEs only paths whose
    nexthop is not the address of the neighbor and whose family is
    negotiated. *)
Lemma export_drops_own_nexthop (pList : list Path) peer :
  exists sendpathList peer1,
    sendUpdateMsgFromPaths pList peer =
      sendMessages (CreateUpdateMsgFromPaths sendpathList) peer1 /\
    outgoing peer1 = outgoing peer /\
    forall p, p ∈ sendpathList ->
      IP_Equal (NeighborAddress (peerConfig peer)) (GetNexthop p) = false.
Proof.
  eexists _, _. split; [reflexivity|]. split; [reflexivity|].
  intros p Hp. by apply egressPaths_spec in Hp as (_ & Hnh & _).
Qed.

End PeerProperties.

(** ** The properties on the small speaker *)

Lemma empty_chain_ignores_default_verdict_witness :
  importPolicies Scenario.established = [] /\
  exportPolicies Scenario.established = [] /\
  Forall (noDefaultNeeded (importPolicies Scenario.filtered))
    [Scenario.pathElsewhere] /\
  handlePeerMsg (pathMsg [Scenario.pathElsewhere])
    (set_defaultImportPolicy DEFAULT_POLICY_TYPE_REJECT_ROUTE Scenario.established) =
    (let processed := ProcessPaths (rib Scenario.established)
                        [Scenario.pathElsewhere] in
     peer' ← (if isGlobalRib Scenario.established
              then Ok (sendPathsToSiblings processed.2
                         (set_rib processed.1 Scenario.established))
              else if RouteServerClient (peerConfig Scenario.established)
              then sendUpdateMsgFromPaths processed.2
                     (set_rib processed.1 Scenario.established)
              else sendUpdateMsgFromPaths [Scenario.pathElsewhere]
                     Scenario.established);
     Ok (set_defaultImportPolicy DEFAULT_POLICY_TYPE_REJECT_ROUTE peer')) /\
  sendUpdateMsgFromPaths [Scenario.pathElsewhere]
    (set_defaultExportPolicy DEFAULT_POLICY_TYPE_REJECT_ROUTE Scenario.established) =
    (let paths := CloneAndUpdatePathAttrs [Scenario.pathElsewhere]
                    (globalConfig Scenario.established)
                    (peerConfig Scenario.established) in
     let peer1 := set_adjRib (UpdateOut paths (adjRib Scenario.established))
                    Scenario.established in
     peer' ← sendMessages (CreateUpdateMsgFromPaths (egressPaths peer1 paths)) peer1;
     Ok (set_defaultExportPolicy DEFAULT_POLICY_TYPE_REJECT_ROUTE peer')) /\
  handlePeerMsg (pathMsg [Scenario.pathElsewhere])
    (set_defaultImportPolicy DEFAULT_POLICY_TYPE_REJECT_ROUTE Scenario.filtered) =
    (peer' ← handlePeerMsg (pathMsg [Scenario.pathElsewhere]) Scenario.filtered;
     Ok (set_defaultImportPolicy DEFAULT_POLICY_TYPE_REJECT_ROUTE peer')) /\
  Forall (noDefaultNeeded (exportPolicies Scenario.filtered))
    (CloneAndUpdatePathAttrs [Scenario.pathElsewhere]
       (globalConfig Scenario.filtered) (peerConfig Scenario.filtered)) /\
  sendUpdateMsgFromPaths [Scenario.pathElsewhere]
    (set_defaultExportPolicy DEFAULT_POLICY_TYPE_REJECT_ROUTE Scenario.filtered) =
    (peer' ← sendUpdateMsgFromPaths [Scenario.pathElsewhere] Scenario.filtered;
     Ok (set_defaultExportPolicy DEFAULT_POLICY_TYPE_REJECT_ROUTE peer')).
Proof.
  assert (H1 : importPolicies Scenario.established = [])
    by (vm_compute; reflexivity).
  assert (H2 : exportPolicies Scenario.established = [])
    by (vm_compute; reflexivity).
  assert (H3 : Forall (noDefaultNeeded (importPolicies Scenario.filtered))
                 [Scenario.pathElsewhere]).
  { constructor; [|constructor]. right. right. reflexivity. }
  assert (H4 : Forall (noDefaultNeeded (exportPolicies Scenario.filtered))
                 (CloneAndUpdatePathAttrs [Scenario.pathElsewhere]
                    (globalConfig Scenario.filtered)
                    (peerConfig Scenario.filtered))).
  { constructor; [|constructor]. left. vm_compute. reflexivity. }
  split; [exact H1|]. split; [exact H2|]. split; [exact H3|].
  split; [|split; [|split; [|split; [exact H4|]]]].
  - exact (proj1 (empty_chain_ignores_default_verdict
                    DEFAULT_POLICY_TYPE_REJECT_ROUTE [Scenario.pathElsewhere]
                    Scenario.established) H1).
  - exact (proj1 (proj2 (empty_chain_ignores_default_verdict
                           DEFAULT_POLICY_TYPE_REJECT_ROUTE
                           [Scenario.pathElsewhere] Scenario.established)) H2).
  - exact (proj1 (proj2 (proj2 (empty_chain_ignores_default_verdict
                                  DEFAULT_POLICY_TYPE_REJECT_ROUTE
                                  [Scenario.pathElsewhere] Scenario.filtered)))
             H3).
  - exact (proj2 (proj2 (proj2 (empty_chain_ignores_default_verdict
                                  DEFAULT_POLICY_TYPE_REJECT_ROUTE
                                  [Scenario.pathElsewhere] Scenario.filtered)))
             H4).
Defined.

(** With both chains empty and both default verdicts REJECT, the path of a
    sibling is recorded for the neighbor and its UPDATE queued. *)
Example empty_chains_pass_under_reject :
  exists peer',
    handlePeerMsg Scenario.pathMessage
      (set_defaultImportPolicy DEFAULT_POLICY_TYPE_REJECT_ROUTE
         (set_defaultExportPolicy DEFAULT_POLICY_TYPE_REJECT_ROUTE
            Scenario.established)) = Ok peer' /\
    GetOutPathList Scenario.ipv4_unicast (adjRib peer') = [Scenario.pathElsewhere] /\
    outgoing peer' = Scenario.updates.
Proof. eexists. split; [by vm_compute|]. split; by vm_compute. Qed.

Lemma rfMap_is_intersection_witness :
  reachable Scenario.started /\
  (negotiatedAreConfigured Scenario.started /\
   forall (now : Time) (m : BGPMessage (list Path)) (body : BGPOpen),
     isOpen m body ->
     decodedOpen body = true ->
     exists peer',
       handleBGPmessage now m Scenario.started = Ok peer' /\
       configuredRFlist peer' = configuredRFlist Scenario.started /\
       (forall f, rfMap peer' !! f =
                  if decide (f ∈ configuredRFlist Scenario.started /\
                             f ∈ advertisedFamilies body)
                  then Some true else None) /\
       dom (rfMap peer') =
         list_to_set (configuredRFlist Scenario.started)
         ∩ list_to_set (advertisedFamilies body)).
Proof.
  assert (H : reachable Scenario.started).
  { eapply (reachable_new Scenario.t0 Scenario.t0 Scenario.global
              Scenario.neighbor [Scenario.sibling] false ∅).
    vm_compute. reflexivity. }
  split; [exact H | exact (rfMap_is_intersection Scenario.started H)].
Defined.

(** Scenario S1: both unicast families are configured and the OPEN advertises
    IPv4 unicast only. *)
Example open_negotiates_ipv4_only :
  map_to_list (rfMap Scenario.started)
    = [(Scenario.ipv6_unicast, true); (Scenario.ipv4_unicast, true)] /\
  exists peer',
    handleBGPmessage (Scenario.sec 103) Scenario.openMsg Scenario.started = Ok peer' /\
    map_to_list (rfMap peer') = [(Scenario.ipv4_unicast, true)].
Proof. split; [by vm_compute|]. eexists. split; by vm_compute. Qed.

Lemma negotiated_hold_time_is_min_witness :
  isOpen Scenario.openMsg Scenario.openBody /\
  decodedOpen Scenario.openBody = true /\
  is_nan (HoldTime (NeighborTimers (fsm_peerConfig (fsm Scenario.started)))) = false /\
  exists peer',
    handleBGPmessage (Scenario.sec 103) Scenario.openMsg Scenario.started = Ok peer' /\
    float64_is_min (negotiatedHoldTime (fsm peer'))
      (HoldTime (NeighborTimers (fsm_peerConfig (fsm Scenario.started))))
      (float64_of_uint16 (open_HoldTime Scenario.openBody)).
Proof.
  assert (H1 : isOpen Scenario.openMsg Scenario.openBody) by (split; reflexivity).
  assert (H2 : decodedOpen Scenario.openBody = true) by reflexivity.
  assert (H3 : is_nan (HoldTime (NeighborTimers
                 (fsm_peerConfig (fsm Scenario.started)))) = false) by reflexivity.
  split; [exact H1|]. split; [exact H2|]. split; [exact H3|].
  exact (negotiated_hold_time_is_min (Scenario.sec 103) Scenario.openMsg
           Scenario.openBody Scenario.started H1 H2 H3).
Defined.

(** Configured 90, advertised 30: the FSM gets 30. *)
Example hold_time_90_30 :
  exists peer',
    handleBGPmessage (Scenario.sec 103) Scenario.openMsg Scenario.started = Ok peer' /\
    negotiatedHoldTime (fsm peer') = float64_of_uint16 30.
Proof. eexists. split; by vm_compute. Qed.

Lemma invalid_update_is_dropped_witness :
  Header_Type Scenario.badUpdate = BGP_MSG_UPDATE /\
  Body Scenario.badUpdate = Body_Update Scenario.badBody /\
  ValidateUpdateMsg Scenario.badBody (rfMap Scenario.established)
    = Some Scenario.malformed /\
  exists peer',
    handleBGPmessage (Scenario.sec 120) Scenario.badUpdate Scenario.established
      = Ok peer' /\
    outgoing peer' = outgoing Scenario.established ++
      (if decide (TypeCode Scenario.malformed <> 0)
       then [NewBGPNotificationMessage (TypeCode Scenario.malformed)
               (SubTypeCode Scenario.malformed) (err_Data Scenario.malformed)]
       else []) /\
    adjRib peer' = adjRib Scenario.established /\
    trace peer' = trace Scenario.established.
Proof.
  assert (H1 : Header_Type Scenario.badUpdate = BGP_MSG_UPDATE) by reflexivity.
  assert (H2 : Body Scenario.badUpdate = Body_Update Scenario.badBody)
    by reflexivity.
  assert (H3 : ValidateUpdateMsg Scenario.badBody (rfMap Scenario.established)
               = Some Scenario.malformed) by (vm_compute; reflexivity).
  split; [exact H1|]. split; [exact H2|]. split; [exact H3|].
  exact (invalid_update_is_dropped (Scenario.sec 120) Scenario.badUpdate
           Scenario.badBody Scenario.malformed Scenario.established H1 H2 H3).
Defined.

(** Scenario S3: one NOTIFICATION(3, 11) on [outgoing]. *)
Example malformed_update_notified :
  exists peer',
    handleBGPmessage (Scenario.sec 120) Scenario.badUpdate Scenario.established
      = Ok peer' /\
    outgoing peer' = [NewBGPNotificationMessage 3 11 []].
Proof. eexists. split; by vm_compute. Qed.

Lemma leaving_established_witness :
  isGlobalRib Scenario.established = false /\
  peerState Scenario.established = BGP_FSM_ESTABLISHED /\
  exists peer',
    handleStateChange (Scenario.sec 115) BGP_FSM_IDLE Scenario.established
      = Ok peer' /\
    (forall rf, rf ∈ configuredRFlist Scenario.established ->
       GetInPathList rf (adjRib peer') = [] /\ GetInCount rf (adjRib peer') = 0) /\
    (exists sends,
       trace peer' = trace Scenario.established ++ sends /\
       sends = map (fun s => SendPeerMsg (peerMsgCh s.2)
                               (peerDown Scenario.established))
                   (map_to_list (siblings Scenario.established)) /\
       forall a s,
         siblings Scenario.established !! a = Some s ->
         (forall a' s', siblings Scenario.established !! a' = Some s' ->
                        peerMsgCh s' = peerMsgCh s -> a' = a) ->
         sentOn (peerMsgCh s) sends = [peerDown Scenario.established]).
Proof.
  assert (H1 : isGlobalRib Scenario.established = false) by reflexivity.
  assert (H2 : peerState Scenario.established = BGP_FSM_ESTABLISHED)
    by (vm_compute; reflexivity).
  split; [exact H1|]. split; [exact H2|].
  exact (leaving_established (Scenario.sec 115) BGP_FSM_IDLE
           Scenario.established H1 H2).
Defined.

(** The one sibling of the directory gets the PEER-DOWN message. *)
Example sibling_gets_peer_down :
  exists peer',
    handleStateChange (Scenario.sec 115) BGP_FSM_IDLE Scenario.established
      = Ok peer' /\
    sentOn 7 (trace peer') = [peerDown Scenario.established].
Proof. eexists. split; by vm_compute. Qed.

Lemma flops_after_state_change_witness :
  isGlobalRib Scenario.established = false /\
  unixInRange (Uptime (CommonState (fsm_peerConfig (fsm Scenario.established)))) /\
  exists peer',
    handleStateChange (Scenario.sec 115) BGP_FSM_IDLE Scenario.established
      = Ok peer' /\
    Flops (CommonState (fsm_peerConfig (fsm peer'))) =
      let cs := CommonState (fsm_peerConfig (fsm Scenario.established)) in
      if decide (adminState (fsm Scenario.established) = ADMIN_STATE_DOWN) then 0
      else if decide (peerState Scenario.established = BGP_FSM_ESTABLISHED /\
                      Scenario.sec 115 - Uptime cs * Second < 30 * Second)
           then wrap32 (Flops cs + 1)
           else Flops cs.
Proof.
  assert (H1 : isGlobalRib Scenario.established = false) by reflexivity.
  assert (H2 : unixInRange
                 (Uptime (CommonState (fsm_peerConfig (fsm Scenario.established)))))
    by (vm_compute; split; [discriminate | reflexivity]).
  split; [exact H1|]. split; [exact H2|].
  destruct (flops_after_state_change (Scenario.sec 115) BGP_FSM_IDLE
              Scenario.established H1) as (peer' & Hrun & _ & Hflops & _).
  exists peer'. split; [exact Hrun | exact (Hflops H2)].
Defined.

(** The overflow of the conversion: with the recorded uptime at the largest
    [int64], the session leaves ESTABLISHED and no flap is counted. *)
Example flap_not_counted_when_uptime_overflows :
  Uptime (CommonState (fsm_peerConfig (fsm Scenario.farUptime))) = 2 ^ 63 - 1 /\
  peerState Scenario.farUptime = BGP_FSM_ESTABLISHED /\
  exists peer',
    handleStateChange (Scenario.sec 115) BGP_FSM_IDLE Scenario.farUptime
      = Ok peer' /\
    Flops (CommonState (fsm_peerConfig (fsm peer'))) =
      Flops (CommonState (fsm_peerConfig (fsm Scenario.farUptime))).
Proof.
  split; [by vm_compute|]. split; [by vm_compute|].
  eexists. split; by vm_compute.
Qed.

(** Scenario S4: down 5 seconds after the session came up counts a flap, down
    60 seconds after does not. *)
Example flap_counting :
  (exists peer',
     handleStateChange (Scenario.sec 115) BGP_FSM_IDLE Scenario.established
       = Ok peer' /\
     Flops (CommonState (fsm_peerConfig (fsm peer'))) = 1) /\
  (exists peer',
     handleStateChange (Scenario.sec 170) BGP_FSM_IDLE Scenario.established
       = Ok peer' /\
     Flops (CommonState (fsm_peerConfig (fsm peer'))) = 0).
Proof. split; eexists; split; by vm_compute. Qed.

(** C8 as it is written fails when the neighbor was disabled: the session
    leaves ESTABLISHED 5 seconds after it came up and the counter, 0 before,
    is 0 after, not 1. *)
Lemma flops_cleared_when_disabled :
  isGlobalRib Scenario.disabled = false /\
  peerState Scenario.disabled = BGP_FSM_ESTABLISHED /\
  Scenario.sec 115
    - Uptime (CommonState (fsm_peerConfig (fsm Scenario.disabled))) * Second
    < 30 * Second /\
  Flops (CommonState (fsm_peerConfig (fsm Scenario.disabled))) = 0 /\
  exists peer',
    handleStateChange (Scenario.sec 115) BGP_FSM_IDLE Scenario.disabled
      = Ok peer' /\
    Flops (CommonState (fsm_peerConfig (fsm peer'))) = 0 /\
    Flops (CommonState (fsm_peerConfig (fsm peer')))
      <> wrap32 (Flops (CommonState (fsm_peerConfig (fsm Scenario.disabled))) + 1).
Proof.
  repeat split; try (by vm_compute).
  eexists. repeat split; by vm_compute.
Qed.

(** C4 as it is written fails on the NOTIFICATION of an administrative
    shutdown: requested while the recorded state is ACTIVE, it is queued on
    [outgoing]. *)
Lemma notification_queued_outside_established :
  peerState Scenario.active <> BGP_FSM_ESTABLISHED /\
  outgoing Scenario.active = [] /\
  exists peer',
    handleREST Scenario.shutdownRequest Scenario.active = Ok peer' /\
    outgoing peer' =
      [NewBGPNotificationMessage BGP_ERROR_CEASE
         BGP_ERROR_SUB_ADMINISTRATIVE_SHUTDOWN []] /\
    outgoing peer' <> outgoing Scenario.active.
Proof.
  split; [by vm_compute|]. split; [by vm_compute|].
  eexists. repeat split; by vm_compute.
Qed.

(** C3 on the code.  The neighbor is 192.0.2.1 and a third party announces a
    path whose nexthop is 192.0.2.1.  The export path records it in the
    Adj-RIB-Out and emits nothing; the ROUTE-REFRESH of the neighbor then
    emits it: the re-emission of the Adj-RIB-Out has no nexthop filter. *)
Lemma route_refresh_reemits_own_nexthop :
  IP_Equal (NeighborAddress (peerConfig Scenario.established))
           (GetNexthop Scenario.pathToNeighbor) = true /\
  exists exported,
    sendUpdateMsgFromPaths [Scenario.pathToNeighbor] Scenario.established
      = Ok exported /\
    outgoing exported = [] /\
    GetOutPathList Scenario.ipv4_unicast (adjRib exported)
      = [Scenario.pathToNeighbor] /\
    exists refreshed,
      handleBGPmessage (Scenario.sec 120) Scenario.routeRefresh exported
        = Ok refreshed /\
      outgoing refreshed =
        [mkBGPMessage BGP_MSG_UPDATE (Body_Update [Scenario.pathToNeighbor])].
Proof.
  split; [by vm_compute|].
  eexists. split; [by vm_compute|]. split; [by vm_compute|].
  split; [by vm_compute|].
  eexists. split; by vm_compute.
Qed.

(** * More of the session core *)

Section PeerExtras.

Context {BGPUpdate TableManager : Type} `{!Collaborators BGPUpdate TableManager}.

Local Abbreviation Peer' := (Peer (BGPUpdate := BGPUpdate) (TableManager := TableManager)).
Local Abbreviation BGPMessage' := (BGPMessage BGPUpdate).

Implicit Types (peer : Peer') (m : BGPMessage').

(** ** Handlers that write route data only *)

Lemma routeDataOnly_refl peer : routeDataOnly peer peer.
Proof.
  exists (adjRib peer), (rib peer), (outgoing peer), (trace peer).
  by destruct peer.
Qed.

Lemma routeDataOnly_trans peer1 peer2 peer3 :
  routeDataOnly peer1 peer2 -> routeDataOnly peer2 peer3 ->
  routeDataOnly peer1 peer3.
Proof.
  intros (a & r & o & t & ->) (a' & r' & o' & t' & ->).
  by exists a', r', o', t'.
Qed.

Lemma routeDataOnly_outgoing (o : list BGPMessage') peer :
  routeDataOnly peer (set_outgoing o peer).
Proof.
  exists (adjRib peer), (rib peer), o, (trace peer). by destruct peer.
Qed.

Lemma routeDataOnly_trace (t : list effect) peer :
  routeDataOnly peer (set_trace t peer).
Proof.
  exists (adjRib peer), (rib peer), (outgoing peer), t. by destruct peer.
Qed.

Lemma routeDataOnly_adjRib (a : AdjRib) peer :
  routeDataOnly peer (set_adjRib a peer).
Proof.
  exists a, (rib peer), (outgoing peer), (trace peer). by destruct peer.
Qed.

Lemma routeDataOnly_rib (r : TableManager) peer :
  routeDataOnly peer (set_rib r peer).
Proof.
  exists (adjRib peer), r, (outgoing peer), (trace peer). by destruct peer.
Qed.

Lemma forM_rel {A : Type} (R : Peer' -> Peer' -> Prop)
  (body : A -> Peer' -> result Peer') (l : list A) :
  (forall peer, R peer peer) ->
  (forall p1 p2 p3, R p1 p2 -> R p2 p3 -> R p1 p3) ->
  (forall x peer peer', body x peer = Ok peer' -> R peer peer') ->
  forall peer peer', forM body l peer = Ok peer' -> R peer peer'.
Proof.
  intros Hrefl Htrans Hbody. induction l as [|x l IH]; intros peer peer' Hrun.
  - inversion Hrun. apply Hrefl.
  - cbn [forM] in Hrun. destruct (body x peer) as [peer1|] eqn:Hx; [|done].
    eapply Htrans; [by eapply Hbody|by apply IH].
Qed.

Lemma sendMessage_established m peer :
  peerState peer = BGP_FSM_ESTABLISHED ->
  isUpdateMsg m = true ->
  sendMessage m peer = Ok (push_outgoing (queuedForm peer m) peer).
Proof.
  intros Hst [Htype Hbody]%andb_true_iff. apply bool_decide_eq_true in Htype.
  unfold sendMessage, queuedForm.
  rewrite decide_False by (by intros ?). rewrite decide_False by (by intros ?).
  destruct (capMap peer !! BGP_CAP_FOUR_OCTET_AS_NUMBER); [by destruct (Body m)|].
  by destruct (Body m).
Qed.

Lemma eta_outgoing peer : set_outgoing (outgoing peer) peer = peer.
Proof. by destruct peer. Qed.

(** X1.  In ESTABLISHED, UPDATEs given to [sendMessages] are all queued, in
    the order given, behind what [outgoing] holds, each in its 2-octet form
    unless the remote advertised the 4-octet AS capability; nothing else of
    the peer changes. *)
Theorem sendMessages_established (msgs : list BGPMessage') peer :
  peerState peer = BGP_FSM_ESTABLISHED ->
  forallb isUpdateMsg msgs = true ->
  sendMessages msgs peer =
    Ok (set_outgoing (outgoing peer ++ map (queuedForm peer) msgs) peer).
Proof.
  unfold sendMessages. revert peer.
  induction msgs as [|m msgs IH]; intros peer Hst Hall.
  - cbn [forM map]. by rewrite app_nil_r, eta_outgoing.
  - cbn [forallb] in Hall. apply andb_true_iff in Hall as [Hm Hall].
    cbn [forM]. rewrite (sendMessage_established m peer Hst Hm).
    change (forM sendMessage msgs (push_outgoing (queuedForm peer m) peer) =
            Ok (set_outgoing (outgoing peer ++ map (queuedForm peer) (m :: msgs)) peer)).
    rewrite (IH (push_outgoing (queuedForm peer m) peer) Hst Hall).
    unfold push_outgoing, set_outgoing, queuedForm.
    cbn [outgoing capMap map]. by rewrite <- app_assoc.
Qed.

Lemma sendMessage_shape m peer peer' :
  sendMessage m peer = Ok peer' ->
  exists sent, peer' = set_outgoing (outgoing peer ++ sent) peer /\
               Forall (fun m => Header_Type m = BGP_MSG_UPDATE) sent /\
               (peerState peer <> BGP_FSM_ESTABLISHED -> sent = []).
Proof.
  unfold sendMessage. intros Hrun.
  destruct (decide (peerState peer <> BGP_FSM_ESTABLISHED)) as [Hst|Hst].
  - simplify_eq. exists []. by rewrite app_nil_r, eta_outgoing.
  - destruct (decide (Header_Type m <> BGP_MSG_UPDATE)) as [|Htype]; [done|].
    apply dec_stable in Htype.
    destruct (capMap peer !! BGP_CAP_FOUR_OCTET_AS_NUMBER).
    + simplify_eq. exists [m]. split; [done|]. split; [by constructor|done].
    + destruct (Body m); simplify_eq.
      eexists [_]. split; [done|]. split; [by constructor|done].
Qed.

Lemma sendMessages_shape (msgs : list BGPMessage') peer peer' :
  sendMessages msgs peer = Ok peer' ->
  exists sent, peer' = set_outgoing (outgoing peer ++ sent) peer /\
               Forall (fun m => Header_Type m = BGP_MSG_UPDATE) sent /\
               (peerState peer <> BGP_FSM_ESTABLISHED -> sent = []).
Proof.
  unfold sendMessages. revert peer.
  induction msgs as [|m msgs IH]; intros peer Hrun.
  - inversion Hrun. exists []. by rewrite app_nil_r, eta_outgoing.
  - cbn [forM] in Hrun. destruct (sendMessage m peer) as [peer1|] eqn:Hm; [|done].
    apply sendMessage_shape in Hm as (sent1 & -> & Hall1 & Hnone1).
    apply IH in Hrun as (sent2 & -> & Hall2 & Hnone2).
    exists (sent1 ++ sent2). split; [|split].
    + cbn. by rewrite app_assoc.
    + by apply Forall_app.
    + intros Hst. by rewrite Hnone1, (Hnone2 Hst).
Qed.

(** X2.  In ESTABLISHED a message that is not an UPDATE stops the program
    when it reaches [sendMessages], wherever it stands in the list. *)
Theorem sendMessages_fatal_on_non_update (msgs : list BGPMessage') peer :
  peerState peer = BGP_FSM_ESTABLISHED ->
  Exists (fun m => Header_Type m <> BGP_MSG_UPDATE) msgs ->
  exists why, sendMessages msgs peer = Fatal why.
Proof.
  unfold sendMessages. intros Hst Hbad. revert peer Hst.
  induction Hbad as [m msgs Hm|m msgs _ IH]; intros peer Hst; cbn [forM].
  - unfold sendMessage. rewrite decide_False by (by intros ?).
    rewrite decide_True by done. by eexists.
  - destruct (sendMessage m peer) as [peer1|why] eqn:Hm; [|by eexists].
    apply sendMessage_shape in Hm as (sent & -> & _). by apply IH.
Qed.

(** ** ROUTE-REFRESH and UPDATE *)

(** X3.  A ROUTE-REFRESH for a family that is not negotiated, or from a
    remote that did not advertise the route-refresh capability, is ignored:
    the peer is left as it is. *)
Theorem route_refresh_ignored (now : Time) m (AFI SAFI : Z) peer :
  Header_Type m = BGP_MSG_ROUTE_REFRESH ->
  Body m = Body_RouteRefresh AFI SAFI ->
  rfMap peer !! AfiSafiToRouteFamily AFI SAFI = None \/
  capMap peer !! BGP_CAP_ROUTE_REFRESH = None ->
  handleBGPmessage now m peer = Ok peer.
Proof.
  intros Htype Hbody Hmiss. unfold handleBGPmessage.
  rewrite Htype, Hbody. simpl. unfold handleRouteRefresh.
  destruct Hmiss as [->|Hcap]; [done|].
  rewrite Hcap. by destruct (rfMap peer !! _).
Qed.

Lemma sentOn_toSiblings (pm : peerMsg) peer (a : string) (s : serverMsgDataPeer) :
  siblings peer !! a = Some s ->
  (forall a' s', siblings peer !! a' = Some s' ->
                 peerMsgCh s' = peerMsgCh s -> a' = a) ->
  sentOn (peerMsgCh s) (toSiblings pm peer) = [pm].
Proof.
  intros Has Huniq. unfold toSiblings.
  apply (sentOn_once _ _ _ a s).
  - apply NoDup_fst_map_to_list.
  - by apply elem_of_map_to_list.
  - reflexivity.
  - intros a' s' Hin. apply Huniq. by apply elem_of_map_to_list.
Qed.

(** X4.  An empty path list is not sent to anybody.  A path list that is not
    empty is sent as one PATH message per entry of the sibling directory: a
    sibling whose mailbox no other entry shares gets exactly that message
    once. *)
Theorem sendPathsToSiblings_fan_out (pathList : list Path) peer :
  sendPathsToSiblings [] peer = peer /\
  (pathList <> [] ->
   sendPathsToSiblings pathList peer =
     set_trace (trace peer ++ toSiblings (pathMsg pathList) peer) peer /\
   forall a s,
     siblings peer !! a = Some s ->
     (forall a' s', siblings peer !! a' = Some s' ->
                    peerMsgCh s' = peerMsgCh s -> a' = a) ->
     sentOn (peerMsgCh s) (toSiblings (pathMsg pathList) peer) = [pathMsg pathList]).
Proof.
  split; [reflexivity|]. intros Hne. split.
  - unfold sendPathsToSiblings. rewrite decide_False; [reflexivity|].
    by destruct pathList.
  - intros a s. apply sentOn_toSiblings.
Qed.

(** X5.  An UPDATE that passes validation is recorded in the Adj-RIB-In and
    fanned out: the path list built from the message, its AS paths normalised
    to four octets, is applied to the Adj-RIB-In and sent to every sibling
    when it is not empty; nothing is queued on [outgoing], and the time of
    the last UPDATE is set to the clock. *)
Theorem valid_update_is_recorded (now : Time) m (body : BGPUpdate) peer :
  Header_Type m = BGP_MSG_UPDATE ->
  Body m = Body_Update body ->
  ValidateUpdateMsg body (rfMap peer) = None ->
  exists peer' pathList,
    handleBGPmessage now m peer = Ok peer' /\
    pathList = ToPathList (mkBGPMessage BGP_MSG_UPDATE
                             (Body_Update (UpdatePathAttrs4ByteAs body)))
                          (peerInfo peer) /\
    adjRib peer' = UpdateIn pathList (adjRib peer) /\
    outgoing peer' = outgoing peer /\
    trace peer' = trace peer ++
      match pathList with
      | [] => []
      | _ => toSiblings (pathMsg pathList) peer
      end /\
    UpdateRecvTime (CommonState (peerConfig peer')) = Unix now.
Proof.
  intros Htype Hbody Hvalid. unfold handleBGPmessage.
  rewrite Htype, Hbody. simpl. unfold handleUpdate. simpl.
  rewrite Hvalid, Htype.
  eexists _, _. split; [reflexivity|]. split; [reflexivity|].
  unfold sendPathsToSiblings.
  destruct (ToPathList _ _) as [|p pathList]; simpl.
  - by rewrite app_nil_r.
  - done.
Qed.

(** ** The export path *)

Lemma egressPath_filter peer (p : Path) :
  egressPath peer p = if egressOk peer p then [p] else [].
Proof.
  unfold egressPath, egressOk.
  destruct (IP_Equal _ _); [by rewrite andb_false_r|].
  rewrite andb_true_r. by case_bool_decide.
Qed.

Lemma egressPaths_filter peer (paths : list Path) :
  egressPaths peer paths = List.filter (egressOk peer) paths.
Proof.
  unfold egressPaths.
  assert (Hgen : forall acc,
    foldl (fun sendpathList p => sendpathList ++ egressPath peer p) acc paths
    = acc ++ List.filter (egressOk peer) paths).
  { induction paths as [|p paths IH]; intros acc; cbn [foldl List.filter].
    - by rewrite app_nil_r.
    - rewrite IH, egressPath_filter, <- app_assoc.
      by destruct (egressOk peer p). }
  apply Hgen.
Qed.

(** X6.  The export path records in the Adj-RIB-Out every path that comes
    out of the policy stage, and builds UPDATEs for exactly those of them
    whose family is negotiated and whose nexthop is not the neighbor, in
    their order. *)
Theorem export_records_then_filters (pList : list Path) peer :
  let exported :=
    exportPaths (exportPolicies peer) (defaultExportPolicy peer)
      (CloneAndUpdatePathAttrs pList (globalConfig peer) (peerConfig peer)) in
  sendUpdateMsgFromPaths pList peer =
    sendMessages
      (CreateUpdateMsgFromPaths (List.filter (egressOk peer) exported))
      (set_adjRib (UpdateOut exported (adjRib peer)) peer).
Proof.
  intros exported. unfold sendUpdateMsgFromPaths.
  by rewrite egressPaths_filter.
Qed.

(** X7.  Outside ESTABLISHED the export path never fails and queues nothing,
    but the Adj-RIB-Out is updated all the same: it then holds paths that
    were not sent. *)
Theorem export_outside_established (pList : list Path) peer :
  peerState peer <> BGP_FSM_ESTABLISHED ->
  sendUpdateMsgFromPaths pList peer =
    Ok (set_adjRib
          (UpdateOut
             (exportPaths (exportPolicies peer) (defaultExportPolicy peer)
                (CloneAndUpdatePathAttrs pList (globalConfig peer)
                   (peerConfig peer)))
             (adjRib peer)) peer).
Proof.
  intros Hst. unfold sendUpdateMsgFromPaths.
  by rewrite sendMessages_not_established.
Qed.

(** ** Messages of the siblings *)

Lemma sendMessages_routeDataOnly (msgs : list BGPMessage') peer peer' :
  sendMessages msgs peer = Ok peer' -> routeDataOnly peer peer'.
Proof.
  intros (sent & -> & _)%sendMessages_shape. apply routeDataOnly_outgoing.
Qed.

Lemma sendPathsToSiblings_routeDataOnly (pathList : list Path) peer :
  routeDataOnly peer (sendPathsToSiblings pathList peer).
Proof.
  unfold sendPathsToSiblings. case_decide; [apply routeDataOnly_refl|].
  apply routeDataOnly_trace.
Qed.

Lemma sendUpdateMsgFromPaths_routeDataOnly (pList : list Path) peer peer' :
  sendUpdateMsgFromPaths pList peer = Ok peer' -> routeDataOnly peer peer'.
Proof.
  unfold sendUpdateMsgFromPaths. intros Hrun%sendMessages_routeDataOnly.
  eapply routeDataOnly_trans; [apply routeDataOnly_adjRib|exact Hrun].
Qed.

Lemma peerDownFamily_routeDataOnly (data : peerMsgData) (rf : RouteFamily)
  peer peer' :
  peerDownFamily data rf peer = Ok peer' -> routeDataOnly peer peer'.
Proof.
  unfold peerDownFamily. intros Hrun.
  destruct data as [|info]; [done|].
  destruct (DeletePathsforPeer (rib peer) info rf) as [rib' pList].
  eapply routeDataOnly_trans; [apply (routeDataOnly_rib rib')|].
  cbn [peerConfig set_rib isGlobalRib] in Hrun.
  destruct (RouteServerClient (peerConfig peer)).
  - by apply sendUpdateMsgFromPaths_routeDataOnly in Hrun.
  - destruct (isGlobalRib peer); simplify_eq.
    + apply sendPathsToSiblings_routeDataOnly.
    + apply routeDataOnly_refl.
Qed.

Lemma handlePeerMsg_frame (pm : peerMsg) peer peer' :
  handlePeerMsg pm peer = Ok peer' -> routeDataOnly peer peer'.
Proof.
  unfold handlePeerMsg. intros Hrun.
  destruct (decide (msgType pm = PEER_MSG_PATH)).
  - destruct (msgData pm) as [pList|]; [|done].
    destruct (RouteServerClient (peerConfig peer) || isGlobalRib peer).
    + destruct (ProcessPaths _ _) as [rib' paths'].
      eapply routeDataOnly_trans; [apply (routeDataOnly_rib rib')|].
      cbn [isGlobalRib set_rib] in Hrun.
      destruct (isGlobalRib peer); simplify_eq.
      * apply sendPathsToSiblings_routeDataOnly.
      * by apply sendUpdateMsgFromPaths_routeDataOnly in Hrun.
    + destruct (isGlobalRib peer); simplify_eq.
      * apply sendPathsToSiblings_routeDataOnly.
      * by apply sendUpdateMsgFromPaths_routeDataOnly in Hrun.
  - destruct (decide (msgType pm = PEER_MSG_PEER_DOWN)).
    + revert Hrun. apply forM_rel.
      * apply routeDataOnly_refl.
      * apply routeDataOnly_trans.
      * intros rf. apply peerDownFamily_routeDataOnly.
    + simplify_eq. apply routeDataOnly_refl.
Qed.

(** X8.  A message of a sibling, whatever it is, changes nothing of the peer
    but its route data: the Adj-RIB, the shared table, [outgoing] and the
    sends to siblings.  Configuration, FSM, negotiated families and
    capabilities, sibling directory and policies are as before. *)
Theorem handlePeerMsg_routeDataOnly (pm : peerMsg) peer peer' :
  handlePeerMsg pm peer = Ok peer' ->
  routeDataOnly peer peer' /\
  globalConfig peer' = globalConfig peer /\
  peerConfig peer' = peerConfig peer /\
  fsm peer' = fsm peer /\
  rfMap peer' = rfMap peer /\
  capMap peer' = capMap peer /\
  peerInfo peer' = peerInfo peer /\
  siblings peer' = siblings peer /\
  importPolicies peer' = importPolicies peer /\
  exportPolicies peer' = exportPolicies peer.
Proof.
  intros Hframe%handlePeerMsg_frame. split; [exact Hframe|].
  destruct Hframe as (a & r & o & t & ->). done.
Qed.

(** ** The policy stage *)

(** X9.  Import and export run the same policy stage: for every chain,
    default verdict and path list the two loops give the same list. *)
Theorem import_export_same_stage (policies : list Policy)
  (d : DefaultPolicyType) (pList : list Path) :
  importPaths policies d pList = exportPaths policies d pList.
Proof.
  unfold importPaths, exportPaths. apply foldl_pointwise.
  intros paths p. f_equal. unfold importPath, exportPath.
  by destruct (IsWithdraw p).
Qed.

Lemma importPaths_flat_map (policies : list Policy) (d : DefaultPolicyType)
  (pList : list Path) :
  importPaths policies d pList = flat_map (importPath policies d) pList.
Proof.
  unfold importPaths.
  assert (Hgen : forall acc,
    foldl (fun paths p => paths ++ importPath policies d p) acc pList
    = acc ++ flat_map (importPath policies d) pList).
  { induction pList as [|p pList IH]; intros acc; cbn [foldl flat_map].
    - by rewrite app_nil_r.
    - by rewrite IH, app_assoc. }
  apply Hgen.
Qed.

Lemma importPath_length (policies : list Policy) (d : DefaultPolicyType)
  (p : Path) :
  (length (importPath policies d p) <= 1)%nat.
Proof.
  unfold importPath.
  destruct (IsWithdraw p); simpl; [lia|].
  destruct (decide _); simpl; [|lia].
  destruct (applyPolicies policies p) as [[] [?|]]; simpl; try lia;
    destruct (decide _); simpl; lia.
Qed.

(** X10.  The policy stage never adds a path, and a withdrawal always comes
    out of it, whatever the chain and the default verdict. *)
Theorem policy_stage_keeps_withdrawals (policies : list Policy)
  (d : DefaultPolicyType) (pList : list Path) :
  (length (importPaths policies d pList) <= length pList)%nat /\
  forall p, p ∈ pList -> IsWithdraw p = true ->
            p ∈ importPaths policies d pList.
Proof.
  rewrite importPaths_flat_map. split.
  - induction pList as [|p pList IH]; cbn [flat_map]; [done|].
    rewrite length_app. cbn [length].
    pose proof (importPath_length policies d p). lia.
  - intros p Hin Hw. apply list_elem_of_In, in_flat_map.
    exists p. split; [by apply list_elem_of_In|].
    unfold importPath. rewrite Hw. by left.
Qed.

(** X11.  What the import stage does with an announced path follows the
    first policy of the chain that matches it: a REJECT drops the path,
    another action hands on the path the policy returns, and the default
    verdict plays no part.  When no policy of a chain that is not empty
    matches, the default verdict decides. *)
Theorem import_follows_first_match (pre : list Policy) (d : DefaultPolicyType)
  (p : Path) :
  IsWithdraw p = false ->
  Forall (noMatch p) pre ->
  (pre <> [] ->
   importPath pre d p =
     if decide (d = DEFAULT_POLICY_TYPE_ACCEPT_ROUTE) then [p] else []) /\
  forall pol post action newPath,
    Apply pol p = (true, action, newPath) ->
    importPath (pre ++ pol :: post) d p =
      if decide (action = ROUTE_TYPE_REJECT) then [] else [newPath].
Proof.
  intros Hw Hpre. split.
  - intros Hne. unfold importPath. rewrite Hw. cbn [negb].
    rewrite decide_True by (by destruct pre).
    rewrite <- (app_nil_r pre) at 1.
    by rewrite (applyPolicies_skip pre [] p Hpre).
  - intros pol post action newPath Hpol.
    unfold importPath. rewrite Hw. cbn [negb].
    rewrite decide_True by (rewrite length_app; cbn [length]; lia).
    rewrite (applyPolicies_skip pre (pol :: post) p Hpre).
    cbn [applyPolicies]. rewrite Hpol.
    by destruct (decide (action = ROUTE_TYPE_REJECT)).
Qed.

Lemma omap_length_le {A B : Type} (f : A -> option B) (l : list A) :
  (length (omap f l) <= length l)%nat.
Proof.
  induction l as [|x l IH]; cbn; [done|].
  destruct (f x); cbn; lia.
Qed.

Lemma omap_Forall2_filter {A B : Type} (f : A -> option B) (l : list A) :
  Forall2 (fun x y => f x = Some y) (filter (fun x => is_Some (f x)) l)
          (omap f l).
Proof.
  induction l as [|x l IH]; [constructor|].
  rewrite filter_cons. cbn [omap list_omap].
  destruct (f x) as [y|] eqn:Hx.
  - rewrite decide_True by eauto. by constructor.
  - rewrite decide_False by apply is_Some_None. exact IH.
Qed.

(** X12.  Installing policies swaps both chains and nothing else.  Each
    chain is the configured names that the map binds, resolved one by one in
    the configured order (a name configured twice gives its policy twice), so
    names the map does not bind are skipped and neither chain is longer than
    its list of names; a policy is in a chain exactly when the map binds it to
    a configured name of that chain; what an earlier map installed is gone. *)
Theorem setPolicy_installs (policyMap : gmap string Policy) peer :
  let importNames := ImportPolicies (NeighborApplyPolicy (peerConfig peer)) in
  let exportNames := ExportPolicies (NeighborApplyPolicy (peerConfig peer)) in
  let peer' := setPolicy policyMap peer in
  Forall2 (fun name pol => policyMap !! name = Some pol)
    (filter (fun name => is_Some (policyMap !! name)) importNames)
    (importPolicies peer') /\
  Forall2 (fun name pol => policyMap !! name = Some pol)
    (filter (fun name => is_Some (policyMap !! name)) exportNames)
    (exportPolicies peer') /\
  (length (importPolicies peer') <= length importNames)%nat /\
  (length (exportPolicies peer') <= length exportNames)%nat /\
  (forall pol, pol ∈ importPolicies peer' <->
     exists name, name ∈ importNames /\ policyMap !! name = Some pol) /\
  (forall pol, pol ∈ exportPolicies peer' <->
     exists name, name ∈ exportNames /\ policyMap !! name = Some pol) /\
  peer' = set_exportPolicies (exportPolicies peer')
            (set_importPolicies (importPolicies peer') peer) /\
  (forall earlier,
     setPolicy policyMap (setPolicy earlier peer) = peer').
Proof.
  cbv zeta. repeat split.
  - apply omap_Forall2_filter.
  - apply omap_Forall2_filter.
  - cbn. apply omap_length_le.
  - cbn. apply omap_length_le.
  - cbn. apply list_elem_of_omap.
  - cbn. apply list_elem_of_omap.
  - cbn. apply list_elem_of_omap.
  - cbn. apply list_elem_of_omap.
Qed.

(** ** Management requests *)

Lemma updatesFor_queuedOk (st : Z) (sent : list BGPMessage') :
  updatesFor st sent -> Forall (queuedOk st) sent.
Proof.
  intros [Hall Hnone]. destruct (decide (st = BGP_FSM_ESTABLISHED)) as [->|Hst].
  - eapply Forall_impl; [exact Hall|]. intros m Hm. by right.
  - by rewrite (Hnone Hst).
Qed.

Lemma sendMessages_updatesFor (msgs : list BGPMessage') peer peer' :
  sendMessages msgs peer = Ok peer' ->
  exists sent, peer' = set_outgoing (outgoing peer ++ sent) peer /\
               updatesFor (peerState peer) sent.
Proof. intros (sent & ? & ? & ?)%sendMessages_shape. by exists sent. Qed.

Lemma toSiblings_isPeerSend (pm : peerMsg) peer :
  Forall isPeerSend (toSiblings pm peer).
Proof.
  unfold toSiblings. apply Forall_forall. intros e Hin.
  apply list_elem_of_fmap in Hin as [s [-> _]]. by eexists _, _.
Qed.

Lemma sendPathsToSiblings_shape (pathList : list Path) peer :
  exists sends,
    sendPathsToSiblings pathList peer = set_trace (trace peer ++ sends) peer /\
    Forall isPeerSend sends.
Proof.
  unfold sendPathsToSiblings. case_decide.
  - exists []. split; [|done]. rewrite app_nil_r. by destruct peer.
  - eexists. split; [reflexivity|]. apply toSiblings_isPeerSend.
Qed.

Lemma handleREST_shape (req : RestRequest) peer peer' :
  handleREST req peer = Ok peer' ->
  exists f new sends data,
    peer' = set_trace (trace peer ++ sends ++
                         [SendRestResponse (ResponseCh req) data])
              (set_outgoing (outgoing peer ++ new) (set_fsm f peer)) /\
    Forall isPeerSend sends /\
    Forall (queuedOk (peerState peer)) new.
Proof.
  unfold handleREST, softResetOut, offerAdminState, mbind, result_bind.
  intros Hrun.
  assert (Hplain : forall data,
    exists f new sends data',
      emit [SendRestResponse (ResponseCh req) data] peer =
        set_trace (trace peer ++ sends ++
                     [SendRestResponse (ResponseCh req) data'])
          (set_outgoing (outgoing peer ++ new) (set_fsm f peer)) /\
      Forall isPeerSend sends /\ Forall (queuedOk (peerState peer)) new).
  { intros data. exists (fsm peer), [], [], data.
    rewrite app_nil_r. split; [by destruct peer|done]. }
  assert (Hnotify : forall f code subcode,
    exists f' new sends data',
      emit [SendRestResponse (ResponseCh req) Rest_NoData]
        (push_outgoing (NewBGPNotificationMessage code subcode [])
           (set_fsm f peer)) =
        set_trace (trace peer ++ sends ++
                     [SendRestResponse (ResponseCh req) data'])
          (set_outgoing (outgoing peer ++ new) (set_fsm f' peer)) /\
      Forall isPeerSend sends /\ Forall (queuedOk (peerState peer)) new).
  { intros f code subcode. exists f, [NewBGPNotificationMessage code subcode []],
      [], Rest_NoData.
    split; [reflexivity|]. split; [done|]. repeat constructor. }
  destruct (RequestType req).
  - repeat case_decide; repeat case_match; simplify_eq; apply Hplain.
  - repeat case_decide; repeat case_match; simplify_eq; apply Hplain.
  - simplify_eq. destruct (Hnotify (fsm peer) BGP_ERROR_CEASE
                             BGP_ERROR_SUB_ADMINISTRATIVE_SHUTDOWN)
      as (f & new & sends & data & Heq & ?).
    exists f, new, sends, data. split; [|done]. rewrite <- Heq. by destruct peer.
  - simplify_eq. apply Hnotify.
  - destruct (sendPathsToSiblings_shape
                (GetInPathList (req_RouteFamily req) (adjRib peer)) peer)
      as (sends & Hsends & Hall).
    rewrite Hsends in Hrun.
    destruct (sendMessages _ _) as [peer1|] eqn:Hsend; [|done].
    apply sendMessages_updatesFor in Hsend as (sent & -> & Hsent).
    simplify_eq.
    exists (fsm peer), sent, sends, Rest_NoData.
    split; [|split; [done|by apply updatesFor_queuedOk]].
    unfold emit. cbn. rewrite <- app_assoc. by destruct peer.
  - destruct (sendPathsToSiblings_shape
                (GetInPathList (req_RouteFamily req) (adjRib peer)) peer)
      as (sends & Hsends & Hall).
    rewrite Hsends in Hrun. simplify_eq.
    exists (fsm peer), [], sends, Rest_NoData.
    split; [|done]. unfold emit. cbn.
    rewrite <- app_assoc, app_nil_r. by destruct peer.
  - destruct (sendMessages _ _) as [peer1|] eqn:Hsend; [|done].
    apply sendMessages_updatesFor in Hsend as (sent & -> & Hsent).
    simplify_eq.
    exists (fsm peer), sent, [], Rest_NoData.
    split; [|split; [done|by apply updatesFor_queuedOk]].
    by destruct peer.
  - simplify_eq. apply Hplain.
  - simplify_eq. apply Hplain.
  - case_decide; simplify_eq.
    + eexists _, [], [], _. rewrite app_nil_r. split; [reflexivity|done].
    + apply Hplain.
  - case_decide; simplify_eq.
    + eexists _, [], [], _. rewrite app_nil_r. split; [reflexivity|done].
    + apply Hplain.
  - simplify_eq. apply Hplain.
Qed.

(** X13.  A management request that is answered gets one response, on its
    own response channel, after the sends to siblings that it caused; and it
    writes nothing of the peer but the FSM fields and [outgoing], where it
    only adds messages allowed in the recorded state. *)
Theorem handleREST_answers_once (req : RestRequest) peer peer' :
  handleREST req peer = Ok peer' ->
  exists f new sends data,
    peer' = set_trace (trace peer ++ sends ++
                         [SendRestResponse (ResponseCh req) data])
              (set_outgoing (outgoing peer ++ new) (set_fsm f peer)) /\
    Forall isPeerSend sends /\
    Forall (queuedOk (peerState peer)) new /\
    adjRib peer' = adjRib peer /\
    peerConfig peer' = peerConfig peer /\
    rfMap peer' = rfMap peer /\
    siblings peer' = siblings peer.
Proof.
  intros (f & new & sends & data & -> & Hsends & Hnew)%handleREST_shape.
  exists f, new, sends, data. done.
Qed.

(** X14.  The channel of administrative requests holds one request at most.
    A request to enable or disable the neighbor is put on it when it is
    empty; while one is pending the next is not stored, the FSM is left as it
    is, and the caller is told that the previous request is still
    remaining. *)
Theorem admin_request_never_overwritten (req : RestRequest) peer :
  RequestType req = REQ_NEIGHBOR_ENABLE \/
  RequestType req = REQ_NEIGHBOR_DISABLE ->
  exists peer' data,
    handleREST req peer = Ok peer' /\
    trace peer' = trace peer ++ [SendRestResponse (ResponseCh req) data] /\
    adminState (fsm peer') = adminState (fsm peer) /\
    (adminStateCh (fsm peer) = [] ->
       adminStateCh (fsm peer') =
         [match RequestType req with
          | REQ_NEIGHBOR_ENABLE => ADMIN_STATE_UP
          | _ => ADMIN_STATE_DOWN
          end]) /\
    (adminStateCh (fsm peer) <> [] ->
       fsm peer' = fsm peer /\
       data = Rest_Result "previous request is still remaining").
Proof.
  intros Hreq. unfold handleREST, offerAdminState, mbind, result_bind.
  destruct (adminStateCh (fsm peer)) as [|a ch] eqn:Hch.
  - destruct Hreq as [Hreq|Hreq]; rewrite Hreq;
      rewrite decide_True by (cbn; lia);
      eexists _, _; (split; [reflexivity|]); cbn; done.
  - destruct Hreq as [Hreq|Hreq]; rewrite Hreq;
      rewrite decide_False by (cbn; lia);
      eexists _, _; (split; [reflexivity|]); cbn; done.
Qed.

(** ** Messages of the server *)

Lemma routeDataOnly_siblings peer peer' :
  routeDataOnly peer peer' -> siblings peer' = siblings peer.
Proof. by intros (a & r & o & t & ->). Qed.

Lemma routeDataOnly_identity peer peer' :
  routeDataOnly peer peer' -> identity peer' = identity peer.
Proof. by intros (a & r & o & t & ->). Qed.

Lemma peerAddedFamily_routeDataOnly (rf : RouteFamily) peer peer' :
  peerAddedFamily rf peer = Ok peer' -> routeDataOnly peer peer'.
Proof.
  unfold peerAddedFamily. intros Hrun.
  repeat case_match; simplify_eq;
    apply sendPathsToSiblings_routeDataOnly || apply routeDataOnly_refl.
Qed.

Lemma peerDeletedFamily_routeDataOnly (d : PeerInfo) (rf : RouteFamily)
  peer peer' :
  peerDeletedFamily d rf peer = Ok peer' -> routeDataOnly peer peer'.
Proof.
  unfold peerDeletedFamily. intros Hrun.
  destruct (DeletePathsforPeer (rib peer) d rf) as [rib' pList].
  eapply routeDataOnly_trans; [apply (routeDataOnly_rib rib')|].
  cbn [peerConfig set_rib] in Hrun.
  destruct (RouteServerClient (peerConfig peer)); simplify_eq.
  - by apply sendUpdateMsgFromPaths_routeDataOnly in Hrun.
  - apply sendPathsToSiblings_routeDataOnly.
Qed.

Lemma forM_routeDataOnly {A : Type} (body : A -> Peer' -> result Peer')
  (l : list A) :
  (forall x peer peer', body x peer = Ok peer' -> routeDataOnly peer peer') ->
  forall peer peer', forM body l peer = Ok peer' -> routeDataOnly peer peer'.
Proof.
  apply forM_rel; [apply routeDataOnly_refl|apply routeDataOnly_trans].
Qed.

(** X15.  The sibling directory is written by the server alone: PEER-ADDED
    binds the sibling to the text of its address, PEER-DELETED removes the
    entry of the address it names, and the removal of an address that is not
    in the directory leaves the whole peer as it is.  No other message of the
    server touches the directory. *)
Theorem sibling_directory_updates (sm : serverMsg) peer peer' :
  handleServerMsg sm peer = Ok peer' ->
  siblings peer' =
    match srv_msgType sm, srv_msgData sm with
    | SRV_MSG_PEER_ADDED, Srv_Peer d =>
        <[IP_String (address d) := d]> (siblings peer)
    | SRV_MSG_PEER_DELETED, Srv_PeerInfo d =>
        delete (IP_String (Address d)) (siblings peer)
    | _, _ => siblings peer
    end /\
  match srv_msgType sm, srv_msgData sm with
  | SRV_MSG_PEER_DELETED, Srv_PeerInfo d =>
      siblings peer !! IP_String (Address d) = None -> peer' = peer
  | _, _ => True
  end.
Proof.
  unfold handleServerMsg. intros Hrun.
  destruct (srv_msgType sm); destruct (srv_msgData sm) as [d|d|req|d];
    simplify_eq; try done.
  - apply forM_routeDataOnly in Hrun; [|apply peerAddedFamily_routeDataOnly].
    by apply routeDataOnly_siblings in Hrun.
  - destruct (siblings peer !! IP_String (Address d)) eqn:Hd.
    + apply forM_routeDataOnly in Hrun;
        [|intros rf; apply peerDeletedFamily_routeDataOnly].
      by apply routeDataOnly_siblings in Hrun.
    + simplify_eq. by rewrite delete_id.
  - by apply handleREST_shape in Hrun as (f & new & sends & data & -> & _).
Qed.

(** ** What no handler writes *)

Lemma handleOpen_identity (body : BGPOpen) peer peer' :
  handleOpen body peer = Ok peer' -> identity peer' = identity peer.
Proof.
  unfold handleOpen. intros Hrun.
  destruct (forM openParameter _ _) as [[cm r]|]; by simplify_eq/=.
Qed.

Lemma handleBGPmessage_identity (now : Time) m peer peer' :
  handleBGPmessage now m peer = Ok peer' -> identity peer' = identity peer.
Proof.
  unfold handleBGPmessage. intros Hrun.
  repeat case_decide; repeat case_match; simplify_eq; try done.
  - by eapply handleOpen_identity.
  - unfold handleRouteRefresh in Hrun. repeat case_match; simplify_eq; try done.
    by apply sendMessages_routeDataOnly, routeDataOnly_identity in Hrun.
  - unfold handleUpdate in Hrun.
    repeat case_match; repeat case_decide; simplify_eq; try done.
    match goal with
    | |- identity (sendPathsToSiblings ?l ?q) = _ =>
        by rewrite (routeDataOnly_identity q _
                      (sendPathsToSiblings_routeDataOnly l q))
    end.
Qed.

Lemma loopEntry_identity (now : Time) peer peer' :
  loopEntry now peer = Ok peer' -> identity peer' = identity peer.
Proof.
  unfold loopEntry. intros Hrun.
  cbn [isGlobalRib set_outgoing] in Hrun.
  destruct (isGlobalRib peer) eqn:Hglobal; [by simplify_eq|].
  case_decide.
  - destruct (forM _ _ _) as [peer1|] eqn:Hsend; simplify_eq/=.
    apply forM_routeDataOnly in Hsend;
      [|intros kv q q'; apply sendMessages_routeDataOnly].
    apply routeDataOnly_identity in Hsend.
    transitivity (identity peer1); [done|]. by rewrite Hsend.
  - simplify_eq. repeat case_decide; repeat case_match; done.
Qed.

Lemma handleStateChange_identity (now : Time) (nextState : FSMState)
  peer peer' :
  handleStateChange now nextState peer = Ok peer' ->
  identity peer' = identity peer.
Proof.
  unfold handleStateChange, countFlop, dropAllIn, sendToSiblings. intros Hrun.
  destruct (isGlobalRib peer) eqn:Hglobal; [done|]. simplify_eq.
  repeat case_decide; unfold identity; cbn; by rewrite ?Hglobal.
Qed.

(** X16.  Whatever the event, a step of the session leaves what the peer was
    created with as it is: the global configuration, the kind of peer, and in
    the neighbor configuration the address, the AS, the configured families,
    the timers, the passive and route-server flags and the policy names. *)
Theorem step_keeps_identity (ev : event) peer peer' :
  step ev peer = Ok peer' -> identity peer' = identity peer.
Proof.
  destruct ev as [now now' e|sm|pm|f drained]; cbn [step]; intros Hrun.
  - unfold handleFsmMsg in Hrun.
    destruct (MsgType e); destruct (MsgData e); simplify_eq; try done.
    + destruct (handleStateChange _ _ _) as [peer1|] eqn:Hchange; [|done].
      apply handleStateChange_identity in Hchange.
      apply loopEntry_identity in Hrun. congruence.
    + by eapply handleBGPmessage_identity.
  - unfold handleServerMsg in Hrun.
    destruct (srv_msgType sm); destruct (srv_msgData sm) as [d|d|req|d];
      simplify_eq; try done.
    + apply forM_routeDataOnly in Hrun; [|apply peerAddedFamily_routeDataOnly].
      by apply routeDataOnly_identity in Hrun.
    + case_match; simplify_eq; [|done].
      apply forM_routeDataOnly in Hrun;
        [|intros rf; apply peerDeletedFamily_routeDataOnly].
      by apply routeDataOnly_identity in Hrun.
    + by apply handleREST_shape in Hrun as (f & new & sends & data & -> & _).
  - by apply handlePeerMsg_frame, routeDataOnly_identity in Hrun.
  - by simplify_eq.
Qed.

(** ** What [outgoing] holds *)

Lemma queueGrows_refl peer : queueGrows peer peer.
Proof. split; [done|]. exists []. by rewrite app_nil_r. Qed.

Lemma queueGrows_trans peer1 peer2 peer3 :
  queueGrows peer1 peer2 -> queueGrows peer2 peer3 -> queueGrows peer1 peer3.
Proof.
  intros [Hst1 (new1 & Hq1 & Hall1)] [Hst2 (new2 & Hq2 & Hall2)].
  split; [congruence|]. exists (new1 ++ new2). split.
  - by rewrite Hq2, Hq1, app_assoc.
  - apply Forall_app. split; [done|]. by rewrite <- Hst1.
Qed.

Lemma queueGrows_same peer peer' :
  peerState peer' = peerState peer -> outgoing peer' = outgoing peer ->
  queueGrows peer peer'.
Proof. intros Hst Hq. split; [done|]. exists []. by rewrite app_nil_r. Qed.

Lemma queueGrows_notification (code subcode : Z) (data : list Z) peer :
  queueGrows peer (push_outgoing (NewBGPNotificationMessage code subcode data) peer).
Proof. split; [done|]. eexists [_]. split; [done|]. repeat constructor. Qed.

Lemma queueGrows_outgoingOk peer peer' :
  outgoingOk peer -> queueGrows peer peer' -> outgoingOk peer'.
Proof.
  unfold outgoingOk. intros Hok [Hst (new & Hq & Hall)].
  rewrite Hst, Hq. by apply Forall_app.
Qed.

Lemma sendMessages_queueGrows (msgs : list BGPMessage') peer peer' :
  sendMessages msgs peer = Ok peer' -> queueGrows peer peer'.
Proof.
  intros (sent & -> & Hsent)%sendMessages_updatesFor.
  split; [done|]. exists sent. split; [done|]. by apply updatesFor_queuedOk.
Qed.

Lemma routeDataOnly_peerState peer peer' :
  routeDataOnly peer peer' -> peerState peer' = peerState peer.
Proof. by intros (a & r & o & t & ->). Qed.

Lemma sendPathsToSiblings_queueGrows (pathList : list Path) peer :
  queueGrows peer (sendPathsToSiblings pathList peer).
Proof.
  destruct (sendPathsToSiblings_shape pathList peer) as (sends & -> & _).
  by apply queueGrows_same.
Qed.

Lemma sendUpdateMsgFromPaths_queueGrows (pList : list Path) peer peer' :
  sendUpdateMsgFromPaths pList peer = Ok peer' -> queueGrows peer peer'.
Proof.
  unfold sendUpdateMsgFromPaths. intros Hrun%sendMessages_queueGrows.
  eapply queueGrows_trans; [|exact Hrun]. by apply queueGrows_same.
Qed.

Lemma forM_queueGrows {A : Type} (body : A -> Peer' -> result Peer')
  (l : list A) :
  (forall x peer peer', body x peer = Ok peer' -> queueGrows peer peer') ->
  forall peer peer', forM body l peer = Ok peer' -> queueGrows peer peer'.
Proof. apply forM_rel; [apply queueGrows_refl|apply queueGrows_trans]. Qed.

Lemma handleBGPmessage_queueGrows (now : Time) m peer peer' :
  handleBGPmessage now m peer = Ok peer' -> queueGrows peer peer'.
Proof.
  unfold handleBGPmessage. intros Hrun.
  repeat case_decide; repeat case_match; simplify_eq;
    try apply queueGrows_refl.
  - unfold handleOpen in Hrun.
    destruct (forM openParameter _ _) as [[cm r]|]; simplify_eq/=.
    by apply queueGrows_same.
  - unfold handleRouteRefresh in Hrun.
    repeat case_match; simplify_eq; try apply queueGrows_refl.
    by apply sendMessages_queueGrows in Hrun.
  - unfold handleUpdate in Hrun.
    repeat case_match; repeat case_decide; simplify_eq.
    + eapply queueGrows_trans; [|apply queueGrows_notification].
      by apply queueGrows_same.
    + by apply queueGrows_same.
    + eapply queueGrows_trans; [|apply sendPathsToSiblings_queueGrows].
      by apply queueGrows_same.
Qed.

Lemma handlePeerMsg_queueGrows (pm : peerMsg) peer peer' :
  handlePeerMsg pm peer = Ok peer' -> queueGrows peer peer'.
Proof.
  unfold handlePeerMsg. intros Hrun.
  destruct (decide (msgType pm = PEER_MSG_PATH)).
  - destruct (msgData pm) as [pList|]; [|done].
    destruct (RouteServerClient (peerConfig peer) || isGlobalRib peer).
    + destruct (ProcessPaths _ _) as [rib' paths'].
      eapply (queueGrows_trans _ (set_rib rib' peer));
        [by apply queueGrows_same|].
      cbn [isGlobalRib set_rib] in Hrun.
      destruct (isGlobalRib peer); simplify_eq.
      * apply sendPathsToSiblings_queueGrows.
      * by apply sendUpdateMsgFromPaths_queueGrows in Hrun.
    + destruct (isGlobalRib peer); simplify_eq.
      * apply sendPathsToSiblings_queueGrows.
      * by apply sendUpdateMsgFromPaths_queueGrows in Hrun.
  - destruct (decide (msgType pm = PEER_MSG_PEER_DOWN)).
    + revert Hrun. apply forM_queueGrows.
      intros rf q q'. unfold peerDownFamily. intros Hq.
      destruct (msgData pm) as [|info]; [done|].
      destruct (DeletePathsforPeer (rib q) info rf) as [rib' pList].
      eapply (queueGrows_trans _ (set_rib rib' q));
        [by apply queueGrows_same|].
      cbn [peerConfig set_rib isGlobalRib] in Hq.
      destruct (RouteServerClient (peerConfig q)).
      * by apply sendUpdateMsgFromPaths_queueGrows in Hq.
      * destruct (isGlobalRib q); simplify_eq.
        -- apply sendPathsToSiblings_queueGrows.
        -- apply queueGrows_refl.
    + simplify_eq. apply queueGrows_refl.
Qed.

Lemma peerAddedFamily_queueGrows (rf : RouteFamily) peer peer' :
  peerAddedFamily rf peer = Ok peer' -> queueGrows peer peer'.
Proof.
  unfold peerAddedFamily. intros Hrun.
  repeat case_match; simplify_eq;
    apply sendPathsToSiblings_queueGrows || apply queueGrows_refl.
Qed.

Lemma peerDeletedFamily_queueGrows (d : PeerInfo) (rf : RouteFamily)
  peer peer' :
  peerDeletedFamily d rf peer = Ok peer' -> queueGrows peer peer'.
Proof.
  unfold peerDeletedFamily. intros Hrun.
  destruct (DeletePathsforPeer (rib peer) d rf) as [rib' pList].
  eapply (queueGrows_trans _ (set_rib rib' peer));
    [by apply queueGrows_same|].
  cbn [peerConfig set_rib] in Hrun.
  destruct (RouteServerClient (peerConfig peer)); simplify_eq.
  - by apply sendUpdateMsgFromPaths_queueGrows in Hrun.
  - apply sendPathsToSiblings_queueGrows.
Qed.

Lemma handleServerMsg_queueGrows (sm : serverMsg) peer peer' :
  handleServerMsg sm peer = Ok peer' -> queueGrows peer peer'.
Proof.
  unfold handleServerMsg. intros Hrun.
  destruct (srv_msgType sm); destruct (srv_msgData sm) as [d|d|req|d];
    simplify_eq; try done.
  - apply forM_queueGrows in Hrun; [|apply peerAddedFamily_queueGrows].
    eapply queueGrows_trans; [|exact Hrun]. by apply queueGrows_same.
  - case_match; simplify_eq; [|apply queueGrows_refl].
    apply forM_queueGrows in Hrun;
      [|intros rf; apply peerDeletedFamily_queueGrows].
    eapply queueGrows_trans; [|exact Hrun]. by apply queueGrows_same.
  - apply handleREST_shape in Hrun as (f & new & sends & data & -> & _ & Hnew).
    split; [done|]. by exists new.
  - by apply queueGrows_same.
Qed.

Lemma handleStateChange_state (now : Time) (nextState : FSMState) peer peer' :
  handleStateChange now nextState peer = Ok peer' ->
  peerState peer' = wrap32 nextState.
Proof.
  unfold handleStateChange, countFlop, dropAllIn, sendToSiblings. intros Hrun.
  destruct (isGlobalRib peer); [done|]. simplify_eq.
  by repeat case_decide.
Qed.

Lemma updatesFor_app (st : Z) (sent1 sent2 : list BGPMessage') :
  updatesFor st sent1 -> updatesFor st sent2 -> updatesFor st (sent1 ++ sent2).
Proof.
  intros [Hall1 Hnone1] [Hall2 Hnone2]. split.
  - by apply Forall_app.
  - intros Hst. by rewrite (Hnone1 Hst), (Hnone2 Hst).
Qed.

Lemma forM_updatesAppended {A : Type} (body : A -> Peer' -> result Peer')
  (l : list A) :
  (forall x peer peer', body x peer = Ok peer' -> updatesAppended peer peer') ->
  forall peer peer', forM body l peer = Ok peer' -> updatesAppended peer peer'.
Proof.
  apply forM_rel.
  - intros q. split; [done|]. exists []. split; [by rewrite app_nil_r|].
    split; [constructor|done].
  - intros q1 q2 q3 [Hs1 (s1 & Ho1 & Hu1)] [Hs2 (s2 & Ho2 & Hu2)].
    split; [congruence|]. exists (s1 ++ s2). split.
    + by rewrite Ho2, Ho1, app_assoc.
    + apply updatesFor_app; [done|]. by rewrite <- Hs1.
Qed.

Lemma loopEntry_queue (now : Time) peer peer' :
  loopEntry now peer = Ok peer' ->
  peerState peer' = peerState peer /\
  updatesFor (peerState peer) (outgoing peer').
Proof.
  unfold loopEntry. intros Hrun.
  cbn [isGlobalRib set_outgoing] in Hrun.
  assert (Hempty : updatesFor (peerState peer) ([] : list BGPMessage')).
  { split; [constructor|done]. }
  destruct (isGlobalRib peer); [by simplify_eq|].
  case_decide as Hst.
  - destruct (forM _ _ _) as [peer1|] eqn:Hsend; simplify_eq/=.
    apply forM_updatesAppended in Hsend as [Hs (sent & Ho & Hu)].
    + split; [exact Hs|]. cbn. rewrite Ho. exact Hu.
    + intros kv q q' (sent & -> & Hsent)%sendMessages_updatesFor.
      split; [done|]. by exists sent.
  - simplify_eq. split; repeat case_decide; repeat case_match;
      done || exact Hempty.
Qed.

Lemma stateChange_queue (now now' : Time) (nextState : FSMState) peer peer' :
  handleFsmMsg now now' (mkFsmMsg FSM_MSG_STATE_CHANGE (Fsm_State nextState)) peer
    = Ok peer' ->
  peerState peer' = wrap32 nextState /\
  updatesFor (wrap32 nextState) (outgoing peer').
Proof.
  unfold handleFsmMsg. cbn [MsgType MsgData]. intros Hrun.
  destruct (handleStateChange _ _ _) as [peer1|] eqn:Hchange; [|done].
  apply handleStateChange_state in Hchange.
  apply loopEntry_queue in Hrun as [Hst Hq].
  rewrite <- Hchange. split; [done|exact Hq].
Qed.

(** What [sendMessages] queues in ESTABLISHED when it returns. *)
Lemma sendMessage_queued m peer peer' :
  peerState peer = BGP_FSM_ESTABLISHED ->
  sendMessage m peer = Ok peer' ->
  peer' = push_outgoing (queuedForm peer m) peer.
Proof.
  intros Hst. unfold sendMessage, queuedForm.
  rewrite decide_False by (by intros ?).
  destruct (decide (Header_Type m <> BGP_MSG_UPDATE)); [done|].
  destruct (capMap peer !! BGP_CAP_FOUR_OCTET_AS_NUMBER).
  - intros ?. simplify_eq. by destruct (Body m).
  - destruct (Body m); intros ?; by simplify_eq.
Qed.

Lemma sendMessages_queued (msgs : list BGPMessage') peer peer' :
  peerState peer = BGP_FSM_ESTABLISHED ->
  sendMessages msgs peer = Ok peer' ->
  peer' = set_outgoing (outgoing peer ++ map (queuedForm peer) msgs) peer.
Proof.
  unfold sendMessages. revert peer.
  induction msgs as [|m msgs IH]; intros peer Hst Hrun.
  - inversion Hrun. cbn [map]. by rewrite app_nil_r, eta_outgoing.
  - cbn [forM] in Hrun. destruct (sendMessage m peer) as [peer1|] eqn:Hm; [|done].
    apply (sendMessage_queued _ _ _ Hst) in Hm. subst peer1.
    apply IH in Hrun; [|exact Hst]. rewrite Hrun.
    unfold push_outgoing, set_outgoing, queuedForm.
    cbn [outgoing capMap map]. by rewrite <- app_assoc.
Qed.

(** The re-emission of the Adj-RIB-Out at the entry of ESTABLISHED, lines
    628-631, family by family. *)
Lemma reemission_queued (l : list (Z * bool)) peer peer' :
  peerState peer = BGP_FSM_ESTABLISHED ->
  forM (fun (kv : Z * bool) peer =>
          sendMessages
            (CreateUpdateMsgFromPaths (GetOutPathList kv.1 (adjRib peer))) peer)
       l peer = Ok peer' ->
  peer' = set_outgoing
            (outgoing peer ++
             map (queuedForm peer)
               (flat_map (fun kv : Z * bool =>
                            CreateUpdateMsgFromPaths
                              (GetOutPathList kv.1 (adjRib peer))) l))
            peer.
Proof.
  revert peer. induction l as [|kv l IH]; intros peer Hst Hrun.
  - inversion Hrun. cbn [flat_map map]. by rewrite app_nil_r, eta_outgoing.
  - cbn [forM] in Hrun.
    destruct (sendMessages _ peer) as [peer1|] eqn:Hkv; [|done].
    apply (sendMessages_queued _ _ _ Hst) in Hkv. subst peer1.
    apply IH in Hrun; [|exact Hst]. rewrite Hrun.
    unfold set_outgoing, queuedForm.
    cbn [outgoing capMap adjRib flat_map]. by rewrite map_app, <- app_assoc.
Qed.

(** What the handler of a state change leaves as it is. *)
Lemma handleStateChange_kept (now : Time) (nextState : FSMState) peer peer' :
  handleStateChange now nextState peer = Ok peer' ->
  isGlobalRib peer' = false /\
  peerState peer' = wrap32 nextState /\
  rfMap peer' = rfMap peer /\
  capMap peer' = capMap peer /\
  adjRibOut (adjRib peer') = adjRibOut (adjRib peer).
Proof.
  unfold handleStateChange, countFlop, dropAllIn, sendToSiblings. intros Hrun.
  destruct (isGlobalRib peer) eqn:Hglobal; [done|]. simplify_eq.
  repeat case_decide; cbn; rewrite ?dropAll_out; done.
Qed.

(** X17.  What is still queued when the FSM changes state is never sent.
    After the state change the recorded state is the new one and [outgoing]
    holds nothing of what it held: it is empty if the new state is not
    ESTABLISHED, and otherwise it is the re-emission of the Adj-RIB-Out, the
    UPDATEs built from the paths recorded for each negotiated family, as they
    are queued (in 2-octet form unless the remote advertised the 4-octet AS
    capability), family by family. *)
Theorem state_change_discards_queue (now now' : Time) (nextState : FSMState)
  peer peer' :
  handleFsmMsg now now' (mkFsmMsg FSM_MSG_STATE_CHANGE (Fsm_State nextState)) peer
    = Ok peer' ->
  peerState peer' = wrap32 nextState /\
  (wrap32 nextState <> BGP_FSM_ESTABLISHED -> outgoing peer' = []) /\
  (wrap32 nextState = BGP_FSM_ESTABLISHED ->
   outgoing peer' =
     map (queuedForm peer)
       (flat_map (fun kv : Z * bool =>
                    CreateUpdateMsgFromPaths (GetOutPathList kv.1 (adjRib peer)))
                 (map_to_list (rfMap peer)))) /\
  Forall (fun m => Header_Type m = BGP_MSG_UPDATE) (outgoing peer').
Proof.
  intros Hrun.
  destruct (stateChange_queue _ _ _ _ _ Hrun) as (Hst & Hall & Hnone).
  split; [exact Hst|]. split; [exact Hnone|]. split; [|exact Hall].
  intros Hest. unfold handleFsmMsg in Hrun. cbn [MsgType MsgData] in Hrun.
  destruct (handleStateChange _ _ _) as [peer1|] eqn:Hchange; [|done].
  apply handleStateChange_kept in Hchange
    as (Hglobal1 & Hst1 & Hrf1 & Hcap1 & Hout1).
  change (loopEntry now' peer1 = Ok peer') in Hrun.
  unfold loopEntry in Hrun. cbn [isGlobalRib set_outgoing] in Hrun.
  rewrite Hglobal1 in Hrun.
  rewrite decide_True in Hrun by (by rewrite <- Hest).
  destruct (forM _ _ _) as [peer2|] eqn:Hsend; simplify_eq/=.
  apply reemission_queued in Hsend; [|by rewrite <- Hest]. subst peer2.
  cbn. unfold queuedForm, GetOutPathList. cbn. by rewrite Hrf1, Hcap1, Hout1.
Qed.

Lemma step_outgoingOk (ev : event) peer peer' :
  outgoingOk peer -> step ev peer = Ok peer' -> outgoingOk peer'.
Proof.
  intros Hok. destruct ev as [now now' e|sm|pm|f drained]; cbn [step];
    intros Hrun.
  - destruct e as [[| |n] data]; unfold handleFsmMsg in Hrun;
      cbn [MsgType MsgData] in Hrun.
    + destruct data as [nextState| | |]; try done.
      apply stateChange_queue in Hrun as [Hst Hq].
      unfold outgoingOk. rewrite Hst. by apply updatesFor_queuedOk.
    + destruct data as [|err|m|]; simplify_eq; try done.
      * eapply queueGrows_outgoingOk; [exact Hok|].
        apply queueGrows_notification.
      * eapply queueGrows_outgoingOk; [exact Hok|].
        by eapply handleBGPmessage_queueGrows.
    + by simplify_eq.
  - eapply queueGrows_outgoingOk; [exact Hok|].
    by eapply handleServerMsg_queueGrows.
  - eapply queueGrows_outgoingOk; [exact Hok|].
    by eapply handlePeerMsg_queueGrows.
  - simplify_eq. unfold outgoingOk. cbn. by apply Forall_drop.
Qed.

Lemma reachable_run (evs : list (event (BGPUpdate := BGPUpdate))) peer peer' :
  reachable peer -> forM step evs peer = Ok peer' -> reachable peer'.
Proof.
  revert peer. induction evs as [|ev evs IH]; intros peer Hreach Hrun.
  - inversion Hrun. by subst.
  - cbn [forM] in Hrun. destruct (step ev peer) as [peer1|] eqn:Hstep; [|done].
    eapply IH; [|exact Hrun]. by eapply reachable_step.
Qed.

(** X18.  In every state of a session [outgoing] holds NOTIFICATIONs and
    UPDATEs only, and UPDATEs only while the recorded state is ESTABLISHED:
    an UPDATE is never waiting to be sent in another state. *)
Theorem reachable_outgoingOk peer : reachable peer -> outgoingOk peer.
Proof.
  induction 1 as [now now' g c peerList isGlobalRib0 policyMap peer Hentry
                 |ev peer peer' _ IH Hstep].
  - apply loopEntry_queue in Hentry as [Hst Hq].
    unfold outgoingOk. rewrite Hst. by apply updatesFor_queuedOk.
  - by eapply step_outgoingOk.
Qed.

(** ** State changes and the flap counter *)


Lemma handleStateChange_facts (now : Time) (nextState : FSMState) peer peer' :
  handleStateChange now nextState peer = Ok peer' ->
  isGlobalRib peer' = false /\
  peerState peer' = wrap32 nextState /\
  adminState (fsm peer') = adminState (fsm peer).
Proof.
  unfold handleStateChange, countFlop, dropAllIn, sendToSiblings. intros Hrun.
  destruct (isGlobalRib peer) eqn:Hglobal; [done|]. simplify_eq.
  by repeat case_decide.
Qed.

Lemma loopEntry_established (now : Time) peer peer' :
  isGlobalRib peer = false ->
  peerState peer = BGP_FSM_ESTABLISHED ->
  loopEntry now peer = Ok peer' ->
  isGlobalRib peer' = false /\
  peerState peer' = BGP_FSM_ESTABLISHED /\
  adminState (fsm peer') = adminState (fsm peer) /\
  CommonState (fsm_peerConfig (fsm peer')) =
    set_EstablishedCount
      (wrap32 (EstablishedCount (CommonState (fsm_peerConfig (fsm peer))) + 1))
      (set_Uptime (Unix now) (CommonState (fsm_peerConfig (fsm peer)))).
Proof.
  intros Hglobal Hst. unfold loopEntry.
  cbn [isGlobalRib set_outgoing]. rewrite Hglobal.
  rewrite decide_True by done.
  intros Hrun.
  destruct (forM _ _ _) as [peer1|] eqn:Hsend; simplify_eq/=.
  apply forM_routeDataOnly in Hsend as (a & r & o & t & ->);
    [|intros kv q q'; apply sendMessages_routeDataOnly].
  done.
Qed.

(** X20.  The flap counter measures from the whole second in which the
    session entered ESTABLISHED.  When the state change to ESTABLISHED is
    followed by the entry action at clock [t1], the recorded uptime is the
    Unix second of [t1], and the next state change, at clock [t2] and with
    the neighbor not disabled, adds one to the counter exactly when [t2] is
    less than 30 seconds after the instant [time.Unix] makes of that second:
    for [t1] a clock reading that a [time.Time] can hold, exactly when [t2]
    is less than 30 seconds after [t1] rounded down to the second. *)
Theorem flap_counted_from_entry (t0 t1 t2 : Time) (nextState : FSMState)
  peer peer1 :
  adminState (fsm peer) <> ADMIN_STATE_DOWN ->
  handleFsmMsg t0 t1
    (mkFsmMsg FSM_MSG_STATE_CHANGE (Fsm_State BGP_FSM_ESTABLISHED)) peer
    = Ok peer1 ->
  exists peer2,
    handleStateChange t2 nextState peer1 = Ok peer2 /\
    Uptime (CommonState (fsm_peerConfig (fsm peer1))) = Unix t1 /\
    Flops (CommonState (fsm_peerConfig (fsm peer2))) =
      (if decide (t2 - time_Unix (Unix t1) < 30 * Second)
       then wrap32 (Flops (CommonState (fsm_peerConfig (fsm peer1))) + 1)
       else Flops (CommonState (fsm_peerConfig (fsm peer1)))) /\
    (representable t1 ->
     Flops (CommonState (fsm_peerConfig (fsm peer2))) =
       if decide (t2 - t1 / Second * Second < 30 * Second)
       then wrap32 (Flops (CommonState (fsm_peerConfig (fsm peer1))) + 1)
       else Flops (CommonState (fsm_peerConfig (fsm peer1)))).
Proof.
  intros Hadmin. unfold handleFsmMsg. cbn [MsgType MsgData]. intros Hrun.
  destruct (handleStateChange t0 _ peer) as [peerA|] eqn:Hchange; [|done].
  apply handleStateChange_facts in Hchange as (HglobalA & HstA & HadminA).
  change (wrap32 BGP_FSM_ESTABLISHED) with BGP_FSM_ESTABLISHED in HstA.
  apply (loopEntry_established t1 peerA peer1 HglobalA HstA) in Hrun
    as (Hglobal1 & Hst1 & Hadmin1 & Hcs1).
  assert (Hup : Uptime (CommonState (fsm_peerConfig (fsm peer1))) = Unix t1).
  { by rewrite Hcs1. }
  assert (Hadm : adminState (fsm peer1) <> ADMIN_STATE_DOWN) by congruence.
  destruct (handleStateChange_flops t2 nextState peer1 Hglobal1)
    as (peer2 & Hrun2 & Hflops).
  cbv zeta in Hflops. rewrite Hup in Hflops.
  rewrite (decide_False _ _ Hadm) in Hflops.
  assert (Hflops' :
    Flops (CommonState (fsm_peerConfig (fsm peer2))) =
      if decide (t2 - time_Unix (Unix t1) < 30 * Second)
      then wrap32 (Flops (CommonState (fsm_peerConfig (fsm peer1))) + 1)
      else Flops (CommonState (fsm_peerConfig (fsm peer1)))).
  { rewrite Hflops.
    destruct (decide (t2 - time_Unix (Unix t1) < 30 * Second)) as [Hlt|Hge].
    - by rewrite decide_True.
    - rewrite decide_False; [done|]. by intros [_ ?]. }
  exists peer2. split; [exact Hrun2|]. split; [exact Hup|].
  split; [exact Hflops'|].
  intros Ht1. by rewrite Hflops', (time_Unix_Unix _ Ht1).
Qed.

(** ** Creation *)

Lemma foldl_insert_lookup (l : list AfiSafi) (acc : gmap Z bool) (f : RouteFamily) :
  foldl (fun acc rf => <[bgp_GetRouteFamily (AfiSafiName rf) := true]> acc)
        acc l !! f
  = if decide (f ∈ map (fun rf => bgp_GetRouteFamily (AfiSafiName rf)) l)
    then Some true else acc !! f.
Proof.
  revert acc. induction l as [|rf l IH]; intros acc; cbn [foldl map].
  - destruct (decide (f ∈ [])) as [Hin|_]; [|done]. by apply elem_of_nil in Hin.
  - rewrite IH.
    destruct (decide (f ∈ map _ l)) as [Hin|Hnin];
      destruct (decide (f ∈ _ :: map _ l)) as [Hin'|Hnin']; try done.
    + exfalso. apply Hnin'. by right.
    + apply elem_of_cons in Hin' as [->|?]; [|done]. by rewrite lookup_insert_eq.
    + rewrite lookup_insert_ne; [done|]. intros <-. apply Hnin'. by left.
Qed.

(** X21.  A new peer treats every configured family as negotiated until an
    OPEN arrives: [rfMap] holds exactly the configured families.  It knows no
    capability of the remote and has nothing queued; its FSM starts in IDLE
    with the downtime set to the clock, in the FSM's own copy of the
    configuration, while the state the peer itself records is still the one
    of the configuration it was given. *)
Theorem NewPeer_initial (now : Time) (g : Global) (c : Neighbor)
  (peerList : list serverMsgDataPeer) (isGlobalRib0 : bool)
  (policyMap : gmap string Policy) :
  let peer : Peer' := NewPeer now g c peerList isGlobalRib0 policyMap in
  (forall f, rfMap peer !! f =
             if decide (f ∈ configuredRFlist peer) then Some true else None) /\
  capMap peer = ∅ /\
  outgoing peer = [] /\
  fsm_state (fsm peer) = BGP_FSM_IDLE /\
  State (CommonState (fsm_peerConfig (fsm peer))) = BGP_FSM_IDLE /\
  Downtime (CommonState (fsm_peerConfig (fsm peer))) = Unix now /\
  peerState peer = State (CommonState c).
Proof.
  intros peer. split; [|done].
  intros f. subst peer. cbn. by rewrite foldl_insert_lookup, lookup_empty.
Qed.

(** ** The capabilities of the remote *)

Lemma forM_openCapability_capMap (caps : list ParameterCapabilityInterface)
  (cm cm' : gmap Z ParameterCapabilityInterface) (r r' : gmap Z bool) :
  forM openCapability caps (cm, r) = Ok (cm', r') ->
  (forall code, is_Some (cm !! code) -> is_Some (cm' !! code)) /\
  (forall c, c ∈ caps -> is_Some (cm' !! Code c)) /\
  ((forall k c, cm !! k = Some c -> Code c = k) ->
   forall k c, cm' !! k = Some c -> Code c = k).
Proof.
  revert cm r. induction caps as [|c caps IH]; intros cm r Hrun.
  - simplify_eq/=. split; [done|]. split; [|done].
    intros c Hc. by apply elem_of_nil in Hc.
  - cbn [forM] in Hrun.
    destruct (openCapability c (cm, r)) as [[cm1 r1]|] eqn:Hc; [|done].
    assert (Hcm1 : cm1 = <[Code c := c]> cm).
    { unfold openCapability in Hc. cbn in Hc.
      case_decide; repeat case_match; by simplify_eq. }
    subst cm1. apply IH in Hrun as (Hmono & Hnew & Hkeys).
    split; [|split].
    + intros code Hcode. apply Hmono.
      destruct (decide (Code c = code)) as [<-|Hne].
      * by rewrite lookup_insert_eq.
      * by rewrite lookup_insert_ne.
    + intros c' [->|Hin]%elem_of_cons; [|by apply Hnew].
      apply Hmono. by rewrite lookup_insert_eq.
    + intros Hk. apply Hkeys. intros k c'.
      destruct (decide (Code c = k)) as [<-|Hne].
      * rewrite lookup_insert_eq. by intros [= <-].
      * rewrite lookup_insert_ne by done. apply Hk.
Qed.

Lemma forM_openParameter_capMap (params : list OptionParameterInterface)
  (cm cm' : gmap Z ParameterCapabilityInterface) (r r' : gmap Z bool) :
  forM openParameter params (cm, r) = Ok (cm', r') ->
  (forall code, is_Some (cm !! code) -> is_Some (cm' !! code)) /\
  (forall caps c, OptionParameterCapability caps ∈ params -> c ∈ caps ->
                  is_Some (cm' !! Code c)) /\
  ((forall k c, cm !! k = Some c -> Code c = k) ->
   forall k c, cm' !! k = Some c -> Code c = k).
Proof.
  revert cm r. induction params as [|p params IH]; intros cm r Hrun.
  - simplify_eq/=. split; [done|]. split; [|done].
    intros caps c Hc. by apply elem_of_nil in Hc.
  - cbn [forM] in Hrun.
    destruct (openParameter p (cm, r)) as [[cm1 r1]|] eqn:Hp; [|done].
    apply IH in Hrun as (Hmono & Hnew & Hkeys).
    destruct p as [caps0|typ value]; cbn [openParameter] in Hp.
    + apply forM_openCapability_capMap in Hp as (Hmono0 & Hnew0 & Hkeys0).
      split; [|split].
      * intros code Hcode. by apply Hmono, Hmono0.
      * intros caps c [Heq|Hin]%elem_of_cons Hc.
        -- inversion Heq; subst caps0. by apply Hmono, Hnew0.
        -- by eapply Hnew.
      * intros Hk. by apply Hkeys, Hkeys0.
    + simplify_eq. split; [done|]. split; [|done].
      intros caps c [Heq|Hin]%elem_of_cons Hc; [done|by eapply Hnew].
Qed.

(** X22.  An OPEN adds to [capMap] and never clears it.  After it every
    capability of its capability parameters is found under its code, the
    router-id of the OPEN is recorded, and a capability recorded from an
    earlier OPEN stays, also when this OPEN does not advertise it.  Entries
    stay filed under their own code. *)
Theorem open_accumulates_capabilities (now : Time) m (body : BGPOpen)
  peer peer' :
  isOpen m body ->
  handleBGPmessage now m peer = Ok peer' ->
  (forall code, is_Some (capMap peer !! code) -> is_Some (capMap peer' !! code)) /\
  (forall caps c, OptionParameterCapability caps ∈ OptParams body -> c ∈ caps ->
                  is_Some (capMap peer' !! Code c)) /\
  ((forall k c, capMap peer !! k = Some c -> Code c = k) ->
   forall k c, capMap peer' !! k = Some c -> Code c = k) /\
  ID (peerInfo peer') = open_ID body.
Proof.
  intros [Htype Hbody]. unfold handleBGPmessage. rewrite Htype, Hbody.
  cbn. unfold handleOpen. cbn [capMap set_peerInfo].
  destruct (forM openParameter _ _) as [[cm r]|] eqn:Hparams; [|done].
  intros Hrun. simplify_eq/=.
  apply forM_openParameter_capMap in Hparams as (Hmono & Hnew & Hkeys).
  done.
Qed.

(** ** The connect loop *)

Lemma seconds_small (n : Z) :
  0 <= n <= 9223372036 -> seconds n = n * Second.
Proof.
  intros Hn. unfold seconds, wrap64s, Second.
  rewrite Z.mod_small by lia. lia.
Qed.

(** X23.  For a configured connect-retry of up to 9223372036 seconds the
    ticker of the connect loop is created, with a period of the configured
    seconds but never less than 10 seconds, and the 9 seconds of a dial
    always end before the next tick. *)
Theorem connect_period (connectRetry : Z) :
  connectRetry <= 9223372036 ->
  exists d,
    newTicker connectRetry = Ok d /\
    d = Z.max connectRetry MIN_CONNECT_RETRY * Second /\
    dialTimeout = 9 * Second /\
    dialTimeout < d.
Proof.
  intros Hmax.
  assert (Htick : connectTick connectRetry = Z.max connectRetry MIN_CONNECT_RETRY).
  { unfold connectTick, MIN_CONNECT_RETRY. case_decide; lia. }
  assert (Hdial : dialTimeout = 9 * Second).
  { unfold dialTimeout, MIN_CONNECT_RETRY. by rewrite seconds_small. }
  unfold newTicker. rewrite Htick, Hdial.
  rewrite seconds_small by (unfold MIN_CONNECT_RETRY; lia).
  unfold MIN_CONNECT_RETRY, Second.
  rewrite decide_False by lia.
  eexists. split; [reflexivity|]. lia.
Qed.

End PeerExtras.

(** ** The further properties on the small speaker *)

Lemma sendMessages_established_witness :
  peerState Scenario.established = BGP_FSM_ESTABLISHED /\
  forallb isUpdateMsg Scenario.updates = true /\
  sendMessages Scenario.updates Scenario.established =
    Ok (set_outgoing
          (outgoing Scenario.established
             ++ map (queuedForm Scenario.established) Scenario.updates)
          Scenario.established).
Proof.
  assert (H1 : peerState Scenario.established = BGP_FSM_ESTABLISHED)
    by (vm_compute; reflexivity).
  assert (H2 : forallb isUpdateMsg Scenario.updates = true)
    by (vm_compute; reflexivity).
  split; [exact H1|]. split; [exact H2|].
  exact (sendMessages_established Scenario.updates Scenario.established H1 H2).
Defined.

Lemma sendMessages_fatal_on_non_update_witness :
  peerState Scenario.established = BGP_FSM_ESTABLISHED /\
  Exists (fun m => Header_Type m <> BGP_MSG_UPDATE) [Scenario.openMsg] /\
  exists why, sendMessages [Scenario.openMsg] Scenario.established = Fatal why.
Proof.
  assert (H1 : peerState Scenario.established = BGP_FSM_ESTABLISHED)
    by (vm_compute; reflexivity).
  assert (H2 : Exists (fun m : BGPMessage (list Path) =>
                         Header_Type m <> BGP_MSG_UPDATE) [Scenario.openMsg]).
  { apply Exists_cons_hd. vm_compute. discriminate. }
  split; [exact H1|]. split; [exact H2|].
  exact (sendMessages_fatal_on_non_update [Scenario.openMsg]
           Scenario.established H1 H2).
Defined.

Lemma route_refresh_ignored_witness :
  Header_Type Scenario.routeRefresh6 = BGP_MSG_ROUTE_REFRESH /\
  Body Scenario.routeRefresh6 = Body_RouteRefresh 2 1 /\
  (rfMap Scenario.established !! AfiSafiToRouteFamily 2 1 = None \/
   capMap Scenario.established !! BGP_CAP_ROUTE_REFRESH = None) /\
  handleBGPmessage (Scenario.sec 120) Scenario.routeRefresh6 Scenario.established
    = Ok Scenario.established.
Proof.
  assert (H1 : Header_Type Scenario.routeRefresh6 = BGP_MSG_ROUTE_REFRESH)
    by reflexivity.
  assert (H2 : Body Scenario.routeRefresh6 = Body_RouteRefresh 2 1)
    by reflexivity.
  assert (H3 : rfMap Scenario.established !! AfiSafiToRouteFamily 2 1 = None \/
               capMap Scenario.established !! BGP_CAP_ROUTE_REFRESH = None)
    by (left; vm_compute; reflexivity).
  split; [exact H1|]. split; [exact H2|]. split; [exact H3|].
  exact (route_refresh_ignored (Scenario.sec 120) Scenario.routeRefresh6 2 1
           Scenario.established H1 H2 H3).
Defined.

Lemma valid_update_is_recorded_witness :
  Header_Type Scenario.goodUpdate = BGP_MSG_UPDATE /\
  Body Scenario.goodUpdate = Body_Update Scenario.goodBody /\
  ValidateUpdateMsg Scenario.goodBody (rfMap Scenario.established) = None /\
  exists peer' pathList,
    handleBGPmessage (Scenario.sec 120) Scenario.goodUpdate Scenario.established
      = Ok peer' /\
    pathList = ToPathList (mkBGPMessage BGP_MSG_UPDATE
                             (Body_Update (UpdatePathAttrs4ByteAs Scenario.goodBody)))
                          (peerInfo Scenario.established) /\
    adjRib peer' = UpdateIn pathList (adjRib Scenario.established) /\
    outgoing peer' = outgoing Scenario.established /\
    trace peer' = trace Scenario.established ++
      match pathList with
      | [] => []
      | _ => toSiblings (pathMsg pathList) Scenario.established
      end /\
    UpdateRecvTime (CommonState (peerConfig peer')) = Unix (Scenario.sec 120).
Proof.
  assert (H1 : Header_Type Scenario.goodUpdate = BGP_MSG_UPDATE) by reflexivity.
  assert (H2 : Body Scenario.goodUpdate = Body_Update Scenario.goodBody)
    by reflexivity.
  assert (H3 : ValidateUpdateMsg Scenario.goodBody (rfMap Scenario.established)
               = None) by (vm_compute; reflexivity).
  split; [exact H1|]. split; [exact H2|]. split; [exact H3|].
  exact (valid_update_is_recorded (Scenario.sec 120) Scenario.goodUpdate
           Scenario.goodBody Scenario.established H1 H2 H3).
Defined.

(** Scenario S2: one path in the Adj-RIB-In, one PATH message to the
    sibling. *)
Example update_reaches_the_sibling :
  exists peer',
    handleBGPmessage (Scenario.sec 120) Scenario.goodUpdate Scenario.established
      = Ok peer' /\
    GetInPathList Scenario.ipv4_unicast (adjRib peer') = [Scenario.pathElsewhere] /\
    sentOn 7 (trace peer') = [pathMsg [Scenario.pathElsewhere]].
Proof. eexists. split; [|split]; by vm_compute. Qed.

Lemma export_outside_established_witness :
  peerState Scenario.started <> BGP_FSM_ESTABLISHED /\
  sendUpdateMsgFromPaths [Scenario.pathElsewhere] Scenario.started =
    Ok (set_adjRib
          (UpdateOut
             (exportPaths (exportPolicies Scenario.started)
                (defaultExportPolicy Scenario.started)
                (CloneAndUpdatePathAttrs [Scenario.pathElsewhere]
                   (globalConfig Scenario.started)
                   (peerConfig Scenario.started)))
             (adjRib Scenario.started)) Scenario.started).
Proof.
  assert (H1 : peerState Scenario.started <> BGP_FSM_ESTABLISHED)
    by (vm_compute; discriminate).
  split; [exact H1|].
  exact (export_outside_established [Scenario.pathElsewhere] Scenario.started H1).
Defined.

Lemma handlePeerMsg_routeDataOnly_witness :
  handlePeerMsg Scenario.pathMessage Scenario.established = Ok Scenario.afterPath /\
  (routeDataOnly Scenario.established Scenario.afterPath /\
   globalConfig Scenario.afterPath = globalConfig Scenario.established /\
   peerConfig Scenario.afterPath = peerConfig Scenario.established /\
   fsm Scenario.afterPath = fsm Scenario.established /\
   rfMap Scenario.afterPath = rfMap Scenario.established /\
   capMap Scenario.afterPath = capMap Scenario.established /\
   peerInfo Scenario.afterPath = peerInfo Scenario.established /\
   siblings Scenario.afterPath = siblings Scenario.established /\
   importPolicies Scenario.afterPath = importPolicies Scenario.established /\
   exportPolicies Scenario.afterPath = exportPolicies Scenario.established).
Proof.
  assert (H1 : handlePeerMsg Scenario.pathMessage Scenario.established
               = Ok Scenario.afterPath) by (vm_compute; reflexivity).
  split; [exact H1|].
  exact (handlePeerMsg_routeDataOnly Scenario.pathMessage Scenario.established
           Scenario.afterPath H1).
Defined.

Lemma import_follows_first_match_witness :
  IsWithdraw Scenario.pathElsewhere = false /\
  Forall (noMatch Scenario.pathElsewhere) [Scenario.matchNone] /\
  (([Scenario.matchNone] <> [] ->
    importPath [Scenario.matchNone] DEFAULT_POLICY_TYPE_REJECT_ROUTE
      Scenario.pathElsewhere =
      if decide (DEFAULT_POLICY_TYPE_REJECT_ROUTE = DEFAULT_POLICY_TYPE_ACCEPT_ROUTE)
      then [Scenario.pathElsewhere] else []) /\
   forall pol post action newPath,
     Apply pol Scenario.pathElsewhere = (true, action, newPath) ->
     importPath ([Scenario.matchNone] ++ pol :: post)
       DEFAULT_POLICY_TYPE_REJECT_ROUTE Scenario.pathElsewhere =
       if decide (action = ROUTE_TYPE_REJECT) then [] else [newPath]).
Proof.
  assert (H1 : IsWithdraw Scenario.pathElsewhere = false) by reflexivity.
  assert (H2 : Forall (noMatch Scenario.pathElsewhere) [Scenario.matchNone]).
  { repeat constructor. }
  split; [exact H1|]. split; [exact H2|].
  exact (import_follows_first_match [Scenario.matchNone]
           DEFAULT_POLICY_TYPE_REJECT_ROUTE Scenario.pathElsewhere H1 H2).
Defined.

Lemma handleREST_answers_once_witness :
  handleREST Scenario.shutdownRequest Scenario.active = Ok Scenario.afterShutdown /\
  exists f new sends data,
    Scenario.afterShutdown =
      set_trace (trace Scenario.active ++ sends ++
                   [SendRestResponse (ResponseCh Scenario.shutdownRequest) data])
        (set_outgoing (outgoing Scenario.active ++ new)
           (set_fsm f Scenario.active)) /\
    Forall isPeerSend sends /\
    Forall (queuedOk (peerState Scenario.active)) new /\
    adjRib Scenario.afterShutdown = adjRib Scenario.active /\
    peerConfig Scenario.afterShutdown = peerConfig Scenario.active /\
    rfMap Scenario.afterShutdown = rfMap Scenario.active /\
    siblings Scenario.afterShutdown = siblings Scenario.active.
Proof.
  assert (H1 : handleREST Scenario.shutdownRequest Scenario.active
               = Ok Scenario.afterShutdown) by (vm_compute; reflexivity).
  split; [exact H1|].
  exact (handleREST_answers_once Scenario.shutdownRequest Scenario.active
           Scenario.afterShutdown H1).
Defined.

Lemma admin_request_never_overwritten_witness :
  (RequestType Scenario.disableRequest = REQ_NEIGHBOR_ENABLE \/
   RequestType Scenario.disableRequest = REQ_NEIGHBOR_DISABLE) /\
  exists peer' data,
    handleREST Scenario.disableRequest Scenario.established = Ok peer' /\
    trace peer' = trace Scenario.established
                  ++ [SendRestResponse (ResponseCh Scenario.disableRequest) data] /\
    adminState (fsm peer') = adminState (fsm Scenario.established) /\
    (adminStateCh (fsm Scenario.established) = [] ->
       adminStateCh (fsm peer') =
         [match RequestType Scenario.disableRequest with
          | REQ_NEIGHBOR_ENABLE => ADMIN_STATE_UP
          | _ => ADMIN_STATE_DOWN
          end]) /\
    (adminStateCh (fsm Scenario.established) <> [] ->
       fsm peer' = fsm Scenario.established /\
       data = Rest_Result "previous request is still remaining").
Proof.
  assert (H1 : RequestType Scenario.disableRequest = REQ_NEIGHBOR_ENABLE \/
               RequestType Scenario.disableRequest = REQ_NEIGHBOR_DISABLE)
    by (right; reflexivity).
  split; [exact H1|].
  exact (admin_request_never_overwritten Scenario.disableRequest
           Scenario.established H1).
Defined.

(** A second request while the first is pending is refused. *)
Example second_admin_request_is_refused :
  exists peer1 peer2,
    handleREST Scenario.disableRequest Scenario.established = Ok peer1 /\
    adminStateCh (fsm peer1) = [ADMIN_STATE_DOWN] /\
    handleREST Scenario.disableRequest peer1 = Ok peer2 /\
    adminStateCh (fsm peer2) = [ADMIN_STATE_DOWN] /\
    last (trace peer2) =
      Some (SendRestResponse 2 (Rest_Result "previous request is still remaining")).
Proof. eexists _, _. repeat split; by vm_compute. Qed.

Lemma sibling_directory_updates_witness :
  handleServerMsg Scenario.peerAdded Scenario.established = Ok Scenario.afterAdded /\
  (siblings Scenario.afterAdded =
     match srv_msgType Scenario.peerAdded, srv_msgData Scenario.peerAdded with
     | SRV_MSG_PEER_ADDED, Srv_Peer d =>
         <[IP_String (address d) := d]> (siblings Scenario.established)
     | SRV_MSG_PEER_DELETED, Srv_PeerInfo d =>
         delete (IP_String (Address d)) (siblings Scenario.established)
     | _, _ => siblings Scenario.established
     end /\
   match srv_msgType Scenario.peerAdded, srv_msgData Scenario.peerAdded with
   | SRV_MSG_PEER_DELETED, Srv_PeerInfo d =>
       siblings Scenario.established !! IP_String (Address d) = None ->
       Scenario.afterAdded = Scenario.established
   | _, _ => True
   end).
Proof.
  assert (H1 : handleServerMsg Scenario.peerAdded Scenario.established
               = Ok Scenario.afterAdded) by (vm_compute; reflexivity).
  split; [exact H1|].
  exact (sibling_directory_updates Scenario.peerAdded Scenario.established
           Scenario.afterAdded H1).
Defined.

Lemma step_keeps_identity_witness :
  step (Ev_peer Scenario.pathMessage) Scenario.established = Ok Scenario.afterPath /\
  identity Scenario.afterPath = identity Scenario.established.
Proof.
  assert (H1 : step (Ev_peer Scenario.pathMessage) Scenario.established
               = Ok Scenario.afterPath) by (vm_compute; reflexivity).
  split; [exact H1|].
  exact (step_keeps_identity (Ev_peer Scenario.pathMessage) Scenario.established
           Scenario.afterPath H1).
Defined.

(** Two state changes.  In ESTABLISHED an UPDATE and a NOTIFICATION wait and
    the FSM falls to IDLE: [outgoing] is empty afterwards.  Before
    ESTABLISHED a NOTIFICATION waits and a path is recorded for the neighbor,
    and the FSM reaches ESTABLISHED: afterwards [outgoing] is the UPDATE of
    that path and the NOTIFICATION is gone. *)
Lemma state_change_discards_queue_witness :
  (outgoing Scenario.busy =
     Scenario.updates ++
     [NewBGPNotificationMessage BGP_ERROR_CEASE
        BGP_ERROR_SUB_ADMINISTRATIVE_SHUTDOWN []] /\
   handleFsmMsg (Scenario.sec 115) (Scenario.sec 115)
     (mkFsmMsg FSM_MSG_STATE_CHANGE (Fsm_State BGP_FSM_IDLE)) Scenario.busy
     = Ok Scenario.afterBusy /\
   wrap32 BGP_FSM_IDLE <> BGP_FSM_ESTABLISHED /\
   peerState Scenario.afterBusy = wrap32 BGP_FSM_IDLE /\
   outgoing Scenario.afterBusy = []) /\
  (outgoing Scenario.pending =
     [NewBGPNotificationMessage BGP_ERROR_CEASE
        BGP_ERROR_SUB_ADMINISTRATIVE_SHUTDOWN []] /\
   GetOutPathList Scenario.ipv4_unicast (adjRib Scenario.pending)
     = [Scenario.pathElsewhere] /\
   handleFsmMsg (Scenario.sec 110) (Scenario.sec 110)
     (mkFsmMsg FSM_MSG_STATE_CHANGE (Fsm_State BGP_FSM_ESTABLISHED))
     Scenario.pending = Ok Scenario.reentered /\
   wrap32 BGP_FSM_ESTABLISHED = BGP_FSM_ESTABLISHED /\
   peerState Scenario.reentered = wrap32 BGP_FSM_ESTABLISHED /\
   outgoing Scenario.reentered =
     map (queuedForm Scenario.pending)
       (flat_map (fun kv : Z * bool =>
                    CreateUpdateMsgFromPaths
                      (GetOutPathList kv.1 (adjRib Scenario.pending)))
                 (map_to_list (rfMap Scenario.pending))) /\
   outgoing Scenario.reentered = Scenario.updates).
Proof.
  assert (H1 : handleFsmMsg (Scenario.sec 115) (Scenario.sec 115)
                 (mkFsmMsg FSM_MSG_STATE_CHANGE (Fsm_State BGP_FSM_IDLE))
                 Scenario.busy = Ok Scenario.afterBusy)
    by (vm_compute; reflexivity).
  assert (H2 : wrap32 BGP_FSM_IDLE <> BGP_FSM_ESTABLISHED)
    by (vm_compute; discriminate).
  assert (H3 : handleFsmMsg (Scenario.sec 110) (Scenario.sec 110)
                 (mkFsmMsg FSM_MSG_STATE_CHANGE (Fsm_State BGP_FSM_ESTABLISHED))
                 Scenario.pending = Ok Scenario.reentered)
    by (vm_compute; reflexivity).
  assert (H4 : wrap32 BGP_FSM_ESTABLISHED = BGP_FSM_ESTABLISHED)
    by reflexivity.
  split.
  - split; [vm_compute; reflexivity|]. split; [exact H1|]. split; [exact H2|].
    destruct (state_change_discards_queue (Scenario.sec 115) (Scenario.sec 115)
                BGP_FSM_IDLE Scenario.busy Scenario.afterBusy H1)
      as (Hst & Hnone & _ & _).
    split; [exact Hst | exact (Hnone H2)].
  - split; [vm_compute; reflexivity|]. split; [vm_compute; reflexivity|].
    split; [exact H3|]. split; [exact H4|].
    destruct (state_change_discards_queue (Scenario.sec 110) (Scenario.sec 110)
                BGP_FSM_ESTABLISHED Scenario.pending Scenario.reentered H3)
      as (Hst & _ & Hest & _).
    split; [exact Hst|]. split; [exact (Hest H4)|]. vm_compute. reflexivity.
Defined.

(** The session in ESTABLISHED after a sibling announced a path and the
    operator asked for a shutdown: an UPDATE and a NOTIFICATION wait. *)
Lemma reachable_outgoingOk_witness :
  reachable Scenario.busy /\
  peerState Scenario.busy = BGP_FSM_ESTABLISHED /\
  outgoing Scenario.busy =
    Scenario.updates ++
    [NewBGPNotificationMessage BGP_ERROR_CEASE
       BGP_ERROR_SUB_ADMINISTRATIVE_SHUTDOWN []] /\
  outgoingOk Scenario.busy.
Proof.
  assert (H0 : reachable Scenario.started).
  { eapply (reachable_new Scenario.t0 Scenario.t0 Scenario.global
              Scenario.neighbor [Scenario.sibling] false ∅).
    vm_compute. reflexivity. }
  assert (H : reachable Scenario.busy).
  { apply (reachable_run (Scenario.bringUp ++ Scenario.announceThenShutdown)
             Scenario.started Scenario.busy H0).
    vm_compute. reflexivity. }
  split; [exact H|]. split; [vm_compute; reflexivity|].
  split; [vm_compute; reflexivity|].
  exact (reachable_outgoingOk Scenario.busy H).
Defined.


Lemma flap_counted_from_entry_witness :
  adminState (fsm Scenario.opened) <> ADMIN_STATE_DOWN /\
  handleFsmMsg (Scenario.sec 110) (Scenario.sec 110)
    (mkFsmMsg FSM_MSG_STATE_CHANGE (Fsm_State BGP_FSM_ESTABLISHED)) Scenario.opened
    = Ok Scenario.established /\
  representable (Scenario.sec 110) /\
  exists peer2,
    handleStateChange (Scenario.sec 115) BGP_FSM_IDLE Scenario.established
      = Ok peer2 /\
    Flops (CommonState (fsm_peerConfig (fsm peer2))) =
      if decide (Scenario.sec 115 - Scenario.sec 110 / Second * Second
                 < 30 * Second)
      then wrap32 (Flops (CommonState (fsm_peerConfig (fsm Scenario.established))) + 1)
      else Flops (CommonState (fsm_peerConfig (fsm Scenario.established))).
Proof.
  assert (H1 : adminState (fsm Scenario.opened) <> ADMIN_STATE_DOWN)
    by (vm_compute; discriminate).
  assert (H2 : handleFsmMsg (Scenario.sec 110) (Scenario.sec 110)
                 (mkFsmMsg FSM_MSG_STATE_CHANGE (Fsm_State BGP_FSM_ESTABLISHED))
                 Scenario.opened = Ok Scenario.established)
    by (vm_compute; reflexivity).
  assert (H3 : representable (Scenario.sec 110))
    by (vm_compute; split; [discriminate | reflexivity]).
  split; [exact H1|]. split; [exact H2|]. split; [exact H3|].
  destruct (flap_counted_from_entry (Scenario.sec 110) (Scenario.sec 110)
              (Scenario.sec 115) BGP_FSM_IDLE Scenario.opened
              Scenario.established H1 H2) as (peer2 & Hrun & _ & _ & Hflops).
  exists peer2. split; [exact Hrun | exact (Hflops H3)].
Defined.

Lemma open_accumulates_capabilities_witness :
  isOpen Scenario.openMsg Scenario.openBody /\
  handleBGPmessage (Scenario.sec 103) Scenario.openMsg Scenario.started
    = Ok Scenario.afterOpen /\
  ((forall code, is_Some (capMap Scenario.started !! code) ->
                 is_Some (capMap Scenario.afterOpen !! code)) /\
   (forall caps c,
      OptionParameterCapability caps ∈ OptParams Scenario.openBody -> c ∈ caps ->
      is_Some (capMap Scenario.afterOpen !! Code c)) /\
   ((forall k c, capMap Scenario.started !! k = Some c -> Code c = k) ->
    forall k c, capMap Scenario.afterOpen !! k = Some c -> Code c = k) /\
   ID (peerInfo Scenario.afterOpen) = open_ID Scenario.openBody).
Proof.
  assert (H1 : isOpen Scenario.openMsg Scenario.openBody) by (split; reflexivity).
  assert (H2 : handleBGPmessage (Scenario.sec 103) Scenario.openMsg Scenario.started
               = Ok Scenario.afterOpen) by (vm_compute; reflexivity).
  split; [exact H1|]. split; [exact H2|].
  exact (open_accumulates_capabilities (Scenario.sec 103) Scenario.openMsg
           Scenario.openBody Scenario.started Scenario.afterOpen H1 H2).
Defined.

Lemma connect_period_witness :
  5 <= 9223372036 /\
  exists d,
    newTicker 5 = Ok d /\
    d = Z.max 5 MIN_CONNECT_RETRY * Second /\
    dialTimeout = 9 * Second /\
    dialTimeout < d.
Proof.
  assert (H1 : 5 <= 9223372036) by lia.
  split; [exact H1|]. exact (connect_period 5 H1).
Defined.
